(** * Figma node-structure extractor: a shallow embedding

    This development embeds [src/scripts/figma-fetch.js] (the script that
    fetches a Figma node, walks it with [extractNodeStructure], resolves
    image URLs with [getImages] and assembles the output document in
    [getNodeStructure]) and states the properties of its specification
    about it.

    Modelling conventions.
    - A JavaScript object is a record whose optional properties are
      [option] fields; [None] stands for [undefined].
    - A JavaScript number is a finite decimal [num] (mantissa and decimal
      scale): every number a JSON document can spell.  IEEE-754 rounding of
      products is not modelled, arithmetic is exact.
    - Object literals used as lookup tables are association lists of their
      own properties, in source order.
    - The tree walk is pure; the script's effects are the two remote
      requests, the clock, the diagnostics written with [console.warn] and
      [console.error] and the file it writes; they are explicit in [World],
      [Diagnostic] and [Disk].  [getNodeStructure] is the run up to the
      document it builds, [getNodeStructure_saving] the run to its end. *)

From Stdlib Require Import ZArith Lia List Ascii String.
From stdpp Require Import base strings pretty list gmap.
Import ListNotations.

Set Warnings "-register-all".

Local Open Scope string_scope.
Local Open Scope Z_scope.

(** ** Numbers *)

Module Num.

(** [Num m s] is the decimal number [m / 10^s]. *)
Record num := Num { mant : Z; scale : nat }.

Definition pow10 (s : nat) : Z := 10 ^ Z.of_nat s.

Definition of_Z (z : Z) : num := Num z 0.

(** [a === b] on numbers. *)
Definition eqb (a b : num) : bool :=
  mant a * pow10 (scale b) =? mant b * pow10 (scale a).

(** [a < b] on numbers. *)
Definition ltb (a b : num) : bool :=
  mant a * pow10 (scale b) <? mant b * pow10 (scale a).

Definition leb (a b : num) : bool :=
  mant a * pow10 (scale b) <=? mant b * pow10 (scale a).

(** The number is the integer [k]. *)
Definition is_int (a : num) (k : Z) : bool := eqb a (of_Z k).

(** Truthiness of a number: everything but zero. *)
Definition truthy (a : num) : bool := negb (mant a =? 0).

(** [a * k] for an integer literal [k]: the exact product of the decimal
    (the source multiplies the nearest binary doubles). *)
Definition mulZ (a : num) (k : Z) : num := Num (mant a * k) (scale a).

(** [a / 100]. *)
Definition div100 (a : num) : num := Num (mant a) (2 + scale a).

(** [Math.round]: the floor of [a + 1/2] (ties go up). *)
Definition Math_round (a : num) : Z :=
  (2 * mant a + pow10 (scale a)) / (2 * pow10 (scale a)).

(** Canonical form: trailing zeros of the fraction removed. *)
Fixpoint normalize (m : Z) (s : nat) : Z * nat :=
  match s with
  | O => (m, O)
  | S s' => if m mod 10 =? 0 then normalize (m / 10) s' else (m, s)
  end.

Fixpoint zeros (n : nat) : string :=
  match n with O => "" | S n' => "0" +:+ zeros n' end.

(** The digits of [f], left-padded with zeros to [width] places. *)
Definition pad_fraction (width : nat) (f : Z) : string :=
  let digits := pretty f in
  zeros (width - String.length digits) +:+ digits.

(** [String(a)], as in a template literal: an integer prints as its decimal
    digits, another number with its fraction.  (The exponent notation that
    JavaScript switches to below 1e-6 and from 1e21 on is not modelled.) *)
Definition toString (a : num) : string :=
  let '(m, s) := normalize (mant a) (scale a) in
  match s with
  | O => pretty m
  | S _ =>
      (if m <? 0 then "-" else "") +:+
      pretty (Z.abs m / pow10 s) +:+ "." +:+
      pad_fraction s (Z.abs m mod pow10 s)
  end.

(** [a.toFixed(d)]: [d] fraction digits, ties of the decimal away from
    zero (the source rounds the nearest binary double, which at a decimal
    tie may lie on either side). *)
Definition toFixed (d : nat) (a : num) : string :=
  let n := (2 * Z.abs (mant a) * pow10 d + pow10 (scale a))
             / (2 * pow10 (scale a)) in
  (if mant a <? 0 then "-" else "") +:+
  pretty (n / pow10 d) +:+
  match d with
  | O => ""
  | S _ => "." +:+ pad_fraction d (n mod pow10 d)
  end.

(** Rounding half away from zero, as the specification words it. *)
Definition round_half_away_from_zero (a : num) : Z :=
  Z.sgn (mant a) *
  ((2 * Z.abs (mant a) + pow10 (scale a)) / (2 * pow10 (scale a))).

End Num.

Abbreviation num := Num.num.

(** ** JavaScript values *)

(** A property the extractor only copies is kept as its serialised text. *)
Definition json := string.

(** Truthiness of a string: everything but the empty one. *)
Definition truthy_string (s : string) : bool := negb (String.eqb s "").

(** Truthiness of an optional string property. *)
Definition truthy_opt (o : option string) : bool :=
  match o with Some s => truthy_string s | None => false end.

(** The value of a truthy property, nothing otherwise. *)
Definition if_truthy (o : option string) : option string :=
  match o with
  | Some s => if truthy_string s then Some s else None
  | None => None
  end.

(** [o || d] where [o] is a table entry and [d] a string. *)
Definition or_else (o : option string) (d : string) : string :=
  match if_truthy o with Some s => s | None => d end.

(** [table[key]] for an object literal with string keys: the own
    properties of the literal.  The names that every object inherits
    ([constructor], [toString], ...) are not looked up here; they are
    listed as [inherited_keys] below. *)
Fixpoint lookup_key (table : list (string * string)) (key : string)
  : option string :=
  match table with
  | [] => None
  | (k, v) :: rest => if String.eqb key k then Some v else lookup_key rest key
  end.

(** [table[v]] for an object literal with integer keys and a number [v]:
    the property name of [v] is [String(v)], which is the literal key [k]
    exactly when [v] is the integer [k]. *)
Fixpoint lookup_num (table : list (Z * string)) (v : num) : option string :=
  match table with
  | [] => None
  | (k, t) :: rest => if Num.is_int v k then Some t else lookup_num rest v
  end.

(** The same with a possibly undefined [v]: no table has a key "undefined". *)
Definition lookup_opt (table : list (Z * string)) (o : option num)
  : option string :=
  match o with Some v => lookup_num table v | None => None end.

(** [`${o}`] for a possibly undefined number. *)
Definition show_opt (o : option num) : string :=
  match o with Some v => Num.toString v | None => "undefined" end.

(** [a === b] for two possibly undefined numbers. *)
Definition strict_eq_opt (a b : option num) : bool :=
  match a, b with
  | Some x, Some y => Num.eqb x y
  | None, None => true
  | _, _ => false
  end.

(** [o === s] for an optional string property. *)
Definition is_string (o : option string) (s : string) : bool :=
  match o with Some t => String.eqb t s | None => false end.

(** [list && list.length > 0]. *)
Definition has_items {A} (o : option (list A)) : bool :=
  match o with Some (_ :: _) => true | _ => false end.

(** ** The input: Figma nodes *)

Record Color := { r : num; g : num; b : num; a : option num }.

Record Paint := {
  p_type : string;
  p_visible : option bool;
  p_color : option Color;
  p_opacity : option num;
  p_imageRef : option string;
  p_scaleMode : option string;
  p_imageTransform : option json;
  p_scalingFactor : option num;
  p_rotation : option num;
  p_filters : option json
}.

Record Vector := { x : num; y : num }.

Record Effect := {
  e_type : string;
  e_visible : option bool;
  e_offset : Vector;
  e_radius : num;
  e_color : Color
}.

Record Rect := { bb_x : num; bb_y : num; width : num; height : num }.

(** [lineHeight] and [letterSpacing]: a unit and, unless automatic, a value. *)
Record Measure := { m_value : option num; m_unit : string }.

Record FontName := { family : string; style : option string }.

Record TypeStyle := {
  ts_fontFamily : option string;
  ts_fontWeight : option num;
  ts_fontSize : option num;
  ts_lineHeight : option json;
  ts_letterSpacing : option json;
  ts_fills : option json;
  ts_textAlignHorizontal : option string;
  ts_textAlignVertical : option string
}.

(** The properties of one node that [extractNodeStructure] reads, its
    children apart. *)
Record Attrs := {
  n_id : option string;
  n_name : option string;
  n_type : option string;
  n_visible : option bool;
  n_characters : option string;
  n_fontSize : option num;
  n_fontName : option FontName;
  n_textAlignHorizontal : option string;
  n_textAlignVertical : option string;
  n_lineHeight : option Measure;
  n_letterSpacing : option Measure;
  n_paragraphSpacing : option num;
  n_textCase : option string;
  n_textDecoration : option string;
  n_style : option TypeStyle;
  n_fills : option (list Paint);
  n_strokes : option (list Paint);
  n_strokeWeight : option num;
  n_fillGeometry : option json;
  n_strokeGeometry : option json;
  n_exportSettings : option json;
  n_componentId : option string;
  n_componentSetId : option string;
  n_componentProperties : option json;
  n_absoluteBoundingBox : option Rect;
  n_layoutMode : option string;
  n_primaryAxisAlignItems : option string;
  n_counterAxisAlignItems : option string;
  n_itemSpacing : option num;
  n_paddingTop : option num;
  n_paddingRight : option num;
  n_paddingBottom : option num;
  n_paddingLeft : option num;
  n_cornerRadius : option num;
  n_rectangleCornerRadii : option (num * num * num * num);
  n_opacity : option num;
  n_effects : option (list Effect)
}.

Inductive Node := mkNode (attrs : Attrs) (children : option (list Node)).

Definition node_attrs (n : Node) : Attrs := let 'mkNode a _ := n in a.
Definition node_children (n : Node) : option (list Node) :=
  let 'mkNode _ c := n in c.

(** ** The output: the annotated structure *)

Record TextContent := {
  tc_characters : string;
  tc_characterCount : nat;
  tc_fontSize : option num;
  tc_fontFamily : option string;
  tc_fontWeight : option string;
  tc_textAlign : option string;
  tc_textVerticalAlign : option string;
  tc_lineHeight : option Measure;
  tc_letterSpacing : option Measure;
  tc_paragraphSpacing : option num;
  tc_textCase : option string;
  tc_textDecoration : option string
}.

Record ImageContent := {
  ic_type : string;
  ic_imageRef : option string;
  ic_scaleMode : option string;
  ic_imageTransform : option json;
  ic_scalingFactor : option num;
  ic_rotation : option num;
  ic_filters : option json
}.

Record VectorContent := {
  vc_fillGeometry : option json;
  vc_strokeGeometry : option json;
  vc_exportSettings : option json
}.

(** One entry of the output tree, its children apart. *)
Record Entry := {
  s_id : option string;
  s_name : option string;
  s_type : option string;
  s_depth : nat;
  s_textContent : option TextContent;
  s_imageContent : option ImageContent;
  s_vectorContent : option VectorContent;
  s_visible : option bool;
  s_componentId : option string;
  s_componentSetId : option string;
  s_componentProperties : option json;
  s_text : option string;
  s_textStyle : option TypeStyle;
  s_tailwindClasses : string;
  s_childrenCount : option nat;
  s_imageUrl : option string
}.

Inductive Structure :=
  mkStructure (entry : Entry) (children : option (list Structure)).

Definition entry_of (s : Structure) : Entry := let 'mkStructure e _ := s in e.
Definition children_of (s : Structure) : option (list Structure) :=
  let 'mkStructure _ c := s in c.

(** ** The style extractor: the [tailwind] object of [extractNodeStructure] *)

(** The lookup tables, as the object literals of the source. *)

Definition commonColors : list (string * string) :=
  [ ("255 255 255", "bg-white"); ("0 0 0", "bg-black");
    ("239 68 68", "bg-red-500"); ("34 197 94", "bg-green-500");
    ("59 130 246", "bg-blue-500"); ("168 85 247", "bg-purple-500");
    ("245 101 101", "bg-red-400"); ("156 163 175", "bg-gray-400") ].

Definition commonBorderColors : list (string * string) :=
  [ ("255 255 255", "border-white"); ("0 0 0", "border-black");
    ("229 231 235", "border-gray-200"); ("156 163 175", "border-gray-400");
    ("75 85 99", "border-gray-600") ].

Definition commonTextColors : list (string * string) :=
  [ ("0 0 0", "text-black"); ("255 255 255", "text-white");
    ("107 114 128", "text-gray-500"); ("75 85 99", "text-gray-600");
    ("55 65 81", "text-gray-700"); ("31 41 55", "text-gray-800");
    ("17 24 39", "text-gray-900") ].

Definition borderWidthMap : list (Z * string) :=
  [ (1, "border"); (2, "border-2"); (4, "border-4"); (8, "border-8") ].

Definition gapMap : list (Z * string) :=
  [ (0, "gap-0"); (1, "gap-0.5"); (2, "gap-0.5"); (4, "gap-1");
    (6, "gap-1.5"); (8, "gap-2"); (10, "gap-2.5"); (12, "gap-3");
    (16, "gap-4"); (20, "gap-5"); (24, "gap-6"); (32, "gap-8") ].

Definition spacingMap : list (Z * string) :=
  [ (0, "0"); (1, "0.5"); (2, "0.5"); (4, "1"); (6, "1.5"); (8, "2");
    (10, "2.5"); (12, "3"); (14, "3.5"); (16, "4"); (20, "5"); (24, "6");
    (28, "7"); (32, "8"); (36, "9"); (40, "10"); (44, "11"); (48, "12");
    (56, "14"); (64, "16") ].

Definition roundedMap8 : list (Z * string) :=
  [ (0, "rounded-none"); (2, "rounded-sm"); (4, "rounded");
    (6, "rounded-md"); (8, "rounded-lg"); (12, "rounded-xl");
    (16, "rounded-2xl"); (24, "rounded-3xl") ].

(** [roundedMap] of the scalar corner radius: with the fully-round entry. *)
Definition roundedMap : list (Z * string) :=
  roundedMap8 ++ [ (9999, "rounded-full") ].

Definition fontMap : list (string * string) :=
  [ ("Inter", "font-inter"); ("Roboto", "font-roboto");
    ("Arial", "font-sans"); ("Helvetica", "font-sans") ].

Definition weightMap : list (string * string) :=
  [ ("Regular", "font-normal"); ("Medium", "font-medium");
    ("SemiBold", "font-semibold"); ("Bold", "font-bold");
    ("Light", "font-light"); ("Thin", "font-thin") ].

Definition textAlignMap : list (string * string) :=
  [ ("LEFT", "text-left"); ("CENTER", "text-center");
    ("RIGHT", "text-right"); ("JUSTIFIED", "text-justify") ].

Definition one : num := Num.of_Z 1.

(** [`${Math.round(r * 255)} ${Math.round(g * 255)} ${Math.round(b * 255)}`] *)
Definition rgb_key (c : Color) : string :=
  pretty (Num.Math_round (Num.mulZ (r c) 255)) +:+ " " +:+
  pretty (Num.Math_round (Num.mulZ (g c) 255)) +:+ " " +:+
  pretty (Num.Math_round (Num.mulZ (b c) 255)).

(** [o || 1] for a possibly undefined number. *)
Definition or_one (o : option num) : num :=
  match o with
  | Some v => if Num.truthy v then v else one
  | None => one
  end.

(** [paint.type === 'SOLID' && paint.visible !== false] *)
Definition visible_solid (p : Paint) : bool :=
  String.eqb (p_type p) "SOLID" &&
  match p_visible p with Some false => false | _ => true end.

(** The three-way choice shared by background, border and text colour:
    the named class at alpha 1, else the arbitrary value with or without
    alpha. *)
Definition color_class (table : list (string * string)) (prefix : string)
    (rgb : string) (alpha : num) : string :=
  match (if Num.eqb alpha one then if_truthy (lookup_key table rgb)
         else None) with
  | Some name => name
  | None =>
      if Num.ltb alpha one
      then prefix +:+ "-[rgb(" +:+ rgb +:+ "/" +:+ Num.toString alpha +:+ ")]"
      else prefix +:+ "-[rgb(" +:+ rgb +:+ ")]"
  end.

(** The class of the first visible solid paint that has a colour. *)
Definition paint_class (table : list (string * string)) (prefix : string)
    (paints : option (list Paint)) : option string :=
  if has_items paints then
    match find visible_solid (default [] paints) with
    | Some p =>
        match p_color p with
        | Some c => Some (color_class table prefix (rgb_key c)
                                      (or_one (p_opacity p)))
        | None => None
        end
    | None => None
    end
  else None.

Definition tw_width (n : Attrs) : option string :=
  match n_absoluteBoundingBox n with
  | Some bb => Some ("w-[" +:+ pretty (Num.Math_round (width bb)) +:+ "px]")
  | None => None
  end.

Definition tw_height (n : Attrs) : option string :=
  match n_absoluteBoundingBox n with
  | Some bb => Some ("h-[" +:+ pretty (Num.Math_round (height bb)) +:+ "px]")
  | None => None
  end.

Definition tw_backgroundColor (n : Attrs) : option string :=
  paint_class commonColors "bg" (n_fills n).

Definition tw_borderWidth (n : Attrs) : option string :=
  if has_items (n_strokes n) then
    match n_strokeWeight n with
    | Some w =>
        if Num.truthy w
        then Some (or_else (lookup_num borderWidthMap w)
                           ("border-[" +:+ Num.toString w +:+ "px]"))
        else None
    | None => None
    end
  else None.

Definition tw_borderColor (n : Attrs) : option string :=
  paint_class commonBorderColors "border" (n_strokes n).

Definition tw_flexDirection (n : Attrs) : option string :=
  if truthy_opt (n_layoutMode n) then
    if is_string (n_layoutMode n) "VERTICAL" then Some "flex flex-col"
    else if is_string (n_layoutMode n) "HORIZONTAL" then Some "flex flex-row"
    else None
  else None.

Definition tw_display (n : Attrs) : option string :=
  if truthy_opt (n_layoutMode n) then None
  else if is_string (n_type n) "FRAME" || is_string (n_type n) "GROUP"
  then Some "block"
  else None.

Definition alignMap (layoutMode : option string) : list (string * string) :=
  let horizontal := is_string layoutMode "HORIZONTAL" in
  [ ("MIN", if horizontal then "justify-start" else "items-start");
    ("CENTER", if horizontal then "justify-center" else "items-center");
    ("MAX", if horizontal then "justify-end" else "items-end");
    ("SPACE_BETWEEN", "justify-between") ].

Definition counterAlignMap (layoutMode : option string)
  : list (string * string) :=
  let horizontal := is_string layoutMode "HORIZONTAL" in
  [ ("MIN", if horizontal then "items-start" else "justify-start");
    ("CENTER", if horizontal then "items-center" else "justify-center");
    ("MAX", if horizontal then "items-end" else "justify-end") ].

Definition tw_primaryAlignment (n : Attrs) : option string :=
  match if_truthy (n_primaryAxisAlignItems n) with
  | Some al => if_truthy (lookup_key (alignMap (n_layoutMode n)) al)
  | None => None
  end.

Definition tw_counterAlignment (n : Attrs) : option string :=
  match if_truthy (n_counterAxisAlignItems n) with
  | Some al => if_truthy (lookup_key (counterAlignMap (n_layoutMode n)) al)
  | None => None
  end.

Definition tw_gap (n : Attrs) : option string :=
  match n_itemSpacing n with
  | Some v => Some (or_else (lookup_num gapMap v)
                            ("gap-[" +:+ Num.toString v +:+ "px]"))
  | None => None
  end.

(** One padding class: [side] is [p], [pt], [pr], [pb] or [pl]. *)
Definition padding_class (side : string) (v : option num) : string :=
  match if_truthy (lookup_opt spacingMap v) with
  | Some spacing => side +:+ "-" +:+ spacing
  | None => side +:+ "-[" +:+ show_opt v +:+ "px]"
  end.

Definition tw_padding (n : Attrs) : option string :=
  match n_paddingLeft n with
  | Some _ =>
      if strict_eq_opt (n_paddingTop n) (n_paddingRight n) &&
         strict_eq_opt (n_paddingRight n) (n_paddingBottom n) &&
         strict_eq_opt (n_paddingBottom n) (n_paddingLeft n)
      then Some (padding_class "p" (n_paddingTop n))
      else Some (padding_class "pt" (n_paddingTop n) +:+ " " +:+
                 padding_class "pr" (n_paddingRight n) +:+ " " +:+
                 padding_class "pb" (n_paddingBottom n) +:+ " " +:+
                 padding_class "pl" (n_paddingLeft n))
  | None => None
  end.

(** [borderRadius]: the scalar radius first, overwritten by the four
    corner radii when the node has them. *)
Definition tw_borderRadius (n : Attrs) : option string :=
  match n_rectangleCornerRadii n with
  | Some (tl, tr, br, bl) =>
      if Num.eqb tl tr && Num.eqb tr br && Num.eqb br bl
      then Some (or_else (lookup_num roundedMap8 tl)
                         ("rounded-[" +:+ Num.toString tl +:+ "px]"))
      else Some ("[border-radius:" +:+ Num.toString tl +:+ "px_" +:+
                 Num.toString tr +:+ "px_" +:+ Num.toString br +:+ "px_" +:+
                 Num.toString bl +:+ "px]")
  | None =>
      match n_cornerRadius n with
      | Some v => Some (or_else (lookup_num roundedMap v)
                                ("rounded-[" +:+ Num.toString v +:+ "px]"))
      | None => None
      end
  end.

Definition tw_fontSize (n : Attrs) : option string :=
  match n_fontSize n with
  | Some v => if Num.truthy v
              then Some ("text-[" +:+ Num.toString v +:+ "px]") else None
  | None => None
  end.

(** [m && typeof m === 'object' && m.value]: the truthy value of a measure. *)
Definition measure_value (m : option Measure) : option (num * string) :=
  match m with
  | Some m =>
      match m_value m with
      | Some v => if Num.truthy v then Some (v, m_unit m) else None
      | None => None
      end
  | None => None
  end.

Definition tw_lineHeight (n : Attrs) : option string :=
  match measure_value (n_lineHeight n) with
  | Some (v, u) =>
      if String.eqb u "PIXELS"
      then Some ("leading-[" +:+ Num.toString v +:+ "px]")
      else if String.eqb u "PERCENT"
      then Some ("leading-[" +:+ Num.toFixed 1 (Num.div100 v) +:+ "]")
      else None
  | None => None
  end.

Definition tw_letterSpacing (n : Attrs) : option string :=
  match measure_value (n_letterSpacing n) with
  | Some (v, u) =>
      if String.eqb u "PIXELS"
      then Some ("tracking-[" +:+ Num.toString v +:+ "px]")
      else if String.eqb u "PERCENT"
      then Some ("tracking-[" +:+ Num.toFixed 3 (Num.div100 v) +:+ "em]")
      else None
  | None => None
  end.

Definition tw_textColor (n : Attrs) : option string :=
  if is_string (n_type n) "TEXT"
  then paint_class commonTextColors "text" (n_fills n)
  else None.

Definition tw_fontFamily (n : Attrs) : option string :=
  match n_fontName n with
  | Some f => Some (or_else (lookup_key fontMap (family f))
                            ("font-['" +:+ family f +:+ "']"))
  | None => None
  end.

Definition tw_fontWeight (n : Attrs) : option string :=
  match n_fontName n with
  | Some f =>
      match if_truthy (style f) with
      | Some st => Some (or_else (lookup_key weightMap st) "font-normal")
      | None => None
      end
  | None => None
  end.

Definition tw_textAlign (n : Attrs) : option string :=
  match if_truthy (n_textAlignHorizontal n) with
  | Some al => Some (or_else (lookup_key textAlignMap al) "text-left")
  | None => None
  end.

Definition tw_opacity (n : Attrs) : option string :=
  match n_opacity n with
  | Some o =>
      if Num.eqb o one then None
      else Some ("opacity-[" +:+
                 pretty (Num.Math_round (Num.mulZ o 100)) +:+ "%]")
  | None => None
  end.

(** [effect.type === 'DROP_SHADOW' && effect.visible] *)
Definition visible_drop_shadow (e : Effect) : bool :=
  String.eqb (e_type e) "DROP_SHADOW" &&
  match e_visible e with Some true => true | _ => false end.

Definition tw_shadow (n : Attrs) : option string :=
  if has_items (n_effects n) then
    match find visible_drop_shadow (default [] (n_effects n)) with
    | Some e =>
        let alpha := or_one (a (e_color e)) in
        let geometry :=
          "shadow-[" +:+ Num.toString (x (e_offset e)) +:+ "px_" +:+
          Num.toString (y (e_offset e)) +:+ "px_" +:+
          Num.toString (e_radius e) +:+ "px_rgb(" +:+ rgb_key (e_color e) in
        if Num.ltb alpha one
        then Some (geometry +:+ "/" +:+ Num.toString alpha +:+ ")]")
        else Some (geometry +:+ ")]")
    | None => None
    end
  else None.

(** The [tailwind] object once every block of the function has run. *)
Record Tailwind := {
  width_ : option string;
  height_ : option string;
  backgroundColor : option string;
  borderWidth : option string;
  borderColor : option string;
  flexDirection : option string;
  display : option string;
  primaryAlignment : option string;
  counterAlignment : option string;
  gap : option string;
  padding : option string;
  borderRadius : option string;
  fontSize : option string;
  lineHeight : option string;
  letterSpacing : option string;
  textColor : option string;
  fontFamily : option string;
  fontWeight : option string;
  textAlign : option string;
  opacity : option string;
  shadow : option string
}.

Definition tailwind_of (n : Attrs) : Tailwind :=
  {| width_ := tw_width n;
     height_ := tw_height n;
     backgroundColor := tw_backgroundColor n;
     borderWidth := tw_borderWidth n;
     borderColor := tw_borderColor n;
     flexDirection := tw_flexDirection n;
     display := tw_display n;
     primaryAlignment := tw_primaryAlignment n;
     counterAlignment := tw_counterAlignment n;
     gap := tw_gap n;
     padding := tw_padding n;
     borderRadius := tw_borderRadius n;
     fontSize := tw_fontSize n;
     lineHeight := tw_lineHeight n;
     letterSpacing := tw_letterSpacing n;
     textColor := tw_textColor n;
     fontFamily := tw_fontFamily n;
     fontWeight := tw_fontWeight n;
     textAlign := tw_textAlign n;
     opacity := tw_opacity n;
     shadow := tw_shadow n |}.

(** [if (tailwind.f) tailwindClasses.push(tailwind.f)] *)
Definition push_if (o : option string) : list string :=
  match if_truthy o with Some s => [s] | None => [] end.

(** The array [tailwindClasses] before the default classes are considered. *)
Definition style_classes (t : Tailwind) : list string :=
  push_if (display t) ++ push_if (flexDirection t) ++
  push_if (primaryAlignment t) ++ push_if (counterAlignment t) ++
  push_if (gap t) ++
  push_if (width_ t) ++ push_if (height_ t) ++
  push_if (padding t) ++
  push_if (backgroundColor t) ++
  push_if (borderWidth t) ++ push_if (borderColor t) ++
  push_if (borderRadius t) ++
  push_if (fontSize t) ++ push_if (fontFamily t) ++ push_if (fontWeight t) ++
  push_if (lineHeight t) ++ push_if (letterSpacing t) ++
  push_if (textAlign t) ++ push_if (textColor t) ++
  push_if (opacity t) ++ push_if (shadow t).

(** The [switch (node.type)] of the default classes. *)
Definition default_class (type : option string) : string :=
  if is_string type "TEXT" then "text-base"
  else if is_string type "FRAME" || is_string type "GROUP" then "block"
  else if is_string type "INSTANCE" then "block"
  else if is_string type "VECTOR" || is_string type "BOOLEAN_OPERATION"
  then "inline-block"
  else if is_string type "RECTANGLE" || is_string type "ELLIPSE" then "block"
  else "block".

(** The array [tailwindClasses] when it is joined. *)
Definition tailwindClasses (n : Attrs) : list string :=
  match style_classes (tailwind_of n) with
  | [] => [default_class (n_type n)]
  | classes => classes
  end.

(** [array.join(' ')] *)
Definition join_classes (classes : list string) : string :=
  String.concat " " classes.

(** ** The tree walker: [extractNodeStructure] *)

Definition textContent_of (n : Attrs) : option TextContent :=
  if is_string (n_type n) "TEXT" then
    Some {| tc_characters := default "" (if_truthy (n_characters n));
            tc_characterCount :=
              match if_truthy (n_characters n) with
              | Some s => String.length s
              | None => O
              end;
            tc_fontSize := n_fontSize n;
            tc_fontFamily := family <$> n_fontName n;
            tc_fontWeight := n_fontName n ≫= style;
            tc_textAlign := n_textAlignHorizontal n;
            tc_textVerticalAlign := n_textAlignVertical n;
            tc_lineHeight := n_lineHeight n;
            tc_letterSpacing := n_letterSpacing n;
            tc_paragraphSpacing := n_paragraphSpacing n;
            tc_textCase := n_textCase n;
            tc_textDecoration := n_textDecoration n |}
  else None.

Definition is_image (p : Paint) : bool := String.eqb (p_type p) "IMAGE".

Definition imageContent_of (n : Attrs) : option ImageContent :=
  if is_string (n_type n) "RECTANGLE" then
    match n_fills n with
    | Some fills =>
        match find is_image fills with
        | Some f =>
            Some {| ic_type := "IMAGE_FILL";
                    ic_imageRef := p_imageRef f;
                    ic_scaleMode := p_scaleMode f;
                    ic_imageTransform := p_imageTransform f;
                    ic_scalingFactor := p_scalingFactor f;
                    ic_rotation := p_rotation f;
                    ic_filters := p_filters f |}
        | None => None
        end
    | None => None
    end
  else None.

Definition vectorContent_of (n : Attrs) : option VectorContent :=
  if is_string (n_type n) "VECTOR" || is_string (n_type n) "BOOLEAN_OPERATION"
  then Some {| vc_fillGeometry := n_fillGeometry n;
               vc_strokeGeometry := n_strokeGeometry n;
               vc_exportSettings := n_exportSettings n |}
  else None.

(** The entry of one node, before its children are attached. *)
Definition entry_for (n : Attrs) (depth : nat) (childrenCount : option nat)
  : Entry :=
  {| s_id := n_id n;
     s_name := n_name n;
     s_type := n_type n;
     s_depth := depth;
     s_textContent := textContent_of n;
     s_imageContent := imageContent_of n;
     s_vectorContent := vectorContent_of n;
     s_visible := n_visible n;
     s_componentId := if_truthy (n_componentId n);
     s_componentSetId := if_truthy (n_componentSetId n);
     s_componentProperties := n_componentProperties n;
     s_text := if_truthy (n_characters n);
     s_textStyle :=
       match if_truthy (n_characters n) with
       | Some _ => n_style n
       | None => None
       end;
     s_tailwindClasses := join_classes (tailwindClasses n);
     s_childrenCount := childrenCount;
     s_imageUrl := None |}.

Fixpoint extractNodeStructure (node : Node) (depth : nat) : Structure :=
  match node with
  | mkNode n children =>
      match children with
      | Some (c :: cs) =>
          mkStructure
            (entry_for n depth (Some (length (c :: cs))))
            (Some (map (fun child => extractNodeStructure child (S depth))
                       (c :: cs)))
      | _ => mkStructure (entry_for n depth None) None
      end
  end.

(** ** The image resolver and the report: [getNodeStructure] *)

(** What a remote request settles to: [makeRequest] resolves with the parsed
    response or rejects with an error (transport failure, unparsable body,
    or a body that reports a status other than 200). *)
Inductive Settled (A : Type) :=
  | Resolved (value : A)
  | Rejected (message : string).
Arguments Resolved {A} value.
Arguments Rejected {A} message.

(** A parsed response: [nodes] maps a node id to its document, [images] a
    node id to a URL (a [null] URL is the empty string: both are falsy). *)
Record Response := {
  nodes : option (gmap string Node);
  images : option (gmap string string)
}.

(** What the script reads from outside: its two constants, the remote
    service and the clock ([new Date().toISOString()]). *)
Record World := {
  FILE_KEY : string;
  NODE_ID : string;
  makeRequest : string -> Settled Response;
  now : string
}.

(** A line written with [console.warn] or [console.error]: the fixed text
    (without its leading pictogram) and the error message after it. *)
Inductive Diagnostic :=
  | Warn (text message : string)
  | Error (text message : string).

(** [ids.join(',')]: an undefined id joins as the empty string. *)
Definition join_ids (ids : list (option string)) : string :=
  String.concat "," (map (default "") ids).

(** The path of the batched image request. *)
Definition images_path (fileKey : string) (nodeIds : list (option string))
  : string :=
  "/v1/images/" +:+ fileKey +:+ "?ids=" +:+ join_ids nodeIds +:+
  "&format=png&scale=2".

(** The path of the node request. *)
Definition nodes_path (w : World) : string :=
  "/v1/files/" +:+ FILE_KEY w +:+ "/nodes?ids=" +:+ NODE_ID w +:+ "&depth=10".

Definition getImages (w : World) (fileKey : string)
    (nodeIds : list (option string)) : gmap string string * list Diagnostic :=
  match makeRequest w (images_path fileKey nodeIds) with
  | Resolved imageData => (default ∅ (images imageData), [])
  | Rejected message => (∅, [Warn "Could not fetch images:" message])
  end.

(** The ids pushed on the shared array [imageNodes], in the order of the
    pushes: a node before its children, the children from first to last. *)
Fixpoint collectImageNodes (node : Node) : list (option string) :=
  match node with
  | mkNode n children =>
      (match n_fills n with
       | Some fills => if existsb is_image fills then [n_id n] else []
       | None => []
       end) ++
      match children with
      | Some cs => flat_map collectImageNodes cs
      | None => []
      end
  end.

(** The property name [structure.id] indexes [imageUrls] with. *)
Definition id_key (id : option string) : string := default "undefined" id.

(** [structure.imageUrl = url] *)
Definition set_imageUrl (e : Entry) (url : string) : Entry :=
  {| s_id := s_id e; s_name := s_name e; s_type := s_type e;
     s_depth := s_depth e;
     s_textContent := s_textContent e;
     s_imageContent := s_imageContent e;
     s_vectorContent := s_vectorContent e;
     s_visible := s_visible e;
     s_componentId := s_componentId e;
     s_componentSetId := s_componentSetId e;
     s_componentProperties := s_componentProperties e;
     s_text := s_text e; s_textStyle := s_textStyle e;
     s_tailwindClasses := s_tailwindClasses e;
     s_childrenCount := s_childrenCount e;
     s_imageUrl := Some url |}.

(** [if (imageUrls[structure.id]) structure.imageUrl = imageUrls[structure.id]] *)
Definition annotate (imageUrls : gmap string string) (e : Entry) : Entry :=
  match if_truthy (imageUrls !! id_key (s_id e)) with
  | Some url => set_imageUrl e url
  | None => e
  end.

(** The in-place update of the walked tree, as the tree it leaves. *)
Fixpoint addImageUrls (imageUrls : gmap string string) (s : Structure)
  : Structure :=
  match s with
  | mkStructure e children =>
      mkStructure
        (annotate imageUrls e)
        (match children with
         | Some cs => Some (map (addImageUrls imageUrls) cs)
         | None => None
         end)
  end.

Fixpoint countAllChildren (s : Structure) : nat :=
  match s with
  | mkStructure _ children =>
      match children with
      | Some cs => (length cs + list_sum (map countAllChildren cs))%nat
      | None => O
      end
  end.

Record InstanceRef := {
  i_id : option string; i_name : option string; i_componentId : string
}.

Record ComponentRef := { c_id : option string; c_name : option string }.

Fixpoint analyzeComponents (s : Structure)
  : list InstanceRef * list ComponentRef :=
  match s with
  | mkStructure e children =>
      let own_instances :=
        if is_string (s_type e) "INSTANCE" then
          match if_truthy (s_componentId e) with
          | Some c => [ {| i_id := s_id e; i_name := s_name e;
                           i_componentId := c |} ]
          | None => []
          end
        else [] in
      let own_components :=
        if is_string (s_type e) "COMPONENT"
        then [ {| c_id := s_id e; c_name := s_name e |} ]
        else [] in
      match children with
      | Some cs =>
          ((own_instances ++
            flat_map (fun c => fst (analyzeComponents c)) cs)%list,
           (own_components ++
            flat_map (fun c => snd (analyzeComponents c)) cs)%list)
      | None => (own_instances, own_components)
      end
  end.

Record ComponentAnalysis := {
  instanceCount : nat;
  componentCount : nat;
  components : list ComponentRef;
  instances : list InstanceRef
}.

Record OutputData := {
  nodeId : string;
  nodeName : option string;
  nodeType : option string;
  directChildrenCount : nat;
  totalDescendants : nat;
  structure : Structure;
  extractedAt : string;
  componentAnalysis : ComponentAnalysis
}.

(** [structure.children?.length || 0] *)
Definition direct_children (s : Structure) : nat :=
  match children_of s with Some cs => length cs | None => O end.

(** The output document for a fetched node and a settled image step. *)
Definition outputData_of (w : World) (node : Node) (s : Structure)
  : OutputData :=
  let analysis := analyzeComponents s in
  {| nodeId := NODE_ID w;
     nodeName := n_name (node_attrs node);
     nodeType := n_type (node_attrs node);
     directChildrenCount := direct_children s;
     totalDescendants := countAllChildren s;
     structure := s;
     extractedAt := now w;
     componentAnalysis :=
       {| instanceCount := length (fst analysis);
          componentCount := length (snd analysis);
          components := snd analysis;
          instances := fst analysis |} |}.

(** The script's main function up to the document it serialises: the
    document, if any, and the diagnostics written on the way.  An error
    thrown inside the [try] ends the run in the [catch] with one error
    line and no document. *)
Definition getNodeStructure (w : World)
  : option OutputData * list Diagnostic :=
  match makeRequest w (nodes_path w) with
  | Rejected message => (None, [Error "Error:" message])
  | Resolved nodeData =>
      match nodes nodeData ≫= (fun ns => ns !! NODE_ID w) with
      | None =>
          (None, [Error "Error:"
                        ("Node with ID " +:+ NODE_ID w +:+ " not found")])
      | Some node =>
          let structure := extractNodeStructure node O in
          let imageNodeIds := collectImageNodes node in
          match imageNodeIds with
          | [] => (Some (outputData_of w node structure), [])
          | _ :: _ =>
              let '(imageUrls, diagnostics) :=
                getImages w (FILE_KEY w) imageNodeIds in
              (Some (outputData_of w node (addImageUrls imageUrls structure)),
               diagnostics)
          end
      end
  end.

(** ** Vocabulary of the properties *)

(** A node that has only an id, a name and a type. *)
Definition plain (id name type : option string) : Attrs :=
  {| n_id := id; n_name := name; n_type := type; n_visible := None;
     n_characters := None; n_fontSize := None; n_fontName := None;
     n_textAlignHorizontal := None; n_textAlignVertical := None;
     n_lineHeight := None; n_letterSpacing := None;
     n_paragraphSpacing := None; n_textCase := None;
     n_textDecoration := None; n_style := None; n_fills := None;
     n_strokes := None; n_strokeWeight := None; n_fillGeometry := None;
     n_strokeGeometry := None; n_exportSettings := None;
     n_componentId := None; n_componentSetId := None;
     n_componentProperties := None; n_absoluteBoundingBox := None;
     n_layoutMode := None; n_primaryAxisAlignItems := None;
     n_counterAxisAlignItems := None; n_itemSpacing := None;
     n_paddingTop := None; n_paddingRight := None; n_paddingBottom := None;
     n_paddingLeft := None; n_cornerRadius := None;
     n_rectangleCornerRadii := None; n_opacity := None; n_effects := None |}.

(** The nodes of an input tree in document order (a parent before its
    children, siblings from first to last), each with its depth below the
    node the walk starts from at depth [depth]. *)
Fixpoint node_preorder (node : Node) (depth : nat) : list (Attrs * nat) :=
  match node with
  | mkNode n children =>
      (n, depth) ::
      match children with
      | Some cs => flat_map (fun c => node_preorder c (S depth)) cs
      | None => []
      end
  end.

(** The entries of an output tree in document order. *)
Fixpoint entries (s : Structure) : list Entry :=
  match s with
  | mkStructure e children =>
      e :: match children with
           | Some cs => flat_map entries cs
           | None => []
           end
  end.

Definition count_nodes (node : Node) : nat := length (node_preorder node O).
Definition count_entries (s : Structure) : nat := length (entries s).

(** A node is malformed when it lacks its id or its type. *)
Definition malformed (n : Attrs) : bool :=
  match n_id n, n_type n with
  | Some _, Some _ => false
  | _, _ => true
  end.

Definition count_malformed (node : Node) : nat :=
  length (filter (fun p => malformed (fst p) = true) (node_preorder node O)).

(** What identifies an entry, and what identifies the node it is for. *)
Definition entry_label (e : Entry) : option string * option string * nat :=
  (s_id e, s_type e, s_depth e).
Definition node_label (p : Attrs * nat) : option string * option string * nat :=
  (n_id (fst p), n_type (fst p), snd p).

(** The diagnostics the script can write are those of its two requests. *)
Definition request_diagnostic (d : Diagnostic) : Prop :=
  match d with
  | Warn text _ => text = "Could not fetch images:"
  | Error text _ => text = "Error:"
  end.

(** A world in which every request resolves with the same response. *)
Definition serving (fileKey nodeId clock : string) (response : Response)
  : World :=
  {| FILE_KEY := fileKey; NODE_ID := nodeId;
     makeRequest := fun _ => Resolved response; now := clock |}.

(** A three-node tree whose second node has no id. *)
Definition malformed_tree : Node :=
  mkNode (plain (Some "1:1") (Some "Page") (Some "FRAME"))
    (Some [ mkNode (plain None (Some "Title") (Some "TEXT")) None;
            mkNode (plain (Some "1:3") (Some "Box") (Some "RECTANGLE")) None ]).

(** The keys of the two tables, and the table the specification gives. *)
Definition gap_keys : list Z := [0; 1; 2; 4; 6; 8; 10; 12; 16; 20; 24; 32].
Definition padding_keys : list Z :=
  [0; 1; 2; 4; 6; 8; 10; 12; 14; 16; 20; 24; 28; 32; 36; 40; 44; 48; 56; 64].
Definition claimed_spacing_keys : list Z :=
  [0; 1; 2; 4; 6; 8; 10; 12; 16; 20; 24; 28; 32; 36; 40; 44; 48; 56; 64].

(** A node that has only a type and layout properties. *)
Definition layout_node (type layoutMode primary counter : option string)
    (itemSpacing top right bottom left : option num) : Attrs :=
  {| n_id := Some "1:2"; n_name := Some "Row"; n_type := type;
     n_visible := None;
     n_characters := None; n_fontSize := None; n_fontName := None;
     n_textAlignHorizontal := None; n_textAlignVertical := None;
     n_lineHeight := None; n_letterSpacing := None;
     n_paragraphSpacing := None; n_textCase := None;
     n_textDecoration := None; n_style := None; n_fills := None;
     n_strokes := None; n_strokeWeight := None; n_fillGeometry := None;
     n_strokeGeometry := None; n_exportSettings := None;
     n_componentId := None; n_componentSetId := None;
     n_componentProperties := None; n_absoluteBoundingBox := None;
     n_layoutMode := layoutMode; n_primaryAxisAlignItems := primary;
     n_counterAxisAlignItems := counter; n_itemSpacing := itemSpacing;
     n_paddingTop := top; n_paddingRight := right;
     n_paddingBottom := bottom; n_paddingLeft := left;
     n_cornerRadius := None;
     n_rectangleCornerRadii := None; n_opacity := None; n_effects := None |}.

(** A frame whose only layout property is an item spacing of [v]. *)
Definition gap_node (v : Z) : Attrs :=
  layout_node (Some "FRAME") None None None (Some (Num.of_Z v))
    None None None None.

Definition zero : num := Num.of_Z 0.

(** [0 <= v <= 1] *)
Definition unit_interval (v : num) : Prop :=
  Num.leb zero v = true /\ Num.leb v one = true.

(** [0 < v < 1] *)
Definition strictly_between (v : num) : Prop :=
  Num.ltb zero v = true /\ Num.ltb v one = true.

(** [Math.round(v * 255)], one channel of the colour key. *)
Definition channel (v : num) : Z := Num.Math_round (Num.mulZ v 255).

(** A solid paint of the given colour, opacity and visibility. *)
Definition solid (c : Color) (opacity : option num) (visible : option bool)
  : Paint :=
  {| p_type := "SOLID"; p_visible := visible; p_color := Some c;
     p_opacity := opacity; p_imageRef := None; p_scaleMode := None;
     p_imageTransform := None; p_scalingFactor := None; p_rotation := None;
     p_filters := None |}.

(** An image paint. *)
Definition image (ref : string) : Paint :=
  {| p_type := "IMAGE"; p_visible := None; p_color := None;
     p_opacity := None; p_imageRef := Some ref; p_scaleMode := Some "FILL";
     p_imageTransform := None; p_scalingFactor := None; p_rotation := None;
     p_filters := None |}.

(** A node that has only an id, a type, fills and strokes. *)
Definition painted (id type : option string) (fills strokes : option (list Paint))
    (strokeWeight : option num) : Attrs :=
  {| n_id := id; n_name := Some "Shape"; n_type := type;
     n_visible := None;
     n_characters := None; n_fontSize := None; n_fontName := None;
     n_textAlignHorizontal := None; n_textAlignVertical := None;
     n_lineHeight := None; n_letterSpacing := None;
     n_paragraphSpacing := None; n_textCase := None;
     n_textDecoration := None; n_style := None; n_fills := fills;
     n_strokes := strokes; n_strokeWeight := strokeWeight;
     n_fillGeometry := None;
     n_strokeGeometry := None; n_exportSettings := None;
     n_componentId := None; n_componentSetId := None;
     n_componentProperties := None; n_absoluteBoundingBox := None;
     n_layoutMode := None; n_primaryAxisAlignItems := None;
     n_counterAxisAlignItems := None; n_itemSpacing := None;
     n_paddingTop := None; n_paddingRight := None; n_paddingBottom := None;
     n_paddingLeft := None; n_cornerRadius := None;
     n_rectangleCornerRadii := None; n_opacity := None; n_effects := None |}.

Definition white : Color :=
  {| r := Num.of_Z 1; g := Num.of_Z 1; b := Num.of_Z 1; a := None |}.

(** A colour next to white: 254.49/255 rounds to 254. *)
Definition off_white : Color :=
  {| r := Num.of_Z 1; g := Num.of_Z 1; b := Num.Num 998 3; a := None |}.

(** The key ["R G B"] of a colour. *)
Definition color_key (c : Color) : string :=
  pretty (channel (r c)) +:+ " " +:+ pretty (channel (g c)) +:+ " " +:+
  pretty (channel (b c)).

(** The channel [v] is converted to an integer of 0..255 by rounding half
    away from zero. *)
Definition converted (v : num) : Prop :=
  0 <= channel v <= 255 /\
  channel v = Num.round_half_away_from_zero (Num.mulZ v 255).

(** The string has no space in it: it is one token. *)
Fixpoint no_space (s : string) : bool :=
  match s with
  | EmptyString => true
  | String c s' => negb (Ascii.eqb c " "%char) && no_space s'
  end.

(** [s.split(' ')], with the token being read in [current]. *)
Fixpoint split_spaces (s : string) (current : string) : list string :=
  match s with
  | EmptyString => [current]
  | String c s' =>
      if Ascii.eqb c " "%char then current :: split_spaces s' ""
      else split_spaces s' (current +:+ String c "")
  end.

(** The tokens of a class string. *)
Definition tokens (s : string) : list string := split_spaces s "".

(** The four sides are exactly equal. *)
Definition all_equal (top right bottom left : num) : Prop :=
  Num.eqb top right = true /\ Num.eqb right bottom = true /\
  Num.eqb bottom left = true.

Inductive AxisMode := HORIZONTAL | VERTICAL.
Inductive Alignment := MIN | CENTER | MAX.

Definition mode_name (m : AxisMode) : string :=
  match m with HORIZONTAL => "HORIZONTAL" | VERTICAL => "VERTICAL" end.

Definition alignment_name (al : Alignment) : string :=
  match al with MIN => "MIN" | CENTER => "CENTER" | MAX => "MAX" end.

Definition placement (al : Alignment) : string :=
  match al with MIN => "start" | CENTER => "center" | MAX => "end" end.

(** The cross-swapped table of the specification. *)
Definition primary_class (m : AxisMode) (al : Alignment) : string :=
  match m with HORIZONTAL => "justify-" | VERTICAL => "items-" end
  +:+ placement al.

Definition counter_class (m : AxisMode) (al : Alignment) : string :=
  match m with HORIZONTAL => "items-" | VERTICAL => "justify-" end
  +:+ placement al.

(** The classes of the attributes the specification lists, in its order:
    display or layout mode, primary-axis alignment, counter-axis alignment,
    item spacing, width, height, padding, background colour, border width,
    border colour, border radius, font size, font family, font weight, text
    alignment, opacity, drop shadow. *)
Definition precedence (t : Tailwind) : list string :=
  push_if (display t) ++ push_if (flexDirection t) ++
  push_if (primaryAlignment t) ++ push_if (counterAlignment t) ++
  push_if (gap t) ++
  push_if (width_ t) ++ push_if (height_ t) ++
  push_if (padding t) ++
  push_if (backgroundColor t) ++
  push_if (borderWidth t) ++ push_if (borderColor t) ++
  push_if (borderRadius t) ++
  push_if (fontSize t) ++ push_if (fontFamily t) ++ push_if (fontWeight t) ++
  push_if (textAlign t) ++
  push_if (opacity t) ++ push_if (shadow t).

(** [k] is the integer nearest to [v]: [k - 1/2 <= v < k + 1/2]. *)
Definition nearest_integer (v : num) (k : Z) : Prop :=
  (2 * k - 1) * Num.pow10 (Num.scale v) <= 2 * Num.mant v /\
  2 * Num.mant v < (2 * k + 1) * Num.pow10 (Num.scale v).

(** A text node with a bounding box, a font, a line height, a black fill and
    an opacity. *)
Definition sample_text : Attrs :=
  {| n_id := Some "1:7"; n_name := Some "Title"; n_type := Some "TEXT";
     n_visible := Some true;
     n_characters := Some "Hi"; n_fontSize := Some (Num.of_Z 24);
     n_fontName := Some {| family := "Inter"; style := Some "Bold" |};
     n_textAlignHorizontal := Some "CENTER"; n_textAlignVertical := None;
     n_lineHeight :=
       Some {| m_value := Some (Num.of_Z 32); m_unit := "PIXELS" |};
     n_letterSpacing := None;
     n_paragraphSpacing := None; n_textCase := None;
     n_textDecoration := None; n_style := None;
     n_fills :=
       Some [solid {| r := zero; g := zero; b := zero; a := None |}
               None None];
     n_strokes := None; n_strokeWeight := None; n_fillGeometry := None;
     n_strokeGeometry := None; n_exportSettings := None;
     n_componentId := None; n_componentSetId := None;
     n_componentProperties := None;
     n_absoluteBoundingBox :=
       Some {| bb_x := zero; bb_y := zero;
               width := Num.Num 1206 1; height := Num.Num 245 1 |};
     n_layoutMode := None; n_primaryAxisAlignItems := None;
     n_counterAxisAlignItems := None; n_itemSpacing := None;
     n_paddingTop := None; n_paddingRight := None; n_paddingBottom := None;
     n_paddingLeft := None; n_cornerRadius := None;
     n_rectangleCornerRadii := None; n_opacity := Some (Num.Num 5 1);
     n_effects := None |}.

(** The frame of the end-to-end scenario: a column with padding 16 on all
    sides and a white fill. *)
Definition scenario_root : Attrs :=
  {| n_id := Some "1:1"; n_name := Some "Card"; n_type := Some "FRAME";
     n_visible := None;
     n_characters := None; n_fontSize := None; n_fontName := None;
     n_textAlignHorizontal := None; n_textAlignVertical := None;
     n_lineHeight := None; n_letterSpacing := None;
     n_paragraphSpacing := None; n_textCase := None;
     n_textDecoration := None; n_style := None;
     n_fills := Some [solid white None None];
     n_strokes := None; n_strokeWeight := None; n_fillGeometry := None;
     n_strokeGeometry := None; n_exportSettings := None;
     n_componentId := None; n_componentSetId := None;
     n_componentProperties := None; n_absoluteBoundingBox := None;
     n_layoutMode := Some "VERTICAL"; n_primaryAxisAlignItems := None;
     n_counterAxisAlignItems := None; n_itemSpacing := None;
     n_paddingTop := Some (Num.of_Z 16); n_paddingRight := Some (Num.of_Z 16);
     n_paddingBottom := Some (Num.of_Z 16);
     n_paddingLeft := Some (Num.of_Z 16); n_cornerRadius := None;
     n_rectangleCornerRadii := None; n_opacity := None; n_effects := None |}.

(** The three-node tree of the end-to-end scenario. *)
Definition scenario_tree : Node :=
  mkNode scenario_root
    (Some [ mkNode sample_text None;
            mkNode (painted (Some "1:8") (Some "RECTANGLE")
                      (Some [image "ref-1"]) None None) None ]).

Definition scenario_response : Response :=
  {| nodes := Some {[ "1:1" := scenario_tree ]};
     images := Some {[ "1:8" := "https://img.example/1-8.png" ]} |}.

(** A world in which the node request resolves and every image request is
    rejected. *)
Definition without_images (clock : string) (response : Response) : World :=
  {| FILE_KEY := "file"; NODE_ID := "1:1";
     makeRequest := fun path =>
       if String.prefix "/v1/images/" path
       then Rejected "socket hang up"
       else Resolved response;
     now := clock |}.

(** Two documents agree on every field but [extractedAt]. *)
Definition same_but_timestamp (d1 d2 : OutputData) : Prop :=
  nodeId d1 = nodeId d2 /\ nodeName d1 = nodeName d2 /\
  nodeType d1 = nodeType d2 /\
  directChildrenCount d1 = directChildrenCount d2 /\
  totalDescendants d1 = totalDescendants d2 /\
  structure d1 = structure d2 /\
  componentAnalysis d1 = componentAnalysis d2.

(** Two runs have the same outcome up to the timestamp of the document. *)
Definition same_outcome (o1 o2 : option OutputData * list Diagnostic) : Prop :=
  snd o1 = snd o2 /\
  match fst o1, fst o2 with
  | Some d1, Some d2 => same_but_timestamp d1 d2
  | None, None => True
  | _, _ => False
  end.

(** ** The summary of the run: [countNodeTypes] *)

Record Counts := {
  ct_text : nat;
  ct_images : nat;
  ct_vectors : nat;
  ct_components : nat;
  ct_instances : nat
}.

(** The counters of one entry, before its children are added. *)
Definition own_counts (e : Entry) : Counts :=
  {| ct_text := if is_string (s_type e) "TEXT" then 1 else 0;
     ct_images :=
       if (match s_imageContent e with Some _ => true | None => false end)
          || truthy_opt (s_imageUrl e)
       then 1 else 0;
     ct_vectors :=
       if is_string (s_type e) "VECTOR"
          || is_string (s_type e) "BOOLEAN_OPERATION"
       then 1 else 0;
     ct_components := if is_string (s_type e) "COMPONENT" then 1 else 0;
     ct_instances := if is_string (s_type e) "INSTANCE" then 1 else 0 |}.

(** [counts.f += childCounts.f], for the five counters. *)
Definition add_counts (counts childCounts : Counts) : Counts :=
  {| ct_text := ct_text counts + ct_text childCounts;
     ct_images := ct_images counts + ct_images childCounts;
     ct_vectors := ct_vectors counts + ct_vectors childCounts;
     ct_components := ct_components counts + ct_components childCounts;
     ct_instances := ct_instances counts + ct_instances childCounts |}.

Fixpoint countNodeTypes (s : Structure) : Counts :=
  match s with
  | mkStructure e children =>
      match children with
      | Some cs =>
          fold_left (fun counts child => add_counts counts (countNodeTypes child))
                    cs (own_counts e)
      | None => own_counts e
      end
  end.

(** ** Further vocabulary *)

(** The number of entries of a list that satisfy a test. *)
Definition count_where {A} (test : A -> bool) (l : list A) : nat :=
  length (List.filter test l).

(** Every subtree of an output tree, in document order. *)
Fixpoint subtrees (s : Structure) : list Structure :=
  match s with
  | mkStructure e children =>
      s :: match children with
           | Some cs => flat_map subtrees cs
           | None => []
           end
  end.

(** The children field and the children count of a subtree fit: both are
    absent, or the children are a non-empty list of the counted length. *)
Definition children_fit (s : Structure) : Prop :=
  match children_of s, s_childrenCount (entry_of s) with
  | None, None => True
  | Some cs, Some count => cs <> [] /\ count = length cs
  | _, _ => False
  end.

(** The node has a fill of type IMAGE. *)
Definition has_image_fill (n : Attrs) : bool :=
  match n_fills n with
  | Some fills => existsb is_image fills
  | None => false
  end.

(** The entry is listed as a component. *)
Definition is_component (e : Entry) : bool := is_string (s_type e) "COMPONENT".

(** The entry is listed as an instance: an INSTANCE with a component id. *)
Definition is_linked_instance (e : Entry) : bool :=
  is_string (s_type e) "INSTANCE" && truthy_opt (s_componentId e).

Definition component_ref (e : Entry) : ComponentRef :=
  {| c_id := s_id e; c_name := s_name e |}.

Definition instance_ref (e : Entry) : InstanceRef :=
  {| i_id := s_id e; i_name := s_name e;
     i_componentId := default "" (s_componentId e) |}.

(** What [addImageUrls] leaves alone: an entry without its image URL. *)
Definition without_imageUrl (e : Entry) : Entry :=
  {| s_id := s_id e; s_name := s_name e; s_type := s_type e;
     s_depth := s_depth e;
     s_textContent := s_textContent e;
     s_imageContent := s_imageContent e;
     s_vectorContent := s_vectorContent e;
     s_visible := s_visible e;
     s_componentId := s_componentId e;
     s_componentSetId := s_componentSetId e;
     s_componentProperties := s_componentProperties e;
     s_text := s_text e; s_textStyle := s_textStyle e;
     s_tailwindClasses := s_tailwindClasses e;
     s_childrenCount := s_childrenCount e;
     s_imageUrl := None |}.

(** The key ["R G B"] from three channel values. *)
Definition key_of (red green blue : Z) : string :=
  pretty red +:+ " " +:+ pretty green +:+ " " +:+ pretty blue.

(** The geometry part of a drop-shadow class, up to the colour key. *)
Definition shadow_geometry (e : Effect) : string :=
  "shadow-[" +:+ Num.toString (x (e_offset e)) +:+ "px_" +:+
  Num.toString (y (e_offset e)) +:+ "px_" +:+
  Num.toString (e_radius e) +:+ "px_rgb(" +:+ rgb_key (e_color e).

(** A node that has only a type and effects. *)
Definition shadowed (effects : option (list Effect)) (opacity : option num)
  : Attrs :=
  {| n_id := Some "1:9"; n_name := Some "Card"; n_type := Some "RECTANGLE";
     n_visible := None;
     n_characters := None; n_fontSize := None; n_fontName := None;
     n_textAlignHorizontal := None; n_textAlignVertical := None;
     n_lineHeight := None; n_letterSpacing := None;
     n_paragraphSpacing := None; n_textCase := None;
     n_textDecoration := None; n_style := None; n_fills := None;
     n_strokes := None; n_strokeWeight := None; n_fillGeometry := None;
     n_strokeGeometry := None; n_exportSettings := None;
     n_componentId := None; n_componentSetId := None;
     n_componentProperties := None; n_absoluteBoundingBox := None;
     n_layoutMode := None; n_primaryAxisAlignItems := None;
     n_counterAxisAlignItems := None; n_itemSpacing := None;
     n_paddingTop := None; n_paddingRight := None; n_paddingBottom := None;
     n_paddingLeft := None; n_cornerRadius := None;
     n_rectangleCornerRadii := None; n_opacity := opacity;
     n_effects := effects |}.

(** A visible drop shadow of offset (0, 4), blur 8, black, with alpha [al]. *)
Definition drop_shadow (al : option num) : Effect :=
  {| e_type := "DROP_SHADOW"; e_visible := Some true;
     e_offset := {| x := Num.of_Z 0; y := Num.of_Z 4 |};
     e_radius := Num.of_Z 8;
     e_color := {| r := zero; g := zero; b := zero; a := al |} |}.

(** A text node that has only a font. *)
Definition entry_attrs_with_font (f : FontName) : Attrs :=
  {| n_id := Some "1:6"; n_name := Some "Label"; n_type := Some "TEXT";
     n_visible := None;
     n_characters := Some "Label"; n_fontSize := None; n_fontName := Some f;
     n_textAlignHorizontal := None; n_textAlignVertical := None;
     n_lineHeight := None; n_letterSpacing := None;
     n_paragraphSpacing := None; n_textCase := None;
     n_textDecoration := None; n_style := None; n_fills := None;
     n_strokes := None; n_strokeWeight := None; n_fillGeometry := None;
     n_strokeGeometry := None; n_exportSettings := None;
     n_componentId := None; n_componentSetId := None;
     n_componentProperties := None; n_absoluteBoundingBox := None;
     n_layoutMode := None; n_primaryAxisAlignItems := None;
     n_counterAxisAlignItems := None; n_itemSpacing := None;
     n_paddingTop := None; n_paddingRight := None; n_paddingBottom := None;
     n_paddingLeft := None; n_cornerRadius := None;
     n_rectangleCornerRadii := None; n_opacity := None; n_effects := None |}.

(** A frame that has only a name and a bounding box. *)
Definition named_frame (name : string) (bb : option Rect) : Attrs :=
  {| n_id := Some "2:1"; n_name := Some name; n_type := Some "FRAME";
     n_visible := None;
     n_characters := None; n_fontSize := None; n_fontName := None;
     n_textAlignHorizontal := None; n_textAlignVertical := None;
     n_lineHeight := None; n_letterSpacing := None;
     n_paragraphSpacing := None; n_textCase := None;
     n_textDecoration := None; n_style := None; n_fills := None;
     n_strokes := None; n_strokeWeight := None; n_fillGeometry := None;
     n_strokeGeometry := None; n_exportSettings := None;
     n_componentId := None; n_componentSetId := None;
     n_componentProperties := None; n_absoluteBoundingBox := bb;
     n_layoutMode := None; n_primaryAxisAlignItems := None;
     n_counterAxisAlignItems := None; n_itemSpacing := None;
     n_paddingTop := None; n_paddingRight := None; n_paddingBottom := None;
     n_paddingLeft := None; n_cornerRadius := None;
     n_rectangleCornerRadii := None; n_opacity := None; n_effects := None |}.

(** A frame that has only a bounding box. *)
Definition boxed (bb : Rect) : Attrs := named_frame "Screen" (Some bb).

(** ** The structure-only script: [get-figma-file-structure.js] *)

Module FileStructure.

(** One entry of the structural outline, its children apart; [pageIndex] is
    set on the root entry of a page only. *)
Record OutlineEntry := {
  o_id : option string;
  o_name : option string;
  o_type : option string;
  o_depth : nat;
  o_pageIndex : option nat
}.

Inductive Outline :=
  mkOutline (entry : OutlineEntry) (children : option (list Outline)).

Definition outline_entry (o : Outline) : OutlineEntry :=
  let 'mkOutline e _ := o in e.
Definition outline_children (o : Outline) : option (list Outline) :=
  let 'mkOutline _ c := o in c.

Fixpoint extractNodeStructure (node : Node) (depth : nat) : Outline :=
  match node with
  | mkNode n children =>
      mkOutline
        {| o_id := n_id n; o_name := n_name n; o_type := n_type n;
           o_depth := depth; o_pageIndex := None |}
        match children with
        | Some (c :: cs) =>
            Some (map (fun child => extractNodeStructure child (S depth))
                      (c :: cs))
        | _ => None
        end
  end.

(** The parsed answer of the file request. *)
Record FileResponse := {
  document : option Node;
  name : option string;
  lastModified : option string;
  version : option string;
  thumbnailUrl : option string
}.

Record FileWorld := {
  FILE_KEY : string;
  makeRequest : string -> Settled FileResponse;
  now : string
}.

Record FileStructureData := {
  fileKey : string;
  fs_name : option string;
  fs_lastModified : option string;
  fs_version : option string;
  fs_thumbnailUrl : option string;
  fs_document : Outline;
  pages : list Outline;
  totalPages : nat;
  extractedAt : string;
  depth : nat
}.

(** [pageStructure.pageIndex = index] *)
Definition set_pageIndex (index : nat) (o : Outline) : Outline :=
  match o with
  | mkOutline e children =>
      mkOutline {| o_id := o_id e; o_name := o_name e; o_type := o_type e;
                   o_depth := o_depth e; o_pageIndex := Some index |}
                children
  end.

(** The document the script writes to its file, if it gets that far: the
    request may be rejected and the answer may lack its document, and either
    ends the run in the [catch] before anything is written. *)
Definition getFileStructure (w : FileWorld) : option FileStructureData :=
  match makeRequest w ("/v1/files/" +:+ FILE_KEY w +:+ "?depth=2") with
  | Rejected _ => None
  | Resolved response =>
      match document response with
      | None => None
      | Some doc =>
          let pageNodes := default [] (node_children doc) in
          Some {| fileKey := FILE_KEY w;
                  fs_name := name response;
                  fs_lastModified := lastModified response;
                  fs_version := version response;
                  fs_thumbnailUrl := thumbnailUrl response;
                  fs_document := extractNodeStructure doc 0;
                  pages :=
                    imap (fun index page =>
                            set_pageIndex index (extractNodeStructure page 0))
                         pageNodes;
                  totalPages := length pageNodes;
                  extractedAt := now w;
                  depth := 2 |}
      end
  end.

(** An outline one level further down: every depth one more. *)
Fixpoint deepen (o : Outline) : Outline :=
  match o with
  | mkOutline e children =>
      mkOutline {| o_id := o_id e; o_name := o_name e; o_type := o_type e;
                   o_depth := S (o_depth e); o_pageIndex := o_pageIndex e |}
                match children with
                | Some cs => Some (map deepen cs)
                | None => None
                end
  end.

(** An outline without the page index at its root. *)
Definition without_pageIndex (o : Outline) : Outline :=
  match o with
  | mkOutline e children =>
      mkOutline {| o_id := o_id e; o_name := o_name e; o_type := o_type e;
                   o_depth := o_depth e; o_pageIndex := None |}
                children
  end.

End FileStructure.

(** What the structure-only script keeps of an entry of the enhanced one. *)
Fixpoint skeleton (s : Structure) : FileStructure.Outline :=
  match s with
  | mkStructure e children =>
      FileStructure.mkOutline
        {| FileStructure.o_id := s_id e; FileStructure.o_name := s_name e;
           FileStructure.o_type := s_type e;
           FileStructure.o_depth := s_depth e;
           FileStructure.o_pageIndex := None |}
        match children with
        | Some cs => Some (map skeleton cs)
        | None => None
        end
  end.

(** A file of two pages, the first with the scenario tree in it. *)
Definition two_pages : Node :=
  mkNode (plain (Some "0:0") (Some "Document") (Some "DOCUMENT"))
    (Some [ mkNode (plain (Some "0:1") (Some "Page 1") (Some "CANVAS"))
              (Some [scenario_tree]);
            mkNode (plain (Some "0:2") (Some "---") (Some "CANVAS")) None ]).

Definition file_world (doc : option Node) : FileStructure.FileWorld :=
  {| FileStructure.FILE_KEY := "file";
     FileStructure.makeRequest := fun _ =>
       Resolved {| FileStructure.document := doc;
                   FileStructure.name := Some "Registration";
                   FileStructure.lastModified := None;
                   FileStructure.version := None;
                   FileStructure.thumbnailUrl := None |};
     FileStructure.now := "2024-01-01T00:00:00.000Z" |}.

(** ** The responsive-layout script: breakpoints *)

Definition categorizeByBreakpoint (width : num) : string :=
  if Num.leb width (Num.of_Z 480) then "mobile"
  else if Num.leb width (Num.of_Z 768) then "tablet"
  else if Num.leb width (Num.of_Z 1200) then "desktop"
  else "large".

(** The [breakpoints] table of the output of [getResponsiveLayouts]: name,
    [min] and [max] ([null] for none). *)
Definition breakpoints : list (string * (Z * option Z)) :=
  [ ("mobile", (0, Some 480)); ("tablet", (481, Some 768));
    ("desktop", (769, Some 1200)); ("large", (1201, None)) ].

(** [min <= k <= max] for a row of the table. *)
Definition in_range (k : Z) (range : Z * option Z) : Prop :=
  fst range <= k /\
  match snd range with Some hi => k <= hi | None => True end.

(** ** The responsive-layout script: [extractResponsiveLayouts] *)

(** [s.includes(k)]: [k] occurs in [s] at some position. *)
Fixpoint includes (s k : string) : bool :=
  String.prefix k s ||
  match s with
  | EmptyString => false
  | String _ s' => includes s' k
  end.

Definition RESPONSIVE_FRAMES : list string :=
  [ "Mobile"; "mobile"; "iPhone"; "Android"; "375"; "320";
    "Tablet"; "tablet"; "iPad"; "768"; "1024";
    "Desktop"; "desktop"; "Web"; "1440"; "1920" ].

Record Constraints := { horizontal : option string; vertical : option string }.

(** A node as this script reads it: the properties of [Attrs] and the
    layout constraints. *)
Inductive FrameNode :=
  mkFrameNode (attrs : Attrs) (constraints : option Constraints)
              (children : option (list FrameNode)).

Record Layout := {
  l_id : option string;
  l_name : option string;
  l_width : num;
  l_height : option num;
  l_horizontal : string;
  l_vertical : string;
  l_layoutMode : option string;
  l_primaryAxisAlignItems : option string;
  l_counterAxisAlignItems : option string;
  l_itemSpacing : option num;
  l_paddingLeft : option num;
  l_paddingRight : option num;
  l_paddingTop : option num;
  l_paddingBottom : option num
}.

(** The object [responsive]: its keys in the order they were created, each
    with its array. *)
Definition Responsive : Type := list (string * list Layout).

(** [responsive[key]] *)
Fixpoint layouts_at (responsive : Responsive) (key : string)
  : option (list Layout) :=
  match responsive with
  | [] => None
  | (k, ls) :: rest => if String.eqb key k then Some ls else layouts_at rest key
  end.

(** [if (!responsive[b]) responsive[b] = []; responsive[b].push(layout)] *)
Fixpoint push_layout (responsive : Responsive) (key : string) (layout : Layout)
  : Responsive :=
  match responsive with
  | [] => [(key, [layout])]
  | (k, ls) :: rest =>
      if String.eqb key k then (k, (ls ++ [layout])%list) :: rest
      else (k, ls) :: push_layout rest key layout
  end.

(** [c?.f || d] for a constraint. *)
Definition constraint_or (c : option Constraints)
    (f : Constraints -> option string) (d : string) : string :=
  or_else (c ≫= f) d.

Definition layout_of (n : Attrs) (c : option Constraints) (w : num) : Layout :=
  {| l_id := n_id n; l_name := n_name n; l_width := w;
     l_height := height <$> n_absoluteBoundingBox n;
     l_horizontal := constraint_or c horizontal "LEFT_RIGHT";
     l_vertical := constraint_or c vertical "TOP_BOTTOM";
     l_layoutMode := n_layoutMode n;
     l_primaryAxisAlignItems := n_primaryAxisAlignItems n;
     l_counterAxisAlignItems := n_counterAxisAlignItems n;
     l_itemSpacing := n_itemSpacing n;
     l_paddingLeft := n_paddingLeft n;
     l_paddingRight := n_paddingRight n;
     l_paddingTop := n_paddingTop n;
     l_paddingBottom := n_paddingBottom n |}.

(** [A-Z] to [a-z], every other character as it is: [toLowerCase] on
    strings whose only cased letters are ASCII. *)
Definition lower_ascii (c : ascii) : ascii :=
  let code := nat_of_ascii c in
  if (65 <=? code)%nat && (code <=? 90)%nat
  then ascii_of_nat (code + 32) else c.

Fixpoint lower (s : string) : string :=
  match s with
  | EmptyString => EmptyString
  | String c s' => String (lower_ascii c) (lower s')
  end.

Section Responsive.

(** [String.prototype.toLowerCase], whose case mapping of the characters
    outside ASCII is left open. *)
Variable toLowerCase : string -> string.

(** The name looks like the name of a responsive frame. *)
Definition looks_responsive (name : string) : bool :=
  existsb (fun keyword => includes name (toLowerCase keyword))
          RESPONSIVE_FRAMES.

(** The truthy width of the bounding box. *)
Definition truthy_width (n : Attrs) : option num :=
  match n_absoluteBoundingBox n with
  | Some bb => if Num.truthy (width bb) then Some (width bb) else None
  | None => None
  end.

(** What one node adds to [responsive]; [None] is the [TypeError] of
    [node.name.toLowerCase()] on a frame without a name. *)
Definition record_frame (n : Attrs) (c : option Constraints)
    (responsive : Responsive) : option Responsive :=
  if is_string (n_type n) "FRAME" then
    match n_name n with
    | None => None
    | Some name =>
        match truthy_width n with
        | Some w =>
            if looks_responsive (toLowerCase name)
            then Some (push_layout responsive (categorizeByBreakpoint w)
                                   (layout_of n c w))
            else Some responsive
        | None => Some responsive
        end
    end
  else Some responsive.

Fixpoint extractResponsiveLayouts (node : FrameNode) (responsive : Responsive)
  : option Responsive :=
  match node with
  | mkFrameNode n c children =>
      match record_frame n c responsive with
      | None => None
      | Some recorded =>
          match children with
          | Some cs =>
              (fix each (l : list FrameNode) (acc : Responsive)
                 : option Responsive :=
                 match l with
                 | [] => Some acc
                 | child :: l' =>
                     match extractResponsiveLayouts child acc with
                     | Some acc' => each l' acc'
                     | None => None
                     end
                 end) cs recorded
          | None => Some recorded
          end
      end
  end.

End Responsive.

Record Recommendation := {
  rec_type : string;
  rec_message : string;
  rec_priority : string
}.

(** The items of a list without repetitions of a number already seen, as
    [[...new Set(values)]] leaves them. *)
Fixpoint unique_numbers (seen values : list num) : list num :=
  match values with
  | [] => []
  | v :: rest =>
      if existsb (Num.eqb v) seen then unique_numbers seen rest
      else v :: unique_numbers (v :: seen) rest
  end.

(** [Object.values(responsiveLayouts).flat()] *)
Definition all_layouts (responsive : Responsive) : list Layout :=
  flat_map snd responsive.

(** The truthy item spacings, in the order of the layouts. *)
Definition spacing_values (responsive : Responsive) : list num :=
  flat_map (fun l => match l_itemSpacing l with
                     | Some v => if Num.truthy v then [v] else []
                     | None => []
                     end)
           (all_layouts responsive).

Definition multiple_breakpoints_warning : Recommendation :=
  {| rec_type := "warning";
     rec_message :=
       "Consider creating layouts for multiple breakpoints (mobile, tablet, desktop)";
     rec_priority := "high" |}.

Definition no_mobile_warning : Recommendation :=
  {| rec_type := "warning";
     rec_message :=
       "No mobile layouts detected. Mobile-first design is recommended.";
     rec_priority := "high" |}.

Definition spacing_suggestion : Recommendation :=
  {| rec_type := "suggestion";
     rec_message :=
       "Consider using a consistent spacing scale (8px, 16px, 24px, 32px)";
     rec_priority := "medium" |}.

Definition found_info (responsive : Responsive) : Recommendation :=
  {| rec_type := "info";
     rec_message :=
       "Found " +:+ pretty (length (all_layouts responsive)) +:+
       " responsive layouts across " +:+ pretty (length responsive) +:+
       " breakpoints";
     rec_priority := "info" |}.

Definition generateResponsiveRecommendations (responsive : Responsive)
  : list Recommendation :=
  (if (length responsive <? 2)%nat then [multiple_breakpoints_warning] else [])
  ++ (match layouts_at responsive "mobile" with
      | Some _ => []
      | None => [no_mobile_warning]
      end)
  ++ (if (6 <? length (unique_numbers [] (spacing_values responsive)))%nat
      then [spacing_suggestion] else [])
  ++ [found_info responsive].

(** The layouts are filed well: no key twice, no key without a layout, and
    every layout under the class of its own truthy width. *)
Definition well_filed (responsive : Responsive) : Prop :=
  NoDup (map fst responsive) /\
  Forall (fun entry =>
            snd entry <> [] /\
            Forall (fun l => categorizeByBreakpoint (l_width l) = fst entry /\
                             Num.truthy (l_width l) = true)
                   (snd entry))
         responsive.

(** The nodes of a tree of this script in document order. *)
Fixpoint frame_preorder (node : FrameNode) : list Attrs :=
  match node with
  | mkFrameNode n _ children =>
      n :: match children with
           | Some cs => flat_map frame_preorder cs
           | None => []
           end
  end.

(** A frame without a name: the node at which the script fails. *)
Definition nameless_frame (n : Attrs) : bool :=
  is_string (n_type n) "FRAME" &&
  match n_name n with None => true | Some _ => false end.

(** A phone screen, a desktop screen inside it, and a frame that is no
    screen. *)
Definition screens : FrameNode :=
  mkFrameNode
    (named_frame "Mobile Home"
       (Some {| bb_x := Num.of_Z 0; bb_y := Num.of_Z 0;
                width := Num.of_Z 375; height := Num.of_Z 812 |}))
    (Some {| horizontal := Some "SCALE"; vertical := None |})
    (Some [ mkFrameNode
              (named_frame "Desktop 1440"
                 (Some {| bb_x := Num.of_Z 0; bb_y := Num.of_Z 0;
                          width := Num.of_Z 1440; height := Num.of_Z 900 |}))
              None None;
            mkFrameNode
              (named_frame "Card"
                 (Some {| bb_x := Num.of_Z 0; bb_y := Num.of_Z 0;
                          width := Num.of_Z 200; height := Num.of_Z 100 |}))
              None None ]).

(** ** The interaction-state script: names and states *)

Definition INTERACTIVE_KEYWORDS : list string :=
  [ "button"; "btn"; "cta"; "link"; "hover"; "active"; "pressed"; "disabled";
    "focus"; "click"; "tap"; "input"; "field"; "form"; "checkbox"; "radio";
    "toggle"; "switch"; "dropdown"; "menu"; "nav"; "navigation" ].

(** [STATE_KEYWORDS], one list per state. *)
Definition hover_keywords : list string := [ "hover"; "over"; "rollover" ].
Definition active_keywords : list string :=
  [ "active"; "pressed"; "down"; "click" ].
Definition focus_keywords : list string := [ "focus"; "focused"; "highlight" ].
Definition disabled_keywords : list string :=
  [ "disabled"; "inactive"; "gray"; "grey" ].

Record States := {
  st_default : bool;
  st_hover : bool;
  st_active : bool;
  st_focus : bool;
  st_disabled : bool
}.

(** [keywords.some(keyword => name.includes(keyword))] *)
Definition some_included (name : string) (keywords : list string) : bool :=
  existsb (includes name) keywords.

Definition identifyStates (name : string) : States :=
  {| st_default := true;
     st_hover := some_included name hover_keywords;
     st_active := some_included name active_keywords;
     st_focus := some_included name focus_keywords;
     st_disabled := some_included name disabled_keywords |}.

Definition determineInteractionType (name : string) : string :=
  if includes name "button" || includes name "btn" || includes name "cta"
  then "button"
  else if includes name "link" then "link"
  else if includes name "input" || includes name "field" then "input"
  else if includes name "checkbox" then "checkbox"
  else if includes name "radio" then "radio"
  else if includes name "toggle" || includes name "switch" then "toggle"
  else if includes name "dropdown" || includes name "select" then "dropdown"
  else "interactive".

(** ** The class list in segments *)

(** The pushes of [extractNodeStructure] that come before the padding class,
    in the order of the source. *)
Definition classes_before_padding (t : Tailwind) : list string :=
  push_if (display t) ++ push_if (flexDirection t) ++
  push_if (primaryAlignment t) ++ push_if (counterAlignment t) ++
  push_if (gap t) ++
  push_if (width_ t) ++ push_if (height_ t).

(** The pushes that come after the border colour class. *)
Definition classes_after_borderColor (t : Tailwind) : list string :=
  push_if (borderRadius t) ++
  push_if (fontSize t) ++ push_if (fontFamily t) ++ push_if (fontWeight t) ++
  push_if (lineHeight t) ++ push_if (letterSpacing t) ++
  push_if (textAlign t) ++ push_if (textColor t) ++
  push_if (opacity t) ++ push_if (shadow t).

(** The pushes that come after the background class. *)
Definition classes_after_background (t : Tailwind) : list string :=
  push_if (borderWidth t) ++ push_if (borderColor t) ++
  classes_after_borderColor t.

(** The pushes that come after the padding class. *)
Definition classes_after_padding (t : Tailwind) : list string :=
  push_if (backgroundColor t) ++ classes_after_background t.

(** The pushes that come before the background class. *)
Definition classes_before_background (t : Tailwind) : list string :=
  classes_before_padding t ++ push_if (padding t).

(** The pushes that come before the border colour class. *)
Definition classes_before_borderColor (t : Tailwind) : list string :=
  classes_before_background t ++
  push_if (backgroundColor t) ++ push_if (borderWidth t).

(** The class of a paint that is read as opaque: the name the table has
    for the key, else the arbitrary value without alpha. *)
Definition opaque_class (table : list (string * string))
    (prefix key : string) : string :=
  match lookup_key table key with
  | Some name => name
  | None => prefix +:+ "-[rgb(" +:+ key +:+ ")]"
  end.

(** The class of a paint whose alpha is embedded. *)
Definition translucent_class (prefix key : string) (alpha : num) : string :=
  prefix +:+ "-[rgb(" +:+ key +:+ "/" +:+ Num.toString alpha +:+ ")]".

(** ** The report, field by field *)

(** The URL the image service gave for the node of an entry: the value
    stored under the entry's id, unless it is missing or empty. *)
Definition resolved_url (urls : gmap string string) (id : option string)
  : option string :=
  match urls !! default "undefined" id with
  | Some url => if String.eqb url "" then None else Some url
  | None => None
  end.

(** The document [d] reports the fetched node [node] in the world [w]: the
    requested id, the name and the type of the node, the clock's timestamp,
    the number of the node's children and of its descendants, one entry per
    node that is, the image URL apart, the entry of the walk, and the
    component analysis of these entries. *)
Definition reports (w : World) (node : Node) (d : OutputData) : Prop :=
  nodeId d = NODE_ID w /\
  nodeName d = n_name (node_attrs node) /\
  nodeType d = n_type (node_attrs node) /\
  extractedAt d = now w /\
  directChildrenCount d = length (default [] (node_children node)) /\
  (totalDescendants d + 1 = count_nodes node)%nat /\
  map without_imageUrl (entries (structure d)) =
    entries (extractNodeStructure node O) /\
  map entry_label (entries (structure d)) =
    map node_label (node_preorder node O) /\
  components (componentAnalysis d) =
    map component_ref (List.filter is_component (entries (structure d))) /\
  instances (componentAnalysis d) =
    map instance_ref
        (List.filter is_linked_instance (entries (structure d))) /\
  componentCount (componentAnalysis d) =
    count_where is_component (entries (structure d)) /\
  instanceCount (componentAnalysis d) =
    count_where is_linked_instance (entries (structure d)).

(** ** The run to its end: the file on disk *)

(** What the script meets on disk: whether the output directory exists and,
    for [fs.mkdirSync], [fs.writeFileSync] and [fs.statSync], the message of
    the error the call throws, if it throws. *)
Record Disk := {
  existsSync : bool;
  mkdirSync : option string;
  writeFileSync : option string;
  statSync : option string
}.

(** [getNodeStructure] to its end.  The directory check, the write and the
    size query run inside the same [try] as the requests, after the document
    is built: an error thrown there ends the run in the same [catch] with
    one more error line.  The result is the document the file holds, if the
    write returned, and every diagnostic of the run. *)
Definition getNodeStructure_saving (w : World) (disk : Disk)
  : option OutputData * list Diagnostic :=
  match getNodeStructure w with
  | (Some outputData, diagnostics) =>
      match (if existsSync disk then None else mkdirSync disk) with
      | Some message => (None, (diagnostics ++ [Error "Error:" message])%list)
      | None =>
          match writeFileSync disk with
          | Some message =>
              (None, (diagnostics ++ [Error "Error:" message])%list)
          | None =>
              match statSync disk with
              | Some message =>
                  (Some outputData,
                   (diagnostics ++ [Error "Error:" message])%list)
              | None => (Some outputData, diagnostics)
              end
          end
      end
  | (None, diagnostics) => (None, diagnostics)
  end.

(** A disk on which every call succeeds, and one that is full. *)
Definition sound_disk : Disk :=
  {| existsSync := false; mkdirSync := None; writeFileSync := None;
     statSync := None |}.

Definition full_disk : Disk :=
  {| existsSync := true; mkdirSync := None;
     writeFileSync := Some "ENOSPC: no space left on device, write";
     statSync := None |}.

(** ** Inherited property names *)

(** The property names every object literal inherits from
    [Object.prototype]: [table[key]] with one of these keys is the inherited
    value, not [undefined].  [lookup_key] reads own properties only, so a
    property of a lookup with a free key holds for keys outside this list. *)
Definition inherited_keys : list string :=
  [ "constructor"; "__proto__"; "hasOwnProperty"; "isPrototypeOf";
    "propertyIsEnumerable"; "toLocaleString"; "toString"; "valueOf";
    "__defineGetter__"; "__defineSetter__"; "__lookupGetter__";
    "__lookupSetter__" ].

(** The font of the node names no inherited property: neither its family
    nor its style is one of [inherited_keys]. *)
Definition own_font_keys (n : Attrs) : bool :=
  match n_fontName n with
  | Some f =>
      negb (existsb (String.eqb (family f)) inherited_keys) &&
      match style f with
      | Some st => negb (existsb (String.eqb st) inherited_keys)
      | None => true
      end
  | None => true
  end.

(** ** Induction on trees *)

Section TreeInduction.

Variable P : Node -> Prop.
Hypothesis leaf : forall n, P (mkNode n None).
Hypothesis inner : forall n cs, Forall P cs -> P (mkNode n (Some cs)).

Fixpoint Node_tree_ind (node : Node) : P node :=
  match node with
  | mkNode n None => leaf n
  | mkNode n (Some cs) =>
      inner n cs
        ((fix all (l : list Node) : Forall P l :=
            match l with
            | [] => List.Forall_nil P
            | c :: l' => @List.Forall_cons _ P c l' (Node_tree_ind c) (all l')
            end) cs)
  end.

End TreeInduction.

Section StructureInduction.

Variable P : Structure -> Prop.
Hypothesis leaf : forall e, P (mkStructure e None).
Hypothesis inner : forall e cs, Forall P cs -> P (mkStructure e (Some cs)).

Fixpoint Structure_tree_ind (s : Structure) : P s :=
  match s with
  | mkStructure e None => leaf e
  | mkStructure e (Some cs) =>
      inner e cs
        ((fix all (l : list Structure) : Forall P l :=
            match l with
            | [] => List.Forall_nil P
            | c :: l' => @List.Forall_cons _ P c l' (Structure_tree_ind c) (all l')
            end) cs)
  end.

End StructureInduction.

(** Induction on the trees of the responsive-layout script. *)
Section FrameInduction.

Variable P : FrameNode -> Prop.
Hypothesis leaf : forall n c, P (mkFrameNode n c None).
Hypothesis inner :
  forall n c cs, Forall P cs -> P (mkFrameNode n c (Some cs)).

Fixpoint FrameNode_tree_ind (node : FrameNode) : P node :=
  match node with
  | mkFrameNode n c None => leaf n c
  | mkFrameNode n c (Some cs) =>
      inner n c cs
        ((fix all (l : list FrameNode) : Forall P l :=
            match l with
            | [] => List.Forall_nil P
            | child :: l' =>
                @List.Forall_cons _ P child l' (FrameNode_tree_ind child)
                                  (all l')
            end) cs)
  end.

End FrameInduction.

(** * Properties *)

(** ** The tree walk keeps every node (C1) *)

Lemma flat_map_map {A B C} (f : B -> list C) (g : A -> B) (l : list A) :
  flat_map f (map g l) = flat_map (fun a => f (g a)) l.
Proof. induction l as [|h t IH]; simpl; [reflexivity | now rewrite IH]. Qed.

Lemma map_flat_map {A B C} (h : B -> C) (f : A -> list B) (l : list A) :
  map h (flat_map f l) = flat_map (fun a => map h (f a)) l.
Proof.
  induction l as [|c t IH]; simpl; [reflexivity|].
  now rewrite map_app, IH.
Qed.

Lemma flat_map_Forall_ext {A B} (f k : A -> list B) (l : list A) :
  Forall (fun c => f c = k c) l -> flat_map f l = flat_map k l.
Proof. induction 1 as [|c t Hc _ IH]; simpl; [reflexivity | now rewrite Hc, IH]. Qed.

Lemma extract_children n cs depth :
  cs <> [] ->
  extractNodeStructure (mkNode n (Some cs)) depth =
  mkStructure (entry_for n depth (Some (length cs)))
    (Some (map (fun child => extractNodeStructure child (S depth)) cs)).
Proof. destruct cs; [congruence | reflexivity]. Qed.

Lemma extract_labels node :
  forall depth,
    map entry_label (entries (extractNodeStructure node depth)) =
    map node_label (node_preorder node depth).
Proof.
  induction node as [n | n cs IH] using Node_tree_ind; intros depth.
  - reflexivity.
  - destruct (list_eq_nil_dec cs) as [-> | Hcs]; [reflexivity|].
    rewrite extract_children by assumption.
    cbn [entries node_preorder map].
    f_equal.
    rewrite flat_map_map, !map_flat_map.
    apply flat_map_Forall_ext.
    eapply Forall_impl; [exact IH|]. intros child Hc. apply Hc.
Qed.

Lemma preorder_length_depth node :
  forall d d', length (node_preorder node d) = length (node_preorder node d').
Proof.
  induction node as [n | n cs IH] using Node_tree_ind; intros d d'.
  - reflexivity.
  - cbn [node_preorder length]. f_equal.
    rewrite !flat_map_concat_map, !length_concat. f_equal.
    rewrite !map_map. apply map_ext_Forall.
    eapply Forall_impl; [exact IH|]. intros child Hc. apply Hc.
Qed.

Lemma diagnostics_of_requests (w : World) :
  Forall request_diagnostic (snd (getNodeStructure w)).
Proof.
  unfold getNodeStructure.
  destruct (makeRequest w _) as [nodeData | message]; cbn.
  - destruct (nodes nodeData ≫= _) as [node|]; cbn.
    + destruct (collectImageNodes node) as [|i ids]; cbn; [constructor|].
      unfold getImages.
      destruct (makeRequest w _); cbn; repeat constructor.
    + repeat constructor.
  - repeat constructor.
Qed.

(** C1, as the code has it.  For every input tree, whether or not its nodes
    carry an [id] and a [type], the walk produces exactly one entry per
    input node: the entries in document order carry the ids, types and
    depths of the nodes in document order (so N nodes give N entries, with
    sibling order and parent-before-child structure kept).  No node is
    skipped, and the only diagnostics a run writes are those of its two
    remote requests. *)
Theorem walk_keeps_every_node (node : Node) (depth : nat) :
  map entry_label (entries (extractNodeStructure node depth)) =
    map node_label (node_preorder node depth) /\
  count_entries (extractNodeStructure node depth) = count_nodes node /\
  forall w : World, Forall request_diagnostic (snd (getNodeStructure w)).
Proof.
  split; [apply extract_labels|]. split; [|apply diagnostics_of_requests].
  unfold count_entries, count_nodes.
  rewrite <- (length_map entry_label), extract_labels, length_map.
  apply preorder_length_depth.
Qed.

(** C1, as stated, fails: in a tree of three nodes of which exactly one is
    malformed the walk produces three entries, not two, and a run on it
    writes no diagnostic. *)
Lemma walk_skips_malformed_counterexample :
  count_malformed malformed_tree = 1%nat /\
  count_nodes malformed_tree = 3%nat /\
  count_entries (extractNodeStructure malformed_tree 0) = 3%nat /\
  count_entries (extractNodeStructure malformed_tree 0) <>
    (count_nodes malformed_tree - 1)%nat /\
  snd (getNodeStructure
         (serving "file" "1:1" "2024-01-01T00:00:00.000Z"
            {| nodes := Some {[ "1:1" := malformed_tree ]};
               images := None |})) = [].
Proof.
  repeat split; vm_compute; congruence.
Qed.

(** ** Numbers: the facts the properties rest on *)

Lemma pow10_pos s : 0 < Num.pow10 s.
Proof. unfold Num.pow10. apply Z.pow_pos_nonneg; lia. Qed.

Lemma is_int_spec v k :
  Num.is_int v k = true <-> Num.mant v = k * Num.pow10 (Num.scale v).
Proof.
  unfold Num.is_int, Num.eqb, Num.of_Z. cbn [Num.mant Num.scale].
  change (Num.pow10 0) with 1. rewrite Z.mul_1_r. apply Z.eqb_eq.
Qed.

Lemma is_int_unique v k k' :
  Num.is_int v k = true -> Num.is_int v k' = true -> k = k'.
Proof.
  rewrite !is_int_spec. intros H H'. rewrite H in H'.
  apply Z.mul_cancel_r in H'; [assumption|].
  pose proof (pow10_pos (Num.scale v)). lia.
Qed.

Lemma is_int_of_Z k : Num.is_int (Num.of_Z k) k = true.
Proof. apply is_int_spec. cbn. change (Num.pow10 0) with 1. lia. Qed.

(** ** Table lookups *)

Lemma lookup_num_hit table v k t :
  NoDup (map fst table) -> In (k, t) table -> Num.is_int v k = true ->
  lookup_num table v = Some t.
Proof.
  induction table as [|[k' t'] rest IH]; intros Hnd Hin Hv; [destruct Hin|].
  cbn [lookup_num]. cbn [map fst] in Hnd.
  apply NoDup_cons in Hnd as [Hnot Hrest].
  destruct Hin as [Heq | Hin].
  - injection Heq as -> ->. now rewrite Hv.
  - destruct (Num.is_int v k') eqn:Hk'.
    + exfalso. apply Hnot. rewrite (is_int_unique v k' k Hk' Hv).
      apply list_elem_of_In. apply (in_map fst _ _ Hin).
    + now apply IH.
Qed.

Lemma lookup_num_miss table v :
  (forall k, In k (map fst table) -> Num.is_int v k = false) ->
  lookup_num table v = None.
Proof.
  induction table as [|[k t] rest IH]; intros Hmiss; [reflexivity|].
  cbn [lookup_num]. rewrite (Hmiss k) by (left; reflexivity).
  apply IH. intros k' Hk'. apply Hmiss. now right.
Qed.

Lemma or_else_truthy t d : truthy_string t = true -> or_else (Some t) d = t.
Proof. intros H. unfold or_else, if_truthy. now rewrite H. Qed.

Lemma table_values_truthy (table : list (Z * string)) k t :
  forallb truthy_string (map snd table) = true ->
  In (k, t) table -> truthy_string t = true.
Proof.
  rewrite forallb_forall. intros H Hin. apply H.
  apply (in_map snd _ _ Hin).
Qed.

(** ** The scale snapper (C2) *)

Lemma NoDup_gap_keys : NoDup (map fst gapMap).
Proof. apply (bool_decide_unpack _). vm_compute. reflexivity. Qed.

Lemma NoDup_padding_keys : NoDup (map fst spacingMap).
Proof. apply (bool_decide_unpack _). vm_compute. reflexivity. Qed.

Lemma padding_class_hit side v k t :
  In (k, t) spacingMap -> Num.is_int v k = true ->
  padding_class side (Some v) = side +:+ "-" +:+ t.
Proof.
  intros Hin Hv. unfold padding_class, lookup_opt.
  rewrite (lookup_num_hit _ _ _ _ NoDup_padding_keys Hin Hv).
  unfold if_truthy.
  now rewrite (table_values_truthy spacingMap k t eq_refl Hin).
Qed.

Lemma padding_class_miss side v :
  (forall k, In k padding_keys -> Num.is_int v k = false) ->
  padding_class side (Some v) = side +:+ "-[" +:+ Num.toString v +:+ "px]".
Proof.
  intros Hmiss. unfold padding_class, lookup_opt.
  now rewrite (lookup_num_miss spacingMap v Hmiss).
Qed.

(** C2, as the code has it.  Each mapping snaps on its own table: the gap
    table has the keys 0,1,2,4,6,8,10,12,16,20,24,32 and the padding table
    the keys 0,1,2,4,6,8,10,12,14,16,20,24,28,32,36,40,44,48,56,64.  A
    value that is a key of the mapping's own table gives that key's named
    token; any other value gives the arbitrary-value token that embeds the
    raw number with the px suffix. *)
Theorem snap_on_own_table (n : Attrs) (v : num) :
  n_itemSpacing n = Some v ->
  map fst gapMap = gap_keys /\
  map fst spacingMap = padding_keys /\
  (forall k t, In (k, t) gapMap -> Num.is_int v k = true ->
     tw_gap n = Some t) /\
  ((forall k, In k gap_keys -> Num.is_int v k = false) ->
     tw_gap n = Some ("gap-[" +:+ Num.toString v +:+ "px]")) /\
  (forall side k t, In (k, t) spacingMap -> Num.is_int v k = true ->
     padding_class side (Some v) = side +:+ "-" +:+ t) /\
  (forall side, (forall k, In k padding_keys -> Num.is_int v k = false) ->
     padding_class side (Some v) =
     side +:+ "-[" +:+ Num.toString v +:+ "px]").
Proof.
  intros Hn. unfold tw_gap. rewrite Hn.
  split; [reflexivity|]. split; [reflexivity|].
  split; [|split; [|split]].
  - intros k t Hin Hv.
    rewrite (lookup_num_hit _ _ _ _ NoDup_gap_keys Hin Hv).
    now rewrite (or_else_truthy _ _ (table_values_truthy gapMap k t eq_refl Hin)).
  - intros Hmiss. now rewrite (lookup_num_miss gapMap v Hmiss).
  - intros side k t. apply padding_class_hit.
  - intros side. apply padding_class_miss.
Qed.

(** The rule at the values 0, 8 and 7 for the gap and 8 for the padding. *)
Lemma snap_on_own_table_witness :
  tw_gap (gap_node 8) = Some "gap-2" /\
  tw_gap (gap_node 0) = Some "gap-0" /\
  tw_gap (gap_node 7) = Some "gap-[7px]" /\
  padding_class "p" (Some (Num.of_Z 8)) = "p-2".
Proof.
  destruct (snap_on_own_table (gap_node 8) (Num.of_Z 8) eq_refl)
    as (_ & _ & Hgap8 & _ & Hpad8 & _).
  destruct (snap_on_own_table (gap_node 0) (Num.of_Z 0) eq_refl)
    as (_ & _ & Hgap0 & _).
  destruct (snap_on_own_table (gap_node 7) (Num.of_Z 7) eq_refl)
    as (_ & _ & _ & Hgap7 & _).
  split; [|split; [|split]].
  - apply (Hgap8 8); [vm_compute; tauto | reflexivity].
  - apply (Hgap0 0); [vm_compute; tauto | reflexivity].
  - apply Hgap7. intros k Hk. vm_compute in Hk.
    repeat (destruct Hk as [<- | Hk]; [reflexivity|]). destruct Hk.
  - apply (Hpad8 "p" 8 "2"); [vm_compute; tauto | reflexivity].
Defined.

(** C2, as stated, fails: 28 is a key of the specification's spacing table
    but not of the gap table, so a gap of 28 gives an arbitrary-value token;
    and 14 is no key of the specification's table but is one of the padding
    table, so a padding of 14 gives a named token. *)
Lemma snap_uniform_table_counterexample :
  In 28 claimed_spacing_keys /\
  tw_gap (layout_node (Some "FRAME") (Some "HORIZONTAL") None None
            (Some (Num.of_Z 28)) None None None None) = Some "gap-[28px]" /\
  ~ In 14 claimed_spacing_keys /\
  padding_class "p" (Some (Num.of_Z 14)) = "p-3.5".
Proof.
  split; [vm_compute; tauto|]. split; [reflexivity|].
  split; [|reflexivity].
  vm_compute. intros H. repeat (destruct H as [H | H]; [discriminate H|]).
  exact H.
Qed.

(** ** The palette matcher (C3, C10) *)

Lemma unit_interval_spec v :
  unit_interval v <-> 0 <= Num.mant v <= Num.pow10 (Num.scale v).
Proof.
  unfold unit_interval, Num.leb, zero, one, Num.of_Z.
  cbn [Num.mant Num.scale]. change (Num.pow10 0) with 1.
  rewrite !Z.leb_le. lia.
Qed.

Lemma strictly_between_spec v :
  strictly_between v <-> 0 < Num.mant v < Num.pow10 (Num.scale v).
Proof.
  unfold strictly_between, Num.ltb, zero, one, Num.of_Z.
  cbn [Num.mant Num.scale]. change (Num.pow10 0) with 1.
  rewrite !Z.ltb_lt. lia.
Qed.

Lemma channel_range v : unit_interval v -> 0 <= channel v <= 255.
Proof.
  rewrite unit_interval_spec. intros [Hlo Hhi].
  unfold channel, Num.Math_round, Num.mulZ. cbn [Num.mant Num.scale].
  pose proof (pow10_pos (Num.scale v)) as HP.
  split.
  - apply Z.div_pos; lia.
  - apply Z.lt_succ_r. apply Z.div_lt_upper_bound; lia.
Qed.

Lemma channel_half_away v :
  unit_interval v ->
  channel v = Num.round_half_away_from_zero (Num.mulZ v 255).
Proof.
  rewrite unit_interval_spec. intros [Hlo Hhi].
  unfold channel, Num.Math_round, Num.round_half_away_from_zero, Num.mulZ.
  cbn [Num.mant Num.scale].
  pose proof (pow10_pos (Num.scale v)) as HP.
  destruct (Z.eq_dec (Num.mant v) 0) as [-> | Hnz].
  - cbn. rewrite Z.div_small; lia.
  - rewrite Z.sgn_pos by lia. rewrite Z.abs_eq by lia. lia.
Qed.

Lemma lookup_key_truthy table key :
  forallb truthy_string (map snd table) = true ->
  if_truthy (lookup_key table key) = lookup_key table key.
Proof.
  induction table as [|[k t] rest IH]; cbn; [reflexivity|].
  intros [Ht Hrest]%andb_prop.
  destruct (String.eqb key k); [cbn; now rewrite Ht | now apply IH].
Qed.

Lemma or_one_absent : or_one None = one.
Proof. reflexivity. Qed.

Lemma or_one_zero v : Num.eqb v zero = true -> or_one (Some v) = one.
Proof.
  unfold Num.eqb, zero, Num.of_Z, or_one, Num.truthy.
  cbn [Num.mant Num.scale]. change (Num.pow10 0) with 1.
  rewrite Z.eqb_eq. intros H.
  replace (Num.mant v) with 0 by lia. reflexivity.
Qed.

Lemma or_one_nonzero v : Num.eqb v zero = false -> or_one (Some v) = v.
Proof.
  unfold Num.eqb, zero, Num.of_Z, or_one, Num.truthy.
  cbn [Num.mant Num.scale]. change (Num.pow10 0) with 1.
  rewrite Z.eqb_neq. intros H.
  destruct (Z.eqb_spec (Num.mant v) 0); [lia | reflexivity].
Qed.

Lemma color_class_opaque table prefix rgb alpha :
  forallb truthy_string (map snd table) = true ->
  Num.eqb alpha one = true ->
  color_class table prefix rgb alpha =
  match lookup_key table rgb with
  | Some name => name
  | None => prefix +:+ "-[rgb(" +:+ rgb +:+ ")]"
  end.
Proof.
  intros Htable Hone. unfold color_class. rewrite Hone.
  rewrite (lookup_key_truthy _ _ Htable).
  destruct (lookup_key table rgb); [reflexivity|].
  unfold Num.eqb in Hone. unfold Num.ltb.
  apply Z.eqb_eq in Hone. rewrite Hone, Z.ltb_irrefl. reflexivity.
Qed.

Lemma color_class_translucent table prefix rgb alpha :
  Num.ltb alpha one = true ->
  color_class table prefix rgb alpha =
  prefix +:+ "-[rgb(" +:+ rgb +:+ "/" +:+ Num.toString alpha +:+ ")]".
Proof.
  intros Hlt. unfold color_class. rewrite Hlt.
  unfold Num.ltb in Hlt. unfold Num.eqb.
  apply Z.ltb_lt in Hlt.
  destruct (Z.eqb_spec (Num.mant alpha * Num.pow10 (Num.scale one))
                       (Num.mant one * Num.pow10 (Num.scale alpha)));
    [lia | reflexivity].
Qed.

Lemma paint_class_first table prefix paints p c :
  find visible_solid paints = Some p -> p_color p = Some c ->
  paint_class table prefix (Some paints) =
  Some (color_class table prefix (rgb_key c) (or_one (p_opacity p))).
Proof.
  intros Hfind Hcolor. unfold paint_class.
  destruct paints as [|q qs]; [discriminate Hfind|].
  cbn [has_items].
  change (default [] (Some (q :: qs))) with (q :: qs).
  now rewrite Hfind, Hcolor.
Qed.

Lemma converted_unit v : unit_interval v -> converted v.
Proof. intros H. split; [now apply channel_range | now apply channel_half_away]. Qed.

Lemma eqb_one_not_zero v : Num.eqb v one = true -> Num.eqb v zero = false.
Proof.
  unfold Num.eqb, one, zero, Num.of_Z. cbn [Num.mant Num.scale].
  change (Num.pow10 0) with 1. rewrite Z.eqb_eq, Z.eqb_neq.
  pose proof (pow10_pos (Num.scale v)). lia.
Qed.

Lemma ltb_zero_not_zero v : Num.ltb zero v = true -> Num.eqb v zero = false.
Proof.
  unfold Num.ltb, Num.eqb, one, zero, Num.of_Z. cbn [Num.mant Num.scale].
  change (Num.pow10 0) with 1. rewrite Z.ltb_lt, Z.eqb_neq. lia.
Qed.

(** The background rule on every opacity but 0.  For the first visible
    solid fill of a node, with r, g, b in [0,1]: each component is converted
    to an integer of 0..255 by rounding half away from zero and the key is
    ["R G B"].  When the paint has no opacity or an opacity equal to 1, the
    result is the table's name if the key is in the named-colour table and
    otherwise the arbitrary-value token with exactly that key (membership
    only, no nearest entry).  When the opacity lies strictly between 0 and
    1, the result is the arbitrary-value token with the key and the
    opacity. *)
Theorem background_of_solid_fill
    (n : Attrs) (fills : list Paint) (p : Paint) (c : Color) :
  n_fills n = Some fills ->
  find visible_solid fills = Some p ->
  p_color p = Some c ->
  unit_interval (r c) -> unit_interval (g c) -> unit_interval (b c) ->
  converted (r c) /\ converted (g c) /\ converted (b c) /\
  ((p_opacity p = None \/
    exists alpha, p_opacity p = Some alpha /\ Num.eqb alpha one = true) ->
   tw_backgroundColor n =
   Some (match lookup_key commonColors (color_key c) with
         | Some name => name
         | None => "bg-[rgb(" +:+ color_key c +:+ ")]"
         end)) /\
  (forall alpha, p_opacity p = Some alpha -> strictly_between alpha ->
   tw_backgroundColor n =
   Some ("bg-[rgb(" +:+ color_key c +:+ "/" +:+ Num.toString alpha +:+ ")]")).
Proof.
  intros Hfills Hfind Hcolor Hr Hg Hb.
  repeat (split; [now apply converted_unit|]).
  unfold tw_backgroundColor. rewrite Hfills.
  rewrite (paint_class_first _ _ _ _ _ Hfind Hcolor).
  change (rgb_key c) with (color_key c).
  split.
  - intros [Hnone | (alpha & Hsome & Hone)].
    + rewrite Hnone, or_one_absent.
      now rewrite color_class_opaque.
    + rewrite Hsome, (or_one_nonzero _ (eqb_one_not_zero _ Hone)).
      now rewrite color_class_opaque.
  - intros alpha Hsome [Hpos Hlt].
    rewrite Hsome, (or_one_nonzero _ (ltb_zero_not_zero _ Hpos)).
    now rewrite color_class_translucent.
Qed.

(** White without opacity is [bg-white]; a near-white is not snapped to it;
    white at opacity 0.5 embeds the opacity. *)
Lemma background_of_solid_fill_witness :
  tw_backgroundColor
    (painted (Some "1:2") (Some "RECTANGLE")
       (Some [solid white None None]) None None) = Some "bg-white" /\
  tw_backgroundColor
    (painted (Some "1:2") (Some "RECTANGLE")
       (Some [solid off_white (Some one) None]) None None) =
    Some "bg-[rgb(255 255 254)]" /\
  tw_backgroundColor
    (painted (Some "1:2") (Some "RECTANGLE")
       (Some [solid white (Some (Num.Num 5 1)) None]) None None) =
    Some "bg-[rgb(255 255 255/0.5)]".
Proof.
  split; [|split].
  - apply (background_of_solid_fill
             (painted (Some "1:2") (Some "RECTANGLE")
                (Some [solid white None None]) None None)
             [solid white None None] (solid white None None) white
             eq_refl eq_refl eq_refl);
      try (split; reflexivity).
    left. reflexivity.
  - apply (background_of_solid_fill
             (painted (Some "1:2") (Some "RECTANGLE")
                (Some [solid off_white (Some one) None]) None None)
             [solid off_white (Some one) None]
             (solid off_white (Some one) None) off_white
             eq_refl eq_refl eq_refl);
      try (split; reflexivity).
    right. exists one. split; reflexivity.
  - apply (background_of_solid_fill
             (painted (Some "1:2") (Some "RECTANGLE")
                (Some [solid white (Some (Num.Num 5 1)) None]) None None)
             [solid white (Some (Num.Num 5 1)) None]
             (solid white (Some (Num.Num 5 1)) None) white
             eq_refl eq_refl eq_refl) with (alpha := Num.Num 5 1);
      split; reflexivity.
Defined.

(** C3 at the input where the code leaves it.  A white fill of opacity 0
    has an alpha in [0,1] below 1, for which C3 asks for the arbitrary-value
    token with the key and the alpha, [bg-[rgb(255 255 255/0)]].  The code
    reads the alpha as [opacity || 1], so the 0 counts as a missing opacity:
    the background class is the bare name [bg-white] and the class string
    of the node's entry is ["bg-white"].  The opacity of the node itself is
    tested with [!== undefined] in the same function and keeps its 0. *)
Theorem zero_opacity_fill_is_named :
  unit_interval zero /\ Num.ltb zero one = true /\
  or_one (Some zero) = one /\
  tw_backgroundColor
    (painted (Some "1:2") (Some "RECTANGLE")
       (Some [solid white (Some zero) None]) None None) = Some "bg-white" /\
  tailwindClasses
    (painted (Some "1:2") (Some "RECTANGLE")
       (Some [solid white (Some zero) None]) None None) = ["bg-white"] /\
  s_tailwindClasses
    (entry_for
       (painted (Some "1:2") (Some "RECTANGLE")
          (Some [solid white (Some zero) None]) None None) 0 None) =
    "bg-white" /\
  translucent_class "bg" (color_key white) zero = "bg-[rgb(255 255 255/0)]" /\
  ~ In (translucent_class "bg" (color_key white) zero)
       (tailwindClasses
          (painted (Some "1:2") (Some "RECTANGLE")
             (Some [solid white (Some zero) None]) None None)) /\
  tw_opacity (shadowed None (Some zero)) = Some "opacity-[0%]".
Proof.
  split; [split; reflexivity|].
  do 6 (split; [vm_compute; reflexivity|]).
  split; [|vm_compute; reflexivity].
  vm_compute. intros [H | []]. discriminate H.
Qed.

Lemma lookup_key_In table key name :
  lookup_key table key = Some name -> In name (map snd table).
Proof.
  induction table as [|[k t] rest IH]; cbn; [discriminate|].
  destruct (String.eqb key k); [intros [= ->]; now left | right; auto].
Qed.

Lemma opaque_token_not_translucent prefix key alpha :
  prefix +:+ "-[rgb(" +:+ key +:+ ")]" <>
  prefix +:+ "-[rgb(" +:+ key +:+ "/" +:+ alpha +:+ ")]".
Proof.
  intros H. do 3 apply String.app_inj in H. discriminate H.
Qed.

Lemma fill_name_not_arbitrary key name rest :
  lookup_key commonColors key = Some name -> name <> "bg-[rgb(" +:+ rest.
Proof.
  intros Hin%lookup_key_In. cbn in Hin.
  repeat (destruct Hin as [<- | Hin]; [discriminate|]). destruct Hin.
Qed.

Lemma stroke_name_not_arbitrary key name rest :
  lookup_key commonBorderColors key = Some name ->
  name <> "border-[rgb(" +:+ rest.
Proof.
  intros Hin%lookup_key_In. cbn in Hin.
  repeat (destruct Hin as [<- | Hin]; [discriminate|]). destruct Hin.
Qed.

Lemma opaque_class_truthy table prefix key :
  forallb truthy_string (map snd table) = true ->
  truthy_string prefix = true ->
  truthy_string (opaque_class table prefix key) = true.
Proof.
  intros Htable Hprefix. unfold opaque_class.
  destruct (lookup_key table key) as [name|] eqn:Hkey.
  - apply lookup_key_In in Hkey.
    rewrite forallb_forall in Htable. now apply Htable.
  - destruct prefix as [|ch rest]; [discriminate Hprefix | reflexivity].
Qed.

Lemma push_if_some s : truthy_string s = true -> push_if (Some s) = [s].
Proof. intros H. unfold push_if, if_truthy. now rewrite H. Qed.

Lemma style_classes_around_padding t :
  style_classes t =
  (classes_before_padding t ++ push_if (padding t) ++
   classes_after_padding t)%list.
Proof.
  unfold style_classes, classes_before_padding, classes_after_padding,
    classes_after_background, classes_after_borderColor.
  now rewrite <- !List.app_assoc.
Qed.

Lemma style_classes_around_background t :
  style_classes t =
  (classes_before_background t ++ push_if (backgroundColor t) ++
   classes_after_background t)%list.
Proof.
  rewrite style_classes_around_padding.
  unfold classes_before_background, classes_after_padding.
  now rewrite <- !List.app_assoc.
Qed.

Lemma style_classes_around_borderColor t :
  style_classes t =
  (classes_before_borderColor t ++ push_if (borderColor t) ++
   classes_after_borderColor t)%list.
Proof.
  rewrite style_classes_around_background.
  unfold classes_before_borderColor, classes_after_background.
  now rewrite <- !List.app_assoc.
Qed.

Lemma tailwindClasses_around n before cls after :
  style_classes (tailwind_of n) = (before ++ cls :: after)%list ->
  tailwindClasses n = (before ++ cls :: after)%list.
Proof. unfold tailwindClasses. intros ->. now destruct before. Qed.

Lemma class_string_of_entry n depth childrenCount :
  s_tailwindClasses (entry_for n depth childrenCount) =
  String.concat " " (tailwindClasses n).
Proof. reflexivity. Qed.

Lemma paint_read_as_opaque table prefix paints p c alpha :
  forallb truthy_string (map snd table) = true ->
  find visible_solid paints = Some p ->
  p_color p = Some c ->
  p_opacity p = Some alpha ->
  Num.eqb alpha zero = true ->
  paint_class table prefix (Some paints) =
  Some (opaque_class table prefix (color_key c)).
Proof.
  intros Htable Hfind Hcolor Hopacity Hzero.
  rewrite (paint_class_first _ _ _ _ _ Hfind Hcolor).
  rewrite Hopacity, (or_one_zero _ Hzero).
  now rewrite color_class_opaque.
Qed.

(** C10.  When the first visible solid fill (or stroke) of a node has an
    opacity of exactly 0, the extractor reads the alpha as 1.  The
    background (border colour) class is the bare named token when the
    rounded RGB key is in the named-colour table and otherwise the
    arbitrary-value token without alpha; it is never the arbitrary-value
    token that embeds the alpha.  This class is emitted: it stands in the
    class list of the node at the place of the background (border colour)
    class, between the classes pushed before and after it, and the entry of
    the node is annotated with the list joined by spaces. *)
Theorem transparent_paint_read_as_opaque
    (n : Attrs) (depth : nat) (childrenCount : option nat)
    (paints : list Paint) (p : Paint) (c : Color) (alpha : num) :
  find visible_solid paints = Some p ->
  p_color p = Some c ->
  p_opacity p = Some alpha ->
  Num.eqb alpha zero = true ->
  (n_fills n = Some paints ->
   tw_backgroundColor n =
     Some (match lookup_key commonColors (color_key c) with
           | Some name => name
           | None => "bg-[rgb(" +:+ color_key c +:+ ")]"
           end) /\
   tw_backgroundColor n <>
     Some ("bg-[rgb(" +:+ color_key c +:+ "/" +:+
           Num.toString alpha +:+ ")]") /\
   tailwindClasses n =
     (classes_before_background (tailwind_of n) ++
      opaque_class commonColors "bg" (color_key c) ::
      classes_after_background (tailwind_of n))%list /\
   s_tailwindClasses (entry_for n depth childrenCount) =
     String.concat " "
       (classes_before_background (tailwind_of n) ++
        opaque_class commonColors "bg" (color_key c) ::
        classes_after_background (tailwind_of n))%list) /\
  (n_strokes n = Some paints ->
   tw_borderColor n =
     Some (match lookup_key commonBorderColors (color_key c) with
           | Some name => name
           | None => "border-[rgb(" +:+ color_key c +:+ ")]"
           end) /\
   tw_borderColor n <>
     Some ("border-[rgb(" +:+ color_key c +:+ "/" +:+
           Num.toString alpha +:+ ")]") /\
   tailwindClasses n =
     (classes_before_borderColor (tailwind_of n) ++
      opaque_class commonBorderColors "border" (color_key c) ::
      classes_after_borderColor (tailwind_of n))%list /\
   s_tailwindClasses (entry_for n depth childrenCount) =
     String.concat " "
       (classes_before_borderColor (tailwind_of n) ++
        opaque_class commonBorderColors "border" (color_key c) ::
        classes_after_borderColor (tailwind_of n))%list).
Proof.
  intros Hfind Hcolor Hopacity Hzero.
  split; intros Hpaints.
  - assert (Hclass : tw_backgroundColor n =
                     Some (opaque_class commonColors "bg" (color_key c))).
    { unfold tw_backgroundColor. rewrite Hpaints.
      now apply (paint_read_as_opaque _ _ _ p c alpha). }
    assert (Hlist : tailwindClasses n =
              (classes_before_background (tailwind_of n) ++
               opaque_class commonColors "bg" (color_key c) ::
               classes_after_background (tailwind_of n))%list).
    { apply tailwindClasses_around.
      rewrite style_classes_around_background.
      change (backgroundColor (tailwind_of n)) with (tw_backgroundColor n).
      rewrite Hclass, push_if_some; [reflexivity|].
      now apply opaque_class_truthy. }
    split; [exact Hclass|]. split.
    + rewrite Hclass. unfold opaque_class.
      destruct (lookup_key commonColors (color_key c)) as [name|] eqn:Hkey;
        intros H; apply (inj Some) in H; revert H.
      * exact (fill_name_not_arbitrary _ _ _ Hkey).
      * exact (opaque_token_not_translucent "bg" _ _).
    + split; [exact Hlist|].
      now rewrite class_string_of_entry, Hlist.
  - assert (Hclass : tw_borderColor n =
                     Some (opaque_class commonBorderColors "border"
                             (color_key c))).
    { unfold tw_borderColor. rewrite Hpaints.
      now apply (paint_read_as_opaque _ _ _ p c alpha). }
    assert (Hlist : tailwindClasses n =
              (classes_before_borderColor (tailwind_of n) ++
               opaque_class commonBorderColors "border" (color_key c) ::
               classes_after_borderColor (tailwind_of n))%list).
    { apply tailwindClasses_around.
      rewrite style_classes_around_borderColor.
      change (borderColor (tailwind_of n)) with (tw_borderColor n).
      rewrite Hclass, push_if_some; [reflexivity|].
      now apply opaque_class_truthy. }
    split; [exact Hclass|]. split.
    + rewrite Hclass. unfold opaque_class.
      destruct (lookup_key commonBorderColors (color_key c))
        as [name|] eqn:Hkey;
        intros H; apply (inj Some) in H; revert H.
      * exact (stroke_name_not_arbitrary _ _ _ Hkey).
      * exact (opaque_token_not_translucent "border" _ _).
    + split; [exact Hlist|].
      now rewrite class_string_of_entry, Hlist.
Qed.

(** A white fill and a near-white stroke, both of opacity 0: the class
    strings of the two entries. *)
Lemma transparent_paint_read_as_opaque_witness :
  (tw_backgroundColor
     (painted (Some "1:2") (Some "RECTANGLE")
        (Some [solid white (Some zero) None]) None None) = Some "bg-white" /\
   s_tailwindClasses
     (entry_for
        (painted (Some "1:2") (Some "RECTANGLE")
           (Some [solid white (Some zero) None]) None None) 0 None) =
     "bg-white") /\
  (tw_borderColor
     (painted (Some "1:2") (Some "RECTANGLE") None
        (Some [solid off_white (Some zero) None]) (Some one)) =
     Some "border-[rgb(255 255 254)]" /\
   s_tailwindClasses
     (entry_for
        (painted (Some "1:2") (Some "RECTANGLE") None
           (Some [solid off_white (Some zero) None]) (Some one)) 0 None) =
     "border border-[rgb(255 255 254)]").
Proof.
  split.
  - destruct (transparent_paint_read_as_opaque
                (painted (Some "1:2") (Some "RECTANGLE")
                   (Some [solid white (Some zero) None]) None None)
                0 None
                [solid white (Some zero) None] (solid white (Some zero) None)
                white zero eq_refl eq_refl eq_refl eq_refl) as [Hfill _].
    destruct (Hfill eq_refl) as (Hclass & _ & _ & Hstring).
    split; [exact Hclass|].
    rewrite Hstring. vm_compute. reflexivity.
  - destruct (transparent_paint_read_as_opaque
                (painted (Some "1:2") (Some "RECTANGLE") None
                   (Some [solid off_white (Some zero) None]) (Some one))
                0 None
                [solid off_white (Some zero) None]
                (solid off_white (Some zero) None)
                off_white zero eq_refl eq_refl eq_refl eq_refl)
      as [_ Hstroke].
    destruct (Hstroke eq_refl) as (Hclass & _ & _ & Hstring).
    split; [exact Hclass|].
    rewrite Hstring. vm_compute. reflexivity.
Defined.

(** ** Class strings as sequences of tokens *)

Lemma append_cons c (s t : string) : String c s +:+ t = String c (s +:+ t).
Proof. reflexivity. Qed.

Lemma append_nil (t : string) : "" +:+ t = t.
Proof. reflexivity. Qed.

Lemma no_space_app s t :
  no_space (s +:+ t) = no_space s && no_space t.
Proof.
  induction s as [|c s IH]; [reflexivity|].
  rewrite append_cons. cbn [no_space]. now rewrite IH, andb_assoc.
Qed.

Lemma append_assoc (s t u : string) : (s +:+ t) +:+ u = s +:+ (t +:+ u).
Proof.
  induction s as [|c s IH]; [reflexivity|].
  rewrite !append_cons. now rewrite IH.
Qed.

Lemma append_empty_r (s : string) : s +:+ "" = s.
Proof.
  induction s as [|c s IH]; [reflexivity|].
  rewrite append_cons. now rewrite IH.
Qed.

Lemma split_spaces_token s rest current :
  no_space s = true ->
  split_spaces (s +:+ " " +:+ rest) current =
  (current +:+ s) :: split_spaces rest "".
Proof.
  revert current. induction s as [|c s IH]; intros current Hs.
  - rewrite append_nil, append_cons, append_nil. cbn [split_spaces].
    change (Ascii.eqb " " " ") with true. cbv iota.
    now rewrite append_empty_r.
  - cbn [no_space] in Hs. apply andb_prop in Hs as [Hc Hs].
    rewrite append_cons. cbn [split_spaces].
    destruct (Ascii.eqb c " "%char); [discriminate Hc|].
    rewrite IH by assumption. rewrite append_assoc.
    now rewrite append_cons, append_nil.
Qed.

Lemma split_spaces_last s current :
  no_space s = true -> split_spaces s current = [current +:+ s].
Proof.
  revert current. induction s as [|c s IH]; intros current Hs.
  - cbn [split_spaces]. now rewrite append_empty_r.
  - cbn [no_space] in Hs. apply andb_prop in Hs as [Hc Hs].
    cbn [split_spaces].
    destruct (Ascii.eqb c " "%char); [discriminate Hc|].
    rewrite IH by assumption. rewrite append_assoc.
    now rewrite append_cons, append_nil.
Qed.

Lemma no_space_pretty_N_go (x : N) (s : string) :
  no_space s = true -> no_space (pretty_N_go x s) = true.
Proof.
  revert s. induction (N.lt_wf_0 x) as [x _ IH]; intros s Hs.
  destruct (N.eq_dec x 0%N) as [-> | Hx].
  - now rewrite pretty_N_go_0.
  - rewrite pretty_N_go_step by lia. apply IH.
    + apply N.div_lt; lia.
    + cbn [no_space]. rewrite Hs, andb_true_r.
      unfold pretty_N_char.
      destruct (x `mod` 10)%N as [|q]; [reflexivity|].
      do 5 (try (destruct q as [q|q|]; try reflexivity)).
Qed.

Lemma no_space_pretty_Z (z : Z) : no_space (pretty z) = true.
Proof.
  assert (HN : forall x : N, no_space (pretty x) = true).
  { intros x. unfold pretty, pretty_N.
    destruct (decide (x = 0%N)); [reflexivity|].
    now apply no_space_pretty_N_go. }
  destruct z as [|q|q]; [reflexivity | apply (HN (Npos q)) |].
  change (pretty (Zneg q)) with ("-" +:+ pretty (Npos q)).
  rewrite no_space_app. cbn [no_space]. apply (HN (Npos q)).
Qed.

Lemma no_space_zeros k : no_space (Num.zeros k) = true.
Proof. induction k as [|k IH]; [reflexivity | exact IH]. Qed.

Lemma no_space_toString v : no_space (Num.toString v) = true.
Proof.
  unfold Num.toString.
  destruct (Num.normalize (Num.mant v) (Num.scale v)) as [m s].
  destruct s as [|s]; [apply no_space_pretty_Z|].
  unfold Num.pad_fraction.
  rewrite !no_space_app, !no_space_pretty_Z, no_space_zeros.
  destruct (m <? 0); reflexivity.
Qed.

(** ** Padding (C4) *)

Lemma lookup_num_In table v t :
  lookup_num table v = Some t -> In t (map snd table).
Proof.
  induction table as [|[k t'] rest IH]; cbn; [discriminate|].
  destruct (Num.is_int v k); [intros [= ->]; now left | right; auto].
Qed.

Lemma no_space_padding_class side v :
  no_space side = true -> no_space (padding_class side (Some v)) = true.
Proof.
  intros Hside. unfold padding_class, lookup_opt, show_opt, if_truthy.
  destruct (lookup_num spacingMap v) as [t|] eqn:Ht.
  - assert (Hns : no_space t = true).
    { apply lookup_num_In in Ht.
      assert (Hall : forallb no_space (map snd spacingMap) = true)
        by reflexivity.
      rewrite forallb_forall in Hall. now apply Hall. }
    destruct (truthy_string t).
    + rewrite !no_space_app, Hside, Hns. reflexivity.
    + rewrite !no_space_app, Hside, no_space_toString. reflexivity.
  - rewrite !no_space_app, Hside, no_space_toString. reflexivity.
Qed.

Lemma split_spaces_join s rest current :
  split_spaces (s +:+ " " +:+ rest) current =
  (split_spaces s current ++ split_spaces rest "")%list.
Proof.
  revert current. induction s as [|ch s IH]; intros current.
  - rewrite append_nil, append_cons, append_nil. cbn [split_spaces].
    change (Ascii.eqb " " " ") with true. reflexivity.
  - rewrite append_cons. cbn [split_spaces].
    destruct (Ascii.eqb ch " "%char); [|apply IH].
    cbn [app]. now rewrite IH.
Qed.

(** Splitting the joined list on spaces gives the tokens of its classes,
    class by class. *)
Lemma tokens_join (classes : list string) :
  classes <> [] ->
  tokens (String.concat " " classes) = flat_map tokens classes.
Proof.
  induction classes as [|cls rest IH]; [congruence|]. intros _.
  destruct rest as [|cls' rest'].
  - cbn [String.concat flat_map]. now rewrite app_nil_r.
  - change (String.concat " " (cls :: cls' :: rest'))
      with (cls +:+ " " +:+ String.concat " " (cls' :: rest')).
    unfold tokens at 1. rewrite split_spaces_join.
    change (split_spaces (String.concat " " (cls' :: rest')) "")
      with (tokens (String.concat " " (cls' :: rest'))).
    now rewrite IH.
Qed.

Lemma padding_class_truthy ch side v :
  truthy_string (padding_class (String ch side) v) = true.
Proof. unfold padding_class. now destruct (if_truthy _). Qed.

(** C4.  For a node with four-sided padding: when the four sides are all
    exactly equal, the padding is one combined token [p-..]; when they are
    not all equal, it is exactly the four side tokens [pt-..], [pr-..],
    [pb-..], [pl-..], in this order, each one snapped on the padding table
    from the value of its own side alone.  These tokens are emitted: the
    padding class stands in the class list of the node between the classes
    pushed before and after it, and the class string of the node's entry,
    split on spaces, is the tokens of the classes before the padding, then
    the padding tokens, then the tokens of the classes after it. *)
Theorem padding_collapses_when_equal
    (n : Attrs) (depth : nat) (childrenCount : option nat)
    (top right bottom left : num) :
  n_paddingTop n = Some top ->
  n_paddingRight n = Some right ->
  n_paddingBottom n = Some bottom ->
  n_paddingLeft n = Some left ->
  exists classes,
    tw_padding n = Some classes /\
    tailwindClasses n =
      (classes_before_padding (tailwind_of n) ++
       classes :: classes_after_padding (tailwind_of n))%list /\
    tokens (s_tailwindClasses (entry_for n depth childrenCount)) =
      (flat_map tokens (classes_before_padding (tailwind_of n)) ++
       tokens classes ++
       flat_map tokens (classes_after_padding (tailwind_of n)))%list /\
    (all_equal top right bottom left ->
     tokens classes = [padding_class "p" (Some top)]) /\
    (~ all_equal top right bottom left ->
     tokens classes =
     [ padding_class "pt" (Some top); padding_class "pr" (Some right);
       padding_class "pb" (Some bottom); padding_class "pl" (Some left) ]).
Proof.
  intros Ht Hr Hb Hl.
  assert (Hclasses : exists classes,
    tw_padding n = Some classes /\ truthy_string classes = true /\
    (all_equal top right bottom left ->
     tokens classes = [padding_class "p" (Some top)]) /\
    (~ all_equal top right bottom left ->
     tokens classes =
     [ padding_class "pt" (Some top); padding_class "pr" (Some right);
       padding_class "pb" (Some bottom); padding_class "pl" (Some left) ])).
  { unfold tw_padding, all_equal.
    rewrite Ht, Hr, Hb, Hl. cbn [strict_eq_opt].
    destruct (Num.eqb top right) eqn:E1; cbn [andb];
      [destruct (Num.eqb right bottom) eqn:E2; cbn [andb];
         [destruct (Num.eqb bottom left) eqn:E3; cbn [andb]|]|].
    1: { eexists. split; [reflexivity|].
         split; [apply padding_class_truthy|]. split; [|tauto].
         intros _. unfold tokens.
         rewrite split_spaces_last by (now apply no_space_padding_class).
         reflexivity. }
    all: eexists; (split; [reflexivity|]);
      (split; [unfold padding_class at 1; now destruct (if_truthy _)|]);
      (split; [intros (? & ? & ?); congruence|]);
      intros _; unfold tokens;
      do 3 rewrite split_spaces_token by (now apply no_space_padding_class);
      rewrite split_spaces_last by (now apply no_space_padding_class);
      reflexivity. }
  destruct Hclasses as (classes & Hpad & Htruthy & Hequal & Hdiffer).
  exists classes. split; [exact Hpad|].
  assert (Hlist : tailwindClasses n =
            (classes_before_padding (tailwind_of n) ++
             classes :: classes_after_padding (tailwind_of n))%list).
  { apply tailwindClasses_around.
    rewrite style_classes_around_padding.
    change (padding (tailwind_of n)) with (tw_padding n).
    now rewrite Hpad, push_if_some. }
  split; [exact Hlist|]. split; [|split; assumption].
  rewrite class_string_of_entry, Hlist.
  rewrite tokens_join
    by (now destruct (classes_before_padding (tailwind_of n))).
  rewrite flat_map_app. reflexivity.
Qed.

(** A column with padding 16 on all sides: the entry's tokens are [flex],
    [flex-col] and the one token [p-4]; with padding 16, 8, 16, 7 they end
    with the four side tokens. *)
Lemma padding_collapses_when_equal_witness :
  (exists classes,
     tw_padding (layout_node (Some "FRAME") (Some "VERTICAL") None None None
                   (Some (Num.of_Z 16)) (Some (Num.of_Z 16))
                   (Some (Num.of_Z 16)) (Some (Num.of_Z 16)))
       = Some classes /\
     tokens classes = ["p-4"] /\
     tokens (s_tailwindClasses
               (entry_for
                  (layout_node (Some "FRAME") (Some "VERTICAL") None None None
                     (Some (Num.of_Z 16)) (Some (Num.of_Z 16))
                     (Some (Num.of_Z 16)) (Some (Num.of_Z 16))) 0 None)) =
       ["flex"; "flex-col"; "p-4"]) /\
  (exists classes,
     tw_padding (layout_node (Some "FRAME") (Some "VERTICAL") None None None
                   (Some (Num.of_Z 16)) (Some (Num.of_Z 8))
                   (Some (Num.of_Z 16)) (Some (Num.of_Z 7)))
       = Some classes /\
     tokens classes = ["pt-4"; "pr-2"; "pb-4"; "pl-[7px]"] /\
     tokens (s_tailwindClasses
               (entry_for
                  (layout_node (Some "FRAME") (Some "VERTICAL") None None None
                     (Some (Num.of_Z 16)) (Some (Num.of_Z 8))
                     (Some (Num.of_Z 16)) (Some (Num.of_Z 7))) 0 None)) =
       ["flex"; "flex-col"; "pt-4"; "pr-2"; "pb-4"; "pl-[7px]"]).
Proof.
  split.
  - destruct (padding_collapses_when_equal
                (layout_node (Some "FRAME") (Some "VERTICAL") None None None
                   (Some (Num.of_Z 16)) (Some (Num.of_Z 16))
                   (Some (Num.of_Z 16)) (Some (Num.of_Z 16)))
                0 None
                (Num.of_Z 16) (Num.of_Z 16) (Num.of_Z 16) (Num.of_Z 16)
                eq_refl eq_refl eq_refl eq_refl)
      as (classes & Hpad & _ & Hentry & Hequal & _).
    exists classes. split; [exact Hpad|].
    assert (Htokens : tokens classes = ["p-4"])
      by (apply Hequal; repeat split).
    split; [exact Htokens|].
    rewrite Hentry, Htokens. vm_compute. reflexivity.
  - destruct (padding_collapses_when_equal
                (layout_node (Some "FRAME") (Some "VERTICAL") None None None
                   (Some (Num.of_Z 16)) (Some (Num.of_Z 8))
                   (Some (Num.of_Z 16)) (Some (Num.of_Z 7)))
                0 None
                (Num.of_Z 16) (Num.of_Z 8) (Num.of_Z 16) (Num.of_Z 7)
                eq_refl eq_refl eq_refl eq_refl)
      as (classes & Hpad & _ & Hentry & _ & Hdiffer).
    exists classes. split; [exact Hpad|].
    assert (Htokens : tokens classes = ["pt-4"; "pr-2"; "pb-4"; "pl-[7px]"])
      by (apply Hdiffer; intros (H & _); discriminate H).
    split; [exact Htokens|].
    rewrite Hentry, Htokens. vm_compute. reflexivity.
Defined.

(** ** Membership in the class list *)

Lemma in_push_if o s : if_truthy o = Some s -> In s (push_if o).
Proof. intros H. unfold push_if. rewrite H. now left. Qed.

Lemma in_tailwindClasses n s :
  In s (style_classes (tailwind_of n)) -> In s (tailwindClasses n).
Proof.
  unfold tailwindClasses.
  destruct (style_classes (tailwind_of n)); [intros [] | auto].
Qed.

(** A class of one field of the [tailwind] object is in the class list. *)
Ltac field_in_classes H :=
  apply in_tailwindClasses; unfold style_classes, tailwind_of;
  cbn [width_ height_ backgroundColor borderWidth borderColor flexDirection
       display primaryAlignment counterAlignment gap padding borderRadius
       fontSize lineHeight letterSpacing textColor fontFamily fontWeight
       textAlign opacity shadow];
  rewrite !in_app_iff; apply in_push_if in H; tauto.

(** ** Alignment (C5) *)

(** C5.  For a node with an auto-layout mode, the primary-axis alignment
    MIN/CENTER/MAX gives justify-start/center/end under HORIZONTAL and
    items-start/center/end under VERTICAL, and the counter-axis alignment
    the opposite way; the class is part of the node's class list. *)
Theorem alignment_is_cross_swapped
    (n : Attrs) (m : AxisMode) (al : Alignment) :
  n_layoutMode n = Some (mode_name m) ->
  (n_primaryAxisAlignItems n = Some (alignment_name al) ->
   tw_primaryAlignment n = Some (primary_class m al) /\
   In (primary_class m al) (tailwindClasses n)) /\
  (n_counterAxisAlignItems n = Some (alignment_name al) ->
   tw_counterAlignment n = Some (counter_class m al) /\
   In (counter_class m al) (tailwindClasses n)).
Proof.
  intros Hmode.
  split; intros Hal.
  - assert (H : tw_primaryAlignment n = Some (primary_class m al)).
    { unfold tw_primaryAlignment. rewrite Hal, Hmode.
      destruct m, al; reflexivity. }
    split; [exact H|].
    assert (H' : if_truthy (tw_primaryAlignment n) =
                 Some (primary_class m al)).
    { rewrite H. destruct m, al; reflexivity. }
    field_in_classes H'.
  - assert (H : tw_counterAlignment n = Some (counter_class m al)).
    { unfold tw_counterAlignment. rewrite Hal, Hmode.
      destruct m, al; reflexivity. }
    split; [exact H|].
    assert (H' : if_truthy (tw_counterAlignment n) =
                 Some (counter_class m al)).
    { rewrite H. destruct m, al; reflexivity. }
    field_in_classes H'.
Qed.

(** MIN on the primary axis and CENTER on the counter axis, in a row and in
    a column. *)
Lemma alignment_is_cross_swapped_witness :
  (tw_primaryAlignment
     (layout_node (Some "FRAME") (Some "HORIZONTAL") (Some "MIN")
        (Some "CENTER") None None None None None) = Some "justify-start" /\
   tw_counterAlignment
     (layout_node (Some "FRAME") (Some "HORIZONTAL") (Some "MIN")
        (Some "CENTER") None None None None None) = Some "items-center") /\
  (tw_primaryAlignment
     (layout_node (Some "FRAME") (Some "VERTICAL") (Some "MIN")
        (Some "CENTER") None None None None None) = Some "items-start" /\
   tw_counterAlignment
     (layout_node (Some "FRAME") (Some "VERTICAL") (Some "MIN")
        (Some "CENTER") None None None None None) = Some "justify-center").
Proof.
  split; split.
  - apply (alignment_is_cross_swapped
             (layout_node (Some "FRAME") (Some "HORIZONTAL") (Some "MIN")
                (Some "CENTER") None None None None None)
             HORIZONTAL MIN eq_refl).
    reflexivity.
  - apply (alignment_is_cross_swapped
             (layout_node (Some "FRAME") (Some "HORIZONTAL") (Some "MIN")
                (Some "CENTER") None None None None None)
             HORIZONTAL CENTER eq_refl).
    reflexivity.
  - apply (alignment_is_cross_swapped
             (layout_node (Some "FRAME") (Some "VERTICAL") (Some "MIN")
                (Some "CENTER") None None None None None)
             VERTICAL MIN eq_refl).
    reflexivity.
  - apply (alignment_is_cross_swapped
             (layout_node (Some "FRAME") (Some "VERTICAL") (Some "MIN")
                (Some "CENTER") None None None None None)
             VERTICAL CENTER eq_refl).
    reflexivity.
Defined.

(** ** Every entry has classes (C6) *)

Lemma entries_extract (P : Entry -> Prop) :
  (forall n depth count, P (entry_for n depth count)) ->
  forall node depth, Forall P (entries (extractNodeStructure node depth)).
Proof.
  intros HP node.
  induction node as [n | n cs IH] using Node_tree_ind; intros depth.
  - repeat constructor. apply HP.
  - destruct (list_eq_nil_dec cs) as [-> | Hcs]; [repeat constructor; apply HP|].
    rewrite extract_children by assumption. cbn [entries].
    constructor; [apply HP|].
    rewrite flat_map_map. clear Hcs.
    induction IH as [|c cs' Hc _ IHcs]; cbn [flat_map]; [constructor|].
    apply Forall_app. split; [apply Hc | exact IHcs].
Qed.

Lemma push_if_truthy o : Forall (fun s => truthy_string s = true) (push_if o).
Proof.
  unfold push_if, if_truthy. destruct o as [s|]; [|constructor].
  destruct (truthy_string s) eqn:Hs; repeat constructor. exact Hs.
Qed.

Lemma style_classes_truthy t :
  Forall (fun s => truthy_string s = true) (style_classes t).
Proof.
  unfold style_classes.
  repeat (apply Forall_app; split; [apply push_if_truthy|]).
  apply push_if_truthy.
Qed.

Lemma default_class_cases type :
  default_class type = "text-base" \/ default_class type = "block" \/
  default_class type = "inline-block".
Proof.
  unfold default_class.
  repeat (match goal with |- context [if ?c then _ else _] => destruct c end);
    auto.
Qed.

Lemma tailwindClasses_truthy n :
  exists first rest,
    tailwindClasses n = first :: rest /\ truthy_string first = true.
Proof.
  unfold tailwindClasses.
  pose proof (style_classes_truthy (tailwind_of n)) as Hall.
  destruct (style_classes (tailwind_of n)) as [|first rest].
  - exists (default_class (n_type n)), []. split; [reflexivity|].
    destruct (default_class_cases (n_type n)) as [-> | [-> | ->]]; reflexivity.
  - exists first, rest. split; [reflexivity|].
    now apply Forall_cons in Hall as [? _].
Qed.

Lemma join_classes_nonempty first rest :
  truthy_string first = true -> join_classes (first :: rest) <> "".
Proof.
  unfold join_classes. intros Hfirst.
  destruct first as [|c first]; [discriminate Hfirst|].
  destruct rest; cbn [String.concat]; discriminate.
Qed.

(** C6.  Every entry of the walked output has a non-empty class string.  A
    node for which no style property gave a class gets exactly one default
    class, fixed by its type alone: [text-base] for TEXT, [block] for FRAME,
    GROUP, INSTANCE, RECTANGLE and ELLIPSE, [inline-block] for VECTOR and
    BOOLEAN_OPERATION. *)
Theorem every_entry_has_classes (node : Node) (depth : nat) :
  Forall (fun e => s_tailwindClasses e <> "")
         (entries (extractNodeStructure node depth)) /\
  forall n count,
    style_classes (tailwind_of n) = [] ->
    tailwindClasses n = [default_class (n_type n)] /\
    s_tailwindClasses (entry_for n depth count) = default_class (n_type n) /\
    (n_type n = Some "TEXT" -> default_class (n_type n) = "text-base") /\
    (forall t, In t ["FRAME"; "GROUP"; "INSTANCE"; "RECTANGLE"; "ELLIPSE"] ->
       n_type n = Some t -> default_class (n_type n) = "block") /\
    (forall t, In t ["VECTOR"; "BOOLEAN_OPERATION"] ->
       n_type n = Some t -> default_class (n_type n) = "inline-block").
Proof.
  split.
  - apply entries_extract. intros n d count. cbn [entry_for s_tailwindClasses].
    destruct (tailwindClasses_truthy n) as (first & rest & -> & Hfirst).
    now apply join_classes_nonempty.
  - intros n count Hnone.
    assert (Hclasses : tailwindClasses n = [default_class (n_type n)])
      by (unfold tailwindClasses; now rewrite Hnone).
    split; [exact Hclasses|].
    split; [cbn [entry_for s_tailwindClasses]; now rewrite Hclasses|].
    split; [intros ->; reflexivity|].
    split; intros t Hin ->; cbn in Hin;
      repeat (destruct Hin as [<- | Hin]; [reflexivity|]); destruct Hin.
Qed.

(** A bare vector gets [inline-block], a bare text node [text-base]. *)
Lemma every_entry_has_classes_witness :
  s_tailwindClasses
    (entry_for (plain (Some "1:4") (Some "Icon") (Some "VECTOR")) 0 None) =
    "inline-block" /\
  s_tailwindClasses
    (entry_for (plain (Some "1:5") (Some "Label") (Some "TEXT")) 0 None) =
    "text-base".
Proof.
  split.
  - destruct (every_entry_has_classes malformed_tree 0) as [_ Hdefault].
    destruct (Hdefault (plain (Some "1:4") (Some "Icon") (Some "VECTOR"))
                None eq_refl) as (_ & -> & _ & _ & Hvector).
    apply (Hvector "VECTOR"); [now left | reflexivity].
  - destruct (every_entry_has_classes malformed_tree 0) as [_ Hdefault].
    destruct (Hdefault (plain (Some "1:5") (Some "Label") (Some "TEXT"))
                None eq_refl) as (_ & -> & Htext & _).
    now apply Htext.
Defined.

(** ** The order of the classes (C8) *)

Lemma Math_round_nearest v : nearest_integer v (Num.Math_round v).
Proof.
  unfold nearest_integer, Num.Math_round.
  pose proof (pow10_pos (Num.scale v)) as HP.
  set (P := Num.pow10 (Num.scale v)) in *. set (m := Num.mant v).
  pose proof (Z.div_mod (2 * m + P) (2 * P) ltac:(lia)) as Hdm.
  pose proof (Z.mod_pos_bound (2 * m + P) (2 * P) ltac:(lia)) as Hmod.
  nia.
Qed.

Lemma precedence_sublist t : sublist (precedence t) (style_classes t).
Proof.
  unfold precedence, style_classes.
  do 15 (apply sublist_app; [reflexivity|]).
  do 2 apply sublist_inserts_l.
  apply sublist_app; [reflexivity|].
  apply sublist_inserts_l. reflexivity.
Qed.

(** C8.  The class string of a node is its class list joined by spaces, and
    the classes of the listed attributes appear in that list in the fixed
    precedence order, whichever of them the node has.  The width and height
    classes carry the bounding box's width and height rounded to the nearest
    integer, in pixels, without any snapping to a scale. *)
Theorem classes_follow_precedence (n : Attrs) (depth : nat)
    (count : option nat) :
  s_tailwindClasses (entry_for n depth count) =
    String.concat " " (tailwindClasses n) /\
  sublist (precedence (tailwind_of n)) (tailwindClasses n) /\
  forall bb, n_absoluteBoundingBox n = Some bb ->
    exists w h,
      nearest_integer (width bb) w /\ nearest_integer (height bb) h /\
      sublist [ "w-[" +:+ pretty w +:+ "px]"; "h-[" +:+ pretty h +:+ "px]" ]
              (precedence (tailwind_of n)).
Proof.
  split; [reflexivity|]. split.
  - pose proof (precedence_sublist (tailwind_of n)) as Hsub.
    unfold tailwindClasses.
    destruct (style_classes (tailwind_of n)) as [|c cs]; [|exact Hsub].
    apply sublist_nil_r in Hsub as ->. apply sublist_nil_l.
  - intros bb Hbb.
    exists (Num.Math_round (width bb)), (Num.Math_round (height bb)).
    split; [apply Math_round_nearest|]. split; [apply Math_round_nearest|].
    unfold precedence, tailwind_of.
    cbn [width_ height_ backgroundColor borderWidth borderColor flexDirection
         display primaryAlignment counterAlignment gap padding borderRadius
         fontSize lineHeight letterSpacing textColor fontFamily fontWeight
         textAlign opacity shadow].
    do 5 apply sublist_inserts_l.
    unfold tw_width, tw_height. rewrite Hbb.
    change (push_if (Some ("w-[" +:+ pretty (Num.Math_round (width bb))
                           +:+ "px]")))
      with ["w-[" +:+ pretty (Num.Math_round (width bb)) +:+ "px]"].
    change (push_if (Some ("h-[" +:+ pretty (Num.Math_round (height bb))
                           +:+ "px]")))
      with ["h-[" +:+ pretty (Num.Math_round (height bb)) +:+ "px]"].
    cbn [app]. do 2 apply sublist_skip. apply sublist_nil_l.
Qed.

(** The sample text node: its classes, in order, with a box of 120.6 by 24.5
    giving [w-[121px]] and [h-[25px]]. *)
Lemma classes_follow_precedence_witness :
  tailwindClasses sample_text =
    [ "w-[121px]"; "h-[25px]"; "bg-black"; "text-[24px]"; "font-inter";
      "font-bold"; "leading-[32px]"; "text-center"; "text-black";
      "opacity-[50%]" ] /\
  exists w h,
    nearest_integer (Num.Num 1206 1) w /\ nearest_integer (Num.Num 245 1) h /\
    sublist [ "w-[" +:+ pretty w +:+ "px]"; "h-[" +:+ pretty h +:+ "px]" ]
            (precedence (tailwind_of sample_text)).
Proof.
  split; [vm_compute; reflexivity|].
  destruct (classes_follow_precedence sample_text 0 None) as (_ & _ & Hbox).
  exact (Hbox _ eq_refl).
Defined.

(** ** Merging image URLs into the walked tree *)

Lemma addImageUrls_empty s : addImageUrls ∅ s = s.
Proof.
  induction s as [e | e cs IH] using Structure_tree_ind.
  - reflexivity.
  - cbn [addImageUrls]. unfold annotate. rewrite lookup_empty. cbn [if_truthy].
    do 2 f_equal.
    induction IH as [|c cs' Hc _ IHcs]; [reflexivity|].
    cbn [map]. now rewrite Hc, IHcs.
Qed.

Lemma entries_addImageUrls urls s :
  entries (addImageUrls urls s) = map (annotate urls) (entries s).
Proof.
  induction s as [e | e cs IH] using Structure_tree_ind.
  - reflexivity.
  - cbn [addImageUrls entries map]. f_equal.
    rewrite flat_map_map, map_flat_map.
    now apply flat_map_Forall_ext.
Qed.

Lemma extract_no_imageUrl node depth :
  Forall (fun e => s_imageUrl e = None)
         (entries (extractNodeStructure node depth)).
Proof. apply entries_extract. reflexivity. Qed.

(** ** Determinism up to the timestamp (C9) *)

Lemma outputData_of_same w1 w2 node s :
  NODE_ID w1 = NODE_ID w2 ->
  same_but_timestamp (outputData_of w1 node s) (outputData_of w2 node s).
Proof. intros Hid. unfold same_but_timestamp. cbn. now rewrite Hid. Qed.

(** C9.  Two runs with the same constants and the same answers of the remote
    service (the same input tree and the same image mapping), whatever their
    clocks, write the same diagnostics and produce documents that are equal
    in every field other than [extractedAt], which is the run's own clock
    reading: the tree with its class strings and children counts, the
    descendant count and the component analysis do not depend on time. *)
Theorem extraction_is_deterministic (w1 w2 : World) :
  FILE_KEY w1 = FILE_KEY w2 ->
  NODE_ID w1 = NODE_ID w2 ->
  (forall path, makeRequest w1 path = makeRequest w2 path) ->
  same_outcome (getNodeStructure w1) (getNodeStructure w2) /\
  (forall d, fst (getNodeStructure w1) = Some d -> extractedAt d = now w1).
Proof.
  intros Hkey Hid Hrequest.
  unfold same_outcome, getNodeStructure, getImages, nodes_path.
  rewrite <- Hkey, <- Hid.
  rewrite <- !Hrequest.
  destruct (makeRequest w1 _) as [nodeData | message];
    [|split; [split; [reflexivity | exact I] | discriminate]].
  destruct (nodes nodeData ≫= _) as [node|];
    [|split; [split; [reflexivity | exact I] | discriminate]].
  destruct (collectImageNodes node) as [|i ids].
  - split; [split; [reflexivity | now apply outputData_of_same]|].
    now intros d [= <-].
  - rewrite <- Hrequest.
    destruct (makeRequest w1 _) as [imageData | message].
    + split; [split; [reflexivity | now apply outputData_of_same]|].
      now intros d [= <-].
    + split; [split; [reflexivity | now apply outputData_of_same]|].
      now intros d [= <-].
Qed.

(** The scenario at two different times. *)
Lemma extraction_is_deterministic_witness :
  same_outcome
    (getNodeStructure
       (serving "file" "1:1" "2024-01-01T00:00:00.000Z" scenario_response))
    (getNodeStructure
       (serving "file" "1:1" "2025-06-30T12:00:00.000Z" scenario_response)).
Proof.
  apply (extraction_is_deterministic
           (serving "file" "1:1" "2024-01-01T00:00:00.000Z" scenario_response)
           (serving "file" "1:1" "2025-06-30T12:00:00.000Z" scenario_response)
           eq_refl eq_refl).
  intros path. reflexivity.
Defined.

(** ** Worked examples *)

Example toString_integer : Num.toString (Num.of_Z 8) = "8".
Proof. reflexivity. Qed.

Example toString_trailing_zero : Num.toString (Num.Num 50 2) = "0.5".
Proof. vm_compute. reflexivity. Qed.

Example toString_negative : Num.toString (Num.Num (-1205) 3) = "-1.205".
Proof. vm_compute. reflexivity. Qed.

Example toFixed_ratio : Num.toFixed 1 (Num.div100 (Num.of_Z 150)) = "1.5".
Proof. vm_compute. reflexivity. Qed.

Example Math_round_tie_up : Num.Math_round (Num.Num 25 1) = 3.
Proof. reflexivity. Qed.

Example Math_round_negative_tie : Num.Math_round (Num.Num (-25) 1) = -2.
Proof. reflexivity. Qed.

(** The end-to-end scenario of the specification: the frame is a column
    with [p-4] and [bg-white], the text has its verbatim font size, and the
    rectangle with the image fill is collected and gets its URL. *)
Example scenario_classes :
  map s_tailwindClasses (entries (extractNodeStructure scenario_tree 0)) =
  [ "flex flex-col p-4 bg-white";
    "w-[121px] h-[25px] bg-black text-[24px] font-inter font-bold leading-[32px] text-center text-black opacity-[50%]";
    "block" ].
Proof. vm_compute. reflexivity. Qed.

Example scenario_image_nodes :
  collectImageNodes scenario_tree = [Some "1:8"].
Proof. reflexivity. Qed.

Example scenario_depths :
  map s_depth (entries (extractNodeStructure scenario_tree 0)) =
  [0%nat; 1%nat; 1%nat].
Proof. reflexivity. Qed.

(** A root with the children A and B, where A has two children and B none,
    has four descendants. *)
Example totalDescendants_four :
  countAllChildren
    (extractNodeStructure
       (mkNode (plain (Some "0:1") (Some "root") (Some "FRAME"))
          (Some [ mkNode (plain (Some "0:2") (Some "A") (Some "GROUP"))
                    (Some [ mkNode (plain (Some "0:3") None (Some "TEXT")) None;
                            mkNode (plain (Some "0:4") None (Some "TEXT")) None ]);
                  mkNode (plain (Some "0:5") (Some "B") (Some "GROUP")) None ]))
       0) = 4%nat.
Proof. reflexivity. Qed.

(** A failed node request ends the run with one error line and no document. *)
Example root_fetch_failure :
  getNodeStructure
    {| FILE_KEY := "file"; NODE_ID := "1:1";
       makeRequest := fun _ => Rejected "API Error: Not found";
       now := "2024-01-01T00:00:00.000Z" |} =
  (None, [Error "Error:" "API Error: Not found"]).
Proof. reflexivity. Qed.

(** * Further properties of the walker and of the report *)

(** ** Counting descendants: [countAllChildren] *)

Lemma countAllChildren_entries s : S (countAllChildren s) = count_entries s.
Proof.
  unfold count_entries.
  induction s as [e | e cs IH] using Structure_tree_ind; [reflexivity|].
  cbn [countAllChildren entries length]. f_equal.
  induction IH as [|c cs' Hc _ IHcs]; [reflexivity|].
  cbn [map flat_map length]. rewrite length_app, <- Hc.
  unfold list_sum in *. cbn [fold_right]. lia.
Qed.

Lemma count_entries_extract node depth :
  count_entries (extractNodeStructure node depth) = count_nodes node.
Proof.
  unfold count_entries, count_nodes.
  rewrite <- (length_map entry_label), extract_labels, length_map.
  apply preorder_length_depth.
Qed.

Lemma count_nodes_positive node : (1 <= count_nodes node)%nat.
Proof. destruct node as [n cs]. unfold count_nodes. cbn. lia. Qed.

(** The descendant count of a walked tree is the number of input nodes
    without the root: every node below the root is counted exactly once. *)
Theorem countAllChildren_all_but_root (node : Node) (depth : nat) :
  countAllChildren (extractNodeStructure node depth) =
  (count_nodes node - 1)%nat.
Proof.
  pose proof (countAllChildren_entries (extractNodeStructure node depth)) as H.
  rewrite count_entries_extract in H. lia.
Qed.

(** ** Children and their count *)

Lemma subtrees_extract (P : Structure -> Prop) :
  (forall n depth, P (extractNodeStructure (mkNode n None) depth)) ->
  (forall n cs depth, cs <> [] ->
     P (extractNodeStructure (mkNode n (Some cs)) depth)) ->
  forall node depth, Forall P (subtrees (extractNodeStructure node depth)).
Proof.
  intros Hleaf Hinner node.
  induction node as [n | n cs IH] using Node_tree_ind; intros depth.
  - repeat constructor. apply Hleaf.
  - destruct (list_eq_nil_dec cs) as [-> | Hcs].
    + repeat constructor. apply (Hleaf n depth).
    + pose proof (Hinner n cs depth Hcs) as Hroot.
      rewrite extract_children in * by assumption.
      cbn [subtrees]. constructor; [exact Hroot|].
      rewrite flat_map_map. clear Hcs Hroot.
      induction IH as [|c cs' Hc _ IHcs]; cbn [flat_map]; [constructor|].
      apply Forall_app. split; [apply Hc | exact IHcs].
Qed.

(** In a walked tree no subtree has an empty [children] array: a node
    without children has neither [children] nor [childrenCount], and any
    other has both, [childrenCount] being the length of [children]. *)
Theorem children_and_count_fit (node : Node) (depth : nat) :
  Forall children_fit (subtrees (extractNodeStructure node depth)).
Proof.
  apply subtrees_extract.
  - intros n d. exact I.
  - intros n cs d Hcs. rewrite extract_children by assumption.
    unfold children_fit. cbn. split; [|now rewrite length_map].
    destruct cs; [congruence | discriminate].
Qed.

(** ** The component analysis: [analyzeComponents] *)

Lemma flat_map_filter_map {A B C} (test : B -> bool) (g : B -> C)
    (f : A -> list B) (l : list A) :
  map g (List.filter test (flat_map f l)) =
  flat_map (fun a => map g (List.filter test (f a))) l.
Proof.
  induction l as [|h t IH]; [reflexivity|].
  cbn [flat_map]. now rewrite List.filter_app, map_app, IH.
Qed.

Lemma own_components_listed e :
  (if is_string (s_type e) "COMPONENT"
   then [ {| c_id := s_id e; c_name := s_name e |} ] else []) =
  map component_ref (List.filter is_component [e]).
Proof.
  cbn [List.filter]. unfold is_component.
  destruct (is_string (s_type e) "COMPONENT"); reflexivity.
Qed.

Lemma own_instances_listed e :
  (if is_string (s_type e) "INSTANCE" then
     match if_truthy (s_componentId e) with
     | Some c => [ {| i_id := s_id e; i_name := s_name e;
                      i_componentId := c |} ]
     | None => []
     end
   else []) =
  map instance_ref (List.filter is_linked_instance [e]).
Proof.
  cbn [List.filter]. unfold is_linked_instance, truthy_opt, if_truthy.
  destruct (is_string (s_type e) "INSTANCE"); [|reflexivity].
  destruct (s_componentId e) as [c|] eqn:Hc; [|reflexivity].
  cbn [andb]. destruct (truthy_string c); [|reflexivity].
  cbn [map]. unfold instance_ref. now rewrite Hc.
Qed.

Lemma filter_cons_app {A} (test : A -> bool) (x : A) (l : list A) :
  List.filter test (x :: l) = (List.filter test [x] ++ List.filter test l)%list.
Proof. cbn [List.filter]. destruct (test x); reflexivity. Qed.

Lemma analyze_by_type (s : Structure) :
  snd (analyzeComponents s) =
    map component_ref (List.filter is_component (entries s)) /\
  fst (analyzeComponents s) =
    map instance_ref (List.filter is_linked_instance (entries s)).
Proof.
  induction s as [e | e cs IH] using Structure_tree_ind.
  - cbn [analyzeComponents entries fst snd].
    now rewrite own_components_listed, own_instances_listed.
  - cbn [analyzeComponents entries fst snd].
    rewrite own_components_listed, own_instances_listed.
    rewrite (filter_cons_app is_component e (flat_map entries cs)),
      (filter_cons_app is_linked_instance e (flat_map entries cs)).
    rewrite !map_app. split; f_equal.
    + rewrite flat_map_filter_map. apply flat_map_Forall_ext.
      eapply Forall_impl; [exact IH|]. now intros c [Hc _].
    + rewrite flat_map_filter_map. apply flat_map_Forall_ext.
      eapply Forall_impl; [exact IH|]. now intros c [_ Hc].
Qed.


(** The analysis lists, in document order, exactly the entries of type
    COMPONENT as components and exactly the entries of type INSTANCE that
    have a component id as instances; an INSTANCE without a component id is
    left out. *)
Theorem analyzeComponents_lists_by_type (s : Structure) :
  snd (analyzeComponents s) =
    map component_ref (List.filter is_component (entries s)) /\
  fst (analyzeComponents s) =
    map instance_ref (List.filter is_linked_instance (entries s)).
Proof. exact (analyze_by_type s). Qed.

(** ** The summary counts: [countNodeTypes] *)

Lemma fold_add_counts (f : Counts -> nat) (g : Structure -> Counts) :
  (forall c1 c2, f (add_counts c1 c2) = (f c1 + f c2)%nat) ->
  forall cs init,
    f (fold_left (fun counts child => add_counts counts (g child)) cs init) =
    (f init + list_sum (map (fun c => f (g c)) cs))%nat.
Proof.
  intros Hadd cs. induction cs as [|c cs IH]; intros init.
  - cbn. lia.
  - cbn [fold_left map]. rewrite IH, Hadd.
    unfold list_sum. cbn [fold_right]. lia.
Qed.

Lemma countNodeTypes_sum (f : Counts -> nat) :
  (forall c1 c2, f (add_counts c1 c2) = (f c1 + f c2)%nat) ->
  forall s,
    f (countNodeTypes s) =
    list_sum (map (fun e => f (own_counts e)) (entries s)).
Proof.
  intros Hadd s.
  induction s as [e | e cs IH] using Structure_tree_ind.
  - cbn. lia.
  - cbn [countNodeTypes entries map].
    rewrite (fold_add_counts f countNodeTypes Hadd).
    unfold list_sum at 2. cbn [fold_right]. f_equal.
    fold (list_sum (map (fun e0 => f (own_counts e0)) (flat_map entries cs))).
    induction IH as [|c cs' Hc _ IHcs]; [reflexivity|].
    cbn [map flat_map]. rewrite map_app, list_sum_app, <- Hc, <- IHcs.
    reflexivity.
Qed.

Lemma list_sum_indicator {A} (test : A -> bool) (l : list A) :
  list_sum (map (fun x => if test x then 1 else 0)%nat l) = count_where test l.
Proof.
  unfold count_where.
  induction l as [|x l IH]; [reflexivity|].
  cbn [map List.filter]. unfold list_sum in *. cbn [fold_right].
  destruct (test x); cbn [length]; lia.
Qed.

(** The summary counts agree with the component analysis: the number of
    components is the length of the analysis' component list, and the number
    of instances is at least the length of its instance list (an INSTANCE
    without component id is counted but not listed).  The text counter is
    the number of TEXT entries. *)
Theorem countNodeTypes_agrees_with_analysis (s : Structure) :
  ct_components (countNodeTypes s) = length (snd (analyzeComponents s)) /\
  (length (fst (analyzeComponents s)) <= ct_instances (countNodeTypes s))%nat /\
  ct_text (countNodeTypes s) =
    count_where (fun e => is_string (s_type e) "TEXT") (entries s).
Proof.
  destruct (analyze_by_type s) as [-> ->].
  rewrite !length_map.
  rewrite (countNodeTypes_sum ct_components) by reflexivity.
  rewrite (countNodeTypes_sum ct_instances) by reflexivity.
  rewrite (countNodeTypes_sum ct_text) by reflexivity.
  cbn [own_counts ct_components ct_instances ct_text].
  rewrite !list_sum_indicator.
  split; [reflexivity|]. split; [|reflexivity].
  unfold count_where, is_linked_instance.
  induction (entries s) as [|e l IH]; [reflexivity|].
  cbn [List.filter].
  destruct (is_string (s_type e) "INSTANCE"); cbn [andb];
    [destruct (truthy_opt (s_componentId e))|]; cbn [length]; lia.
Qed.

(** ** The image nodes: [collectImageNodes] *)

Lemma collect_by_fill node :
  forall depth,
    collectImageNodes node =
    map (fun p => n_id (fst p))
        (List.filter (fun p => has_image_fill (fst p))
                     (node_preorder node depth)).
Proof.
  induction node as [n | n cs IH] using Node_tree_ind; intros depth.
  - cbn [collectImageNodes node_preorder List.filter fst].
    unfold has_image_fill.
    destruct (n_fills n) as [fills|]; [|reflexivity].
    destruct (existsb is_image fills); reflexivity.
  - cbn [collectImageNodes node_preorder].
    rewrite (filter_cons_app _ (n, depth)), map_app.
    f_equal.
    + cbn [List.filter fst]. unfold has_image_fill.
      destruct (n_fills n) as [fills|]; [|reflexivity].
      destruct (existsb is_image fills); reflexivity.
    + rewrite flat_map_filter_map. apply flat_map_Forall_ext.
      eapply Forall_impl; [exact IH|]. intros c Hc. apply Hc.
Qed.

Lemma extract_projection {B} (g : Entry -> B) (h : Attrs -> B) :
  (forall n depth count, g (entry_for n depth count) = h n) ->
  forall node depth,
    map g (entries (extractNodeStructure node depth)) =
    map (fun p => h (fst p)) (node_preorder node depth).
Proof.
  intros Hgh node.
  induction node as [n | n cs IH] using Node_tree_ind; intros depth.
  - cbn. now rewrite Hgh.
  - destruct (list_eq_nil_dec cs) as [-> | Hcs]; [cbn; now rewrite Hgh|].
    rewrite extract_children by assumption.
    cbn [entries node_preorder map fst]. rewrite Hgh. f_equal.
    rewrite flat_map_map, !map_flat_map.
    apply flat_map_Forall_ext.
    eapply Forall_impl; [exact IH|]. intros child Hc. apply Hc.
Qed.

Lemma filter_map_length {A B} (f : A -> B) (test : B -> bool) (l : list A) :
  length (List.filter (fun x => test (f x)) l) =
  length (List.filter test (map f l)).
Proof.
  induction l as [|x l IH]; [reflexivity|].
  cbn [map List.filter]. destruct (test (f x)); cbn [length]; lia.
Qed.

Lemma filter_length_le_map {A B} (f : A -> B) (t1 : B -> bool) (t2 : A -> bool)
    (l : list A) :
  (forall x, t1 (f x) = true -> t2 x = true) ->
  (length (List.filter t1 (map f l)) <= length (List.filter t2 l))%nat.
Proof.
  intros Himp. induction l as [|x l IH]; [reflexivity|].
  cbn [map List.filter].
  destruct (t1 (f x)) eqn:H1.
  - rewrite (Himp x H1). cbn [length]. lia.
  - destruct (t2 x); cbn [length]; lia.
Qed.

(** The collected ids are, in document order, the ids of exactly the nodes
    that have a fill of type IMAGE, whatever their type: there are at most
    as many as nodes, and at least as many as entries to which the walk
    gave an [imageContent] (which only rectangles get). *)
Theorem collectImageNodes_by_fill (node : Node) (depth : nat) :
  collectImageNodes node =
    map (fun p => n_id (fst p))
        (List.filter (fun p => has_image_fill (fst p))
                     (node_preorder node depth)) /\
  (length (collectImageNodes node) <= count_nodes node)%nat /\
  (count_where
     (fun e => match s_imageContent e with Some _ => true | None => false end)
     (entries (extractNodeStructure node depth))
   <= length (collectImageNodes node))%nat.
Proof.
  split; [apply collect_by_fill|]. split.
  - rewrite (collect_by_fill node 0), length_map. unfold count_nodes.
    apply List.filter_length_le.
  - rewrite (collect_by_fill node depth), length_map. unfold count_where.
    rewrite (filter_map_length s_imageContent
               (fun o => match o with Some _ => true | None => false end)).
    rewrite (extract_projection s_imageContent imageContent_of
               (fun _ _ _ => eq_refl) node depth).
    apply filter_length_le_map.
    intros [n d]. cbn [fst]. unfold imageContent_of, has_image_fill.
    destruct (is_string (n_type n) "RECTANGLE"); [|discriminate].
    destruct (n_fills n) as [fills|]; [|discriminate].
    destruct (find is_image fills) as [f|] eqn:Hfind; [|discriminate].
    intros _. apply existsb_exists. exists f.
    apply find_some in Hfind. exact Hfind.
Qed.


(** ** Merging the image URLs: [addImageUrls] *)

Lemma annotate_keeps_rest urls e :
  without_imageUrl (annotate urls e) = without_imageUrl e.
Proof. unfold annotate. now destruct (if_truthy _). Qed.

Lemma annotate_idempotent urls e :
  annotate urls (annotate urls e) = annotate urls e.
Proof.
  unfold annotate.
  destruct (if_truthy (urls !! id_key (s_id e))) as [url|] eqn:Hurl.
  - cbn [set_imageUrl s_id]. now rewrite Hurl.
  - now rewrite Hurl.
Qed.

Lemma addImageUrls_idempotent urls s :
  addImageUrls urls (addImageUrls urls s) = addImageUrls urls s.
Proof.
  induction s as [e | e cs IH] using Structure_tree_ind.
  - cbn [addImageUrls]. now rewrite annotate_idempotent.
  - cbn [addImageUrls]. rewrite annotate_idempotent. do 2 f_equal.
    rewrite map_map. apply map_ext_Forall. exact IH.
Qed.

Lemma countAllChildren_addImageUrls urls s :
  countAllChildren (addImageUrls urls s) = countAllChildren s.
Proof.
  pose proof (countAllChildren_entries (addImageUrls urls s)) as H1.
  pose proof (countAllChildren_entries s) as H2.
  unfold count_entries in *.
  rewrite entries_addImageUrls, length_map in H1. lia.
Qed.

Lemma direct_children_addImageUrls urls s :
  direct_children (addImageUrls urls s) = direct_children s.
Proof.
  destruct s as [e [cs|]]; [|reflexivity].
  unfold direct_children. cbn. apply length_map.
Qed.

(** Merging image URLs changes nothing but the [imageUrl] of entries: every
    other field of every entry, the order and number of the entries and the
    descendant count stay as the walk left them, and merging the same
    mapping a second time changes nothing more. *)
Theorem addImageUrls_only_sets_urls
    (urls : gmap string string) (s : Structure) :
  map without_imageUrl (entries (addImageUrls urls s)) =
    map without_imageUrl (entries s) /\
  countAllChildren (addImageUrls urls s) = countAllChildren s /\
  addImageUrls urls (addImageUrls urls s) = addImageUrls urls s.
Proof.
  split; [|split].
  - rewrite entries_addImageUrls, map_map.
    apply map_ext. apply annotate_keeps_rest.
  - apply countAllChildren_addImageUrls.
  - apply addImageUrls_idempotent.
Qed.

(** ** The run as a whole: [getNodeStructure] *)

Lemma run_cases (w : World) :
  (exists m, getNodeStructure w = (None, [Error "Error:" m])) \/
  (exists node tree,
     (exists nodeData,
        makeRequest w (nodes_path w) = Resolved nodeData /\
        nodes nodeData ≫= (fun ns => ns !! NODE_ID w) = Some node) /\
     (tree = extractNodeStructure node 0 \/
      exists urls, tree = addImageUrls urls (extractNodeStructure node 0)) /\
     (getNodeStructure w = (Some (outputData_of w node tree), []) \/
      exists m,
        getNodeStructure w =
        (Some (outputData_of w node tree),
         [Warn "Could not fetch images:" m]))).
Proof.
  unfold getNodeStructure.
  destruct (makeRequest w (nodes_path w)) as [nodeData | message] eqn:Hreq;
    [|left; eauto].
  destruct (nodes nodeData ≫= _) as [node|] eqn:Hnode; [|left; eauto].
  right. destruct (collectImageNodes node) as [|i ids].
  - exists node, (extractNodeStructure node 0).
    split; [now exists nodeData|]. split; [now left | now left].
  - unfold getImages.
    destruct (makeRequest w (images_path _ _)) as [imageData | message].
    + exists node, (addImageUrls (default ∅ (images imageData))
                      (extractNodeStructure node 0)).
      split; [now exists nodeData|]. split; [right; eauto | now left].
    + exists node, (addImageUrls ∅ (extractNodeStructure node 0)).
      split; [now exists nodeData|]. split; [right; eauto|].
      right. now exists message.
Qed.

(** Over the whole of a run, the file write included.  The diagnostics are
    at most one image warning followed by at most one error line.  An error
    line is written exactly when a step inside the [try] threw: the node
    request was rejected or the node is missing (no document is built), the
    output directory could not be made, the write failed, or the size query
    failed.  The file is written exactly when the document was built and
    the directory and the write succeeded, and it then holds that document.
    A run that builds no document writes the error line alone. *)
Theorem run_writes_at_most_one_error (w : World) (disk : Disk) :
  exists warnings errors,
    snd (getNodeStructure_saving w disk) = (warnings ++ errors)%list /\
    (warnings = [] \/
     exists m, warnings = [Warn "Could not fetch images:" m]) /\
    (errors = [] \/ exists m, errors = [Error "Error:" m]) /\
    (errors = [] <->
     fst (getNodeStructure w) <> None /\
     (existsSync disk = true \/ mkdirSync disk = None) /\
     writeFileSync disk = None /\ statSync disk = None) /\
    (fst (getNodeStructure_saving w disk) <> None <->
     fst (getNodeStructure w) <> None /\
     (existsSync disk = true \/ mkdirSync disk = None) /\
     writeFileSync disk = None) /\
    (forall d, fst (getNodeStructure_saving w disk) = Some d ->
               fst (getNodeStructure w) = Some d) /\
    (fst (getNodeStructure w) = None -> warnings = []).
Proof.
  unfold getNodeStructure_saving.
  destruct (run_cases w) as [(m & ->) | (node & tree & _ & _ & Hrun)].
  - exists [], [Error "Error:" m]. cbn [fst snd app].
    split; [reflexivity|]. split; [now left|]. split; [right; eauto|].
    split; [split; [discriminate | now intros [H _]]|].
    split; [split; [congruence | now intros [H _]]|].
    split; [discriminate | reflexivity].
  - destruct disk as [dir mk wr st]. cbn [existsSync mkdirSync writeFileSync statSync].
    assert (Hwarn : exists warnings,
              getNodeStructure w = (Some (outputData_of w node tree), warnings)
              /\ (warnings = [] \/
                  exists m, warnings = [Warn "Could not fetch images:" m])).
    { destruct Hrun as [-> | (m & ->)]; eexists; split; eauto. }
    destruct Hwarn as (warnings & -> & Hwarnings).
    exists warnings.
    exists (match (if dir then None else mk) with
            | Some m => [Error "Error:" m]
            | None =>
                match wr with
                | Some m => [Error "Error:" m]
                | None =>
                    match st with
                    | Some m => [Error "Error:" m]
                    | None => []
                    end
                end
            end).
    cbn [fst snd].
    destruct dir, mk as [m1|], wr as [m2|], st as [m3|]; cbn [fst snd];
      rewrite ?app_nil_r;
      (split; [reflexivity|]); (split; [exact Hwarnings|]);
      (split; [first [now left | right; eauto]|]);
      (split; [split; [first [discriminate | intros _; repeat split;
                                first [discriminate | now left | now right]]
                      | first [reflexivity
                              | intros (_ & [H | H] & H1 & H2); discriminate]]|]);
      (split; [split; [first [intros _; repeat split;
                                first [discriminate | now left | now right]
                             | congruence]
                      | first [discriminate
                              | intros (_ & [H | H] & H1); discriminate]]|]);
      (split; [first [discriminate | now intros d [= <-]] | discriminate]).
Qed.

(** The scenario with a failing image service and a full disk: the warning,
    then the error line, and no file. *)
Lemma run_on_full_disk :
  getNodeStructure_saving
    (without_images "2024-01-01T00:00:00.000Z" scenario_response) full_disk =
  (None, [ Warn "Could not fetch images:" "socket hang up";
           Error "Error:" "ENOSPC: no space left on device, write" ]).
Proof. vm_compute. reflexivity. Qed.

(** The same scenario on a sound disk: the file holds the document and the
    warning is the only diagnostic. *)
Lemma run_on_sound_disk :
  getNodeStructure_saving
    (without_images "2024-01-01T00:00:00.000Z" scenario_response) sound_disk =
  getNodeStructure
    (without_images "2024-01-01T00:00:00.000Z" scenario_response).
Proof. vm_compute. reflexivity. Qed.

Lemma direct_le_all s : (direct_children s <= countAllChildren s)%nat.
Proof. destruct s as [e [cs|]]; unfold direct_children; cbn; lia. Qed.

Lemma direct_children_extract node :
  direct_children (extractNodeStructure node 0) =
  length (default [] (node_children node)).
Proof.
  destruct node as [n [[|c cs]|]]; try reflexivity.
  unfold direct_children. cbn. now rewrite length_map.
Qed.

(** Every document describes the whole fetched tree: its entries carry the
    ids, types and depths of the node's tree in document order, whether or
    not image URLs were merged; [totalDescendants] is the number of the
    tree's nodes without the root, [directChildrenCount] the number of the
    root's children (never more than [totalDescendants]), and the two
    counts of the component analysis are the lengths of its two lists. *)
Theorem document_describes_the_tree (w : World) (d : OutputData) :
  fst (getNodeStructure w) = Some d ->
  exists node,
    (exists nodeData,
       makeRequest w (nodes_path w) = Resolved nodeData /\
       nodes nodeData ≫= (fun ns => ns !! NODE_ID w) = Some node) /\
    nodeId d = NODE_ID w /\
    map entry_label (entries (structure d)) =
      map node_label (node_preorder node 0) /\
    (totalDescendants d + 1 = count_nodes node)%nat /\
    directChildrenCount d = length (default [] (node_children node)) /\
    (directChildrenCount d <= totalDescendants d)%nat /\
    instanceCount (componentAnalysis d) =
      length (instances (componentAnalysis d)) /\
    componentCount (componentAnalysis d) =
      length (components (componentAnalysis d)).
Proof.
  intros Hd.
  destruct (run_cases w) as [(m & Hrun) | (node & tree & Hnode & Htree & Hrun)].
  - rewrite Hrun in Hd. discriminate Hd.
  - assert (Hdoc : d = outputData_of w node tree).
    { destruct Hrun as [Hrun | (m & Hrun)]; rewrite Hrun in Hd;
        now injection Hd as <-. }
    assert (Hlabels : map entry_label (entries tree) =
                      map node_label (node_preorder node 0)).
    { destruct Htree as [-> | (urls & ->)]; [apply extract_labels|].
      rewrite entries_addImageUrls, map_map, <- extract_labels.
      apply map_ext. intros e. unfold annotate.
      now destruct (if_truthy _). }
    assert (Htotal : countAllChildren tree =
                     countAllChildren (extractNodeStructure node 0)).
    { destruct Htree as [-> | (urls & ->)];
        [reflexivity | apply countAllChildren_addImageUrls]. }
    assert (Hdirect : direct_children tree =
                      direct_children (extractNodeStructure node 0)).
    { destruct Htree as [-> | (urls & ->)];
        [reflexivity | apply direct_children_addImageUrls]. }
    exists node. subst d. cbn.
    split; [exact Hnode|]. split; [reflexivity|]. split; [exact Hlabels|].
    pose proof (countAllChildren_entries (extractNodeStructure node 0)) as Hc.
    rewrite count_entries_extract in Hc.
    pose proof (direct_le_all tree) as Hle.
    rewrite Hdirect, direct_children_extract.
    rewrite Hdirect, direct_children_extract in Hle.
    rewrite Htotal in *.
    repeat split; try reflexivity; lia.
Qed.

Lemma filter_none {A} (test : A -> bool) (l : list A) :
  Forall (fun x => test x = false) l -> List.filter test l = [].
Proof.
  induction 1 as [|x l Hx _ IH]; [reflexivity|].
  cbn [List.filter]. now rewrite Hx.
Qed.

(** When no node of the fetched tree has a fill of type IMAGE, the run does
    not depend on the image service: the document is built from the walked
    tree as it is and no diagnostic is written. *)
Theorem no_image_fill_no_image_step
    (w : World) (nodeData : Response) (node : Node) :
  makeRequest w (nodes_path w) = Resolved nodeData ->
  nodes nodeData ≫= (fun ns => ns !! NODE_ID w) = Some node ->
  Forall (fun p => has_image_fill (fst p) = false) (node_preorder node 0) ->
  getNodeStructure w =
    (Some (outputData_of w node (extractNodeStructure node 0)), []).
Proof.
  intros Hreq Hnode Hnone.
  unfold getNodeStructure. rewrite Hreq, Hnode.
  rewrite (collect_by_fill node 0).
  now rewrite (filter_none _ _ Hnone).
Qed.


(** ** The image step cannot abort the run (C7) *)

Lemma without_imageUrl_fixed (l : list Entry) :
  Forall (fun e => s_imageUrl e = None) l -> map without_imageUrl l = l.
Proof.
  induction 1 as [|e l He _ IH]; [reflexivity|].
  cbn [map]. rewrite IH. f_equal.
  destruct e. cbn in He. subst. reflexivity.
Qed.

Lemma annotate_resolved urls e :
  s_imageUrl e = None ->
  s_imageUrl (annotate urls e) = resolved_url urls (s_id e).
Proof.
  intros He. unfold annotate, resolved_url, id_key, if_truthy, truthy_string.
  destruct (urls !! default "undefined" (s_id e)) as [url|]; [|exact He].
  destruct (String.eqb url ""); [exact He | reflexivity].
Qed.

Lemma merged_document_reports w node urls :
  reports w node
    (outputData_of w node (addImageUrls urls (extractNodeStructure node 0))).
Proof.
  unfold reports, outputData_of.
  cbn [nodeId nodeName nodeType extractedAt directChildrenCount
       totalDescendants structure componentAnalysis components instances
       componentCount instanceCount].
  destruct (analyze_by_type
              (addImageUrls urls (extractNodeStructure node 0)))
    as [Hcomponents Hinstances].
  repeat split.
  - now rewrite direct_children_addImageUrls, direct_children_extract.
  - rewrite countAllChildren_addImageUrls.
    pose proof (countAllChildren_entries (extractNodeStructure node 0)) as H.
    rewrite count_entries_extract in H. lia.
  - rewrite entries_addImageUrls, map_map.
    rewrite (map_ext _ without_imageUrl (fun e => annotate_keeps_rest urls e)).
    apply without_imageUrl_fixed, extract_no_imageUrl.
  - rewrite entries_addImageUrls, map_map, <- extract_labels.
    apply map_ext. intros e. unfold annotate.
    now destruct (if_truthy _).
  - exact Hcomponents.
  - exact Hinstances.
  - rewrite Hcomponents. unfold count_where. now rewrite length_map.
  - rewrite Hinstances. unfold count_where. now rewrite length_map.
Qed.

(** C7.  Once the node is fetched and the tree has image nodes, so that the
    one batched request is made.  If that request fails, [getImages]
    returns the empty mapping with one warning, and the run still produces
    the whole document with this warning as its only diagnostic: the
    document carries the requested id, the node's name and type, the
    timestamp, the child and descendant counts of the node, one entry per
    node and the component analysis of the entries; its tree is the walked
    tree as it is, so no entry has an [imageUrl].  If the request succeeds,
    the run writes no diagnostic and produces the same document, except that
    an entry has the [imageUrl] the response gives for its id, and none when
    the response has none for it. *)
Theorem image_failure_is_isolated
    (w : World) (nodeData : Response) (node : Node) :
  makeRequest w (nodes_path w) = Resolved nodeData ->
  nodes nodeData ≫= (fun ns => ns !! NODE_ID w) = Some node ->
  collectImageNodes node <> [] ->
  (forall message,
     makeRequest w (images_path (FILE_KEY w) (collectImageNodes node)) =
       Rejected message ->
     getImages w (FILE_KEY w) (collectImageNodes node) =
       (∅, [Warn "Could not fetch images:" message]) /\
     exists d,
       getNodeStructure w =
         (Some d, [Warn "Could not fetch images:" message]) /\
       reports w node d /\
       structure d = extractNodeStructure node 0 /\
       Forall (fun e => s_imageUrl e = None) (entries (structure d))) /\
  (forall imageData,
     makeRequest w (images_path (FILE_KEY w) (collectImageNodes node)) =
       Resolved imageData ->
     getImages w (FILE_KEY w) (collectImageNodes node) =
       (default ∅ (images imageData), []) /\
     exists d,
       getNodeStructure w = (Some d, []) /\
       reports w node d /\
       map s_imageUrl (entries (structure d)) =
         map (fun e => resolved_url (default ∅ (images imageData)) (s_id e))
             (entries (extractNodeStructure node 0))).
Proof.
  intros Hnode Hfound Hids.
  split.
  - intros message Himages.
    assert (Hget : getImages w (FILE_KEY w) (collectImageNodes node) =
                   (∅, [Warn "Could not fetch images:" message])).
    { unfold getImages. now rewrite Himages. }
    split; [exact Hget|].
    exists (outputData_of w node (extractNodeStructure node 0)).
    split; [|split; [|split]].
    + unfold getNodeStructure. rewrite Hnode, Hfound.
      destruct (collectImageNodes node) as [|i ids] eqn:Hcollect;
        [congruence|].
      rewrite Hget. now rewrite addImageUrls_empty.
    + rewrite <- (addImageUrls_empty (extractNodeStructure node 0)) at 1.
      apply merged_document_reports.
    + reflexivity.
    + apply extract_no_imageUrl.
  - intros imageData Himages.
    assert (Hget : getImages w (FILE_KEY w) (collectImageNodes node) =
                   (default ∅ (images imageData), [])).
    { unfold getImages. now rewrite Himages. }
    split; [exact Hget|].
    exists (outputData_of w node
              (addImageUrls (default ∅ (images imageData))
                 (extractNodeStructure node 0))).
    split; [|split].
    + unfold getNodeStructure. rewrite Hnode, Hfound.
      destruct (collectImageNodes node) as [|i ids] eqn:Hcollect;
        [congruence|].
      now rewrite Hget.
    + apply merged_document_reports.
    + cbn [structure outputData_of].
      rewrite entries_addImageUrls, map_map.
      apply map_ext_Forall.
      eapply Forall_impl; [apply extract_no_imageUrl|].
      intros e He. now apply annotate_resolved.
Qed.

(** The scenario tree with a failing and with a working image service: in
    both runs the document is that of node 1:1, a FRAME named Card with two
    children and two descendants; only the image URL of the third entry
    differs. *)
Lemma image_failure_is_isolated_witness :
  (exists d,
     getNodeStructure (without_images "2024-01-01T00:00:00.000Z"
                         scenario_response) =
       (Some d, [Warn "Could not fetch images:" "socket hang up"]) /\
     nodeId d = "1:1" /\ nodeName d = Some "Card" /\
     nodeType d = Some "FRAME" /\
     extractedAt d = "2024-01-01T00:00:00.000Z" /\
     directChildrenCount d = 2%nat /\ totalDescendants d = 2%nat /\
     map s_imageUrl (entries (structure d)) = [None; None; None]) /\
  (exists d,
     getNodeStructure (serving "file" "1:1" "2024-01-01T00:00:00.000Z"
                         scenario_response) = (Some d, []) /\
     nodeId d = "1:1" /\ nodeName d = Some "Card" /\
     nodeType d = Some "FRAME" /\
     extractedAt d = "2024-01-01T00:00:00.000Z" /\
     directChildrenCount d = 2%nat /\ totalDescendants d = 2%nat /\
     map s_imageUrl (entries (structure d)) =
       [None; None; Some "https://img.example/1-8.png"]).
Proof.
  split.
  - destruct (image_failure_is_isolated
                (without_images "2024-01-01T00:00:00.000Z" scenario_response)
                scenario_response scenario_tree eq_refl eq_refl)
      as [Hfail _]; [vm_compute; discriminate|].
    destruct (Hfail "socket hang up" eq_refl)
      as (_ & d & Hrun & Hreports & Htree & _).
    destruct Hreports
      as (Hid & Hname & Htype & Hat & Hdirect & Htotal & _).
    exists d. split; [exact Hrun|].
    split; [exact Hid|]. split; [exact Hname|]. split; [exact Htype|].
    split; [exact Hat|]. split; [exact Hdirect|].
    split; [|rewrite Htree; vm_compute; reflexivity].
    change (count_nodes scenario_tree) with 3%nat in Htotal. lia.
  - destruct (image_failure_is_isolated
                (serving "file" "1:1" "2024-01-01T00:00:00.000Z"
                   scenario_response)
                scenario_response scenario_tree eq_refl eq_refl)
      as [_ Hok]; [vm_compute; discriminate|].
    destruct (Hok scenario_response eq_refl)
      as (_ & d & Hrun & Hreports & Hurls).
    destruct Hreports
      as (Hid & Hname & Htype & Hat & Hdirect & Htotal & _).
    exists d. split; [exact Hrun|].
    split; [exact Hid|]. split; [exact Hname|]. split; [exact Htype|].
    split; [exact Hat|]. split; [exact Hdirect|].
    split; [|rewrite Hurls; vm_compute; reflexivity].
    change (count_nodes scenario_tree) with 3%nat in Htotal. lia.
Defined.

(** * Further properties of the style extractor *)

(** ** Colour classes *)

Lemma color_class_prefixed table prefix rgb alpha :
  (forall rest, String.prefix (prefix +:+ "-") (prefix +:+ "-" +:+ rest) = true) ->
  forallb (String.prefix (prefix +:+ "-")) (map snd table) = true ->
  String.prefix (prefix +:+ "-") (color_class table prefix rgb alpha) = true.
Proof.
  intros Hself Htable. unfold color_class.
  assert (Hname : forall name, if_truthy (lookup_key table rgb) = Some name ->
                    String.prefix (prefix +:+ "-") name = true).
  { intros name Hname. unfold if_truthy in Hname.
    destruct (lookup_key table rgb) as [t|] eqn:Ht; [|discriminate].
    destruct (truthy_string t); [|discriminate]. injection Hname as <-.
    rewrite forallb_forall in Htable. apply Htable.
    now apply lookup_key_In in Ht. }
  destruct (Num.eqb alpha one).
  - destruct (if_truthy (lookup_key table rgb)) as [name|];
      [now apply Hname|].
    destruct (Num.ltb alpha one); apply (Hself ("[rgb(" +:+ _)).
  - destruct (Num.ltb alpha one); apply (Hself ("[rgb(" +:+ _)).
Qed.

Lemma paint_class_prefixed table prefix paints cls :
  (forall rest, String.prefix (prefix +:+ "-") (prefix +:+ "-" +:+ rest) = true) ->
  forallb (String.prefix (prefix +:+ "-")) (map snd table) = true ->
  paint_class table prefix paints = Some cls ->
  String.prefix (prefix +:+ "-") cls = true.
Proof.
  intros Hself Htable. unfold paint_class.
  destruct (has_items paints); [|discriminate].
  destruct (find visible_solid (default [] paints)) as [p|]; [|discriminate].
  destruct (p_color p) as [c|]; [|discriminate].
  intros [= <-]. now apply color_class_prefixed.
Qed.

(** Every colour class is in its own namespace: a background class starts
    with [bg-], a border colour class with [border-], a text colour class
    with [text-]; and only a TEXT node gets a text colour class. *)
Theorem colour_classes_are_prefixed (n : Attrs) (cls : string) :
  (tw_backgroundColor n = Some cls -> String.prefix "bg-" cls = true) /\
  (tw_borderColor n = Some cls -> String.prefix "border-" cls = true) /\
  (tw_textColor n = Some cls ->
   String.prefix "text-" cls = true /\ n_type n = Some "TEXT").
Proof.
  split; [|split].
  - apply (paint_class_prefixed commonColors "bg");
      [intros []; reflexivity | reflexivity].
  - apply (paint_class_prefixed commonBorderColors "border");
      [intros []; reflexivity | reflexivity].
  - unfold tw_textColor, is_string.
    destruct (n_type n) as [t|]; [|discriminate].
    destruct (String.eqb_spec t "TEXT") as [-> | _]; [|discriminate].
    intros H. split; [|reflexivity].
    revert H. apply (paint_class_prefixed commonTextColors "text");
      [intros []; reflexivity | reflexivity].
Qed.

(** A white fill on a text node. *)
Lemma colour_classes_are_prefixed_witness :
  String.prefix "bg-" "bg-black" = true /\
  String.prefix "text-" "text-black" = true /\
  n_type sample_text = Some "TEXT".
Proof.
  destruct (colour_classes_are_prefixed sample_text "bg-black")
    as (Hbg & _ & _).
  destruct (colour_classes_are_prefixed sample_text "text-black")
    as (_ & _ & Htext).
  split; [apply Hbg; reflexivity|]. apply Htext. reflexivity.
Defined.

(** The first visible solid fill of a TEXT node gives two classes in its
    class list: a background class and a text colour class, both from the
    same colour key and opacity. *)
Theorem text_fill_gives_two_classes
    (n : Attrs) (fills : list Paint) (p : Paint) (c : Color) :
  n_type n = Some "TEXT" ->
  n_fills n = Some fills ->
  find visible_solid fills = Some p ->
  p_color p = Some c ->
  tw_backgroundColor n =
    Some (color_class commonColors "bg" (rgb_key c) (or_one (p_opacity p))) /\
  tw_textColor n =
    Some (color_class commonTextColors "text" (rgb_key c)
            (or_one (p_opacity p))) /\
  In (color_class commonColors "bg" (rgb_key c) (or_one (p_opacity p)))
     (tailwindClasses n) /\
  In (color_class commonTextColors "text" (rgb_key c) (or_one (p_opacity p)))
     (tailwindClasses n).
Proof.
  intros Htype Hfills Hfind Hcolor.
  assert (Hbg : tw_backgroundColor n =
    Some (color_class commonColors "bg" (rgb_key c) (or_one (p_opacity p)))).
  { unfold tw_backgroundColor. rewrite Hfills.
    apply (paint_class_first _ _ _ _ _ Hfind Hcolor). }
  assert (Htx : tw_textColor n =
    Some (color_class commonTextColors "text" (rgb_key c)
            (or_one (p_opacity p)))).
  { unfold tw_textColor. rewrite Htype, Hfills. cbn [is_string].
    apply (paint_class_first _ _ _ _ _ Hfind Hcolor). }
  split; [exact Hbg|]. split; [exact Htx|].
  assert (Htruthy : forall prefix cls,
            String.prefix (prefix +:+ "-") cls = true ->
            prefix <> "" -> if_truthy (Some cls) = Some cls).
  { intros prefix cls Hp Hne. unfold if_truthy, truthy_string.
    destruct cls; [|reflexivity].
    destruct prefix; [congruence | discriminate Hp]. }
  split.
  - assert (H : if_truthy (tw_backgroundColor n) =
      Some (color_class commonColors "bg" (rgb_key c) (or_one (p_opacity p)))).
    { rewrite Hbg. apply (Htruthy "bg"); [|discriminate].
      apply (paint_class_prefixed commonColors "bg" (Some fills));
        [intros []; reflexivity | reflexivity |].
      apply (paint_class_first _ _ _ _ _ Hfind Hcolor). }
    field_in_classes H.
  - assert (H : if_truthy (tw_textColor n) =
      Some (color_class commonTextColors "text" (rgb_key c)
              (or_one (p_opacity p)))).
    { rewrite Htx. apply (Htruthy "text"); [|discriminate].
      apply (paint_class_prefixed commonTextColors "text" (Some fills));
        [intros []; reflexivity | reflexivity |].
      apply (paint_class_first _ _ _ _ _ Hfind Hcolor). }
    field_in_classes H.
Qed.

(** The sample text node with its black fill. *)
Lemma text_fill_gives_two_classes_witness :
  In "bg-black" (tailwindClasses sample_text) /\
  In "text-black" (tailwindClasses sample_text).
Proof.
  destruct (text_fill_gives_two_classes sample_text
              [solid {| r := zero; g := zero; b := zero; a := None |}
                 None None]
              (solid {| r := zero; g := zero; b := zero; a := None |}
                 None None)
              {| r := zero; g := zero; b := zero; a := None |}
              eq_refl eq_refl eq_refl eq_refl) as (_ & _ & Hbg & Htx).
  split; [exact Hbg | exact Htx].
Defined.


(** An arbitrary-value colour class embeds the key with its two spaces: in
    a class string split at spaces it is three pieces, not one token. *)
Theorem arbitrary_colour_is_three_pieces
    (n : Attrs) (fills : list Paint) (p : Paint) (c : Color) :
  n_fills n = Some fills ->
  find visible_solid fills = Some p ->
  p_color p = Some c ->
  p_opacity p = None ->
  lookup_key commonColors (color_key c) = None ->
  exists cls,
    tw_backgroundColor n = Some cls /\
    tokens cls =
      [ "bg-[rgb(" +:+ pretty (channel (r c)); pretty (channel (g c));
        pretty (channel (b c)) +:+ ")]" ].
Proof.
  intros Hfills Hfind Hcolor Hopacity Hkey.
  exists ("bg-[rgb(" +:+ color_key c +:+ ")]"). split.
  - unfold tw_backgroundColor. rewrite Hfills.
    rewrite (paint_class_first _ _ _ _ _ Hfind Hcolor), Hopacity.
    change (rgb_key c) with (color_key c).
    rewrite or_one_absent, color_class_opaque by reflexivity.
    now rewrite Hkey.
  - assert (E : "bg-[rgb(" +:+ color_key c +:+ ")]" =
                ("bg-[rgb(" +:+ pretty (channel (r c))) +:+ " " +:+
                pretty (channel (g c)) +:+ " " +:+
                (pretty (channel (b c)) +:+ ")]")).
    { unfold color_key. now rewrite !append_assoc. }
    rewrite E. unfold tokens.
    rewrite split_spaces_token
      by (rewrite no_space_app, no_space_pretty_Z; reflexivity).
    rewrite split_spaces_token by apply no_space_pretty_Z.
    rewrite split_spaces_last
      by (rewrite no_space_app, no_space_pretty_Z; reflexivity).
    reflexivity.
Qed.

(** The near-white fill: [bg-[rgb(255 255 254)]] is three pieces. *)
Lemma arbitrary_colour_is_three_pieces_witness :
  exists cls,
    tw_backgroundColor
      (painted (Some "1:2") (Some "RECTANGLE")
         (Some [solid off_white None None]) None None) = Some cls /\
    tokens cls = ["bg-[rgb(255"; "255"; "254)]"].
Proof.
  destruct (arbitrary_colour_is_three_pieces
              (painted (Some "1:2") (Some "RECTANGLE")
                 (Some [solid off_white None None]) None None)
              [solid off_white None None] (solid off_white None None)
              off_white eq_refl eq_refl eq_refl eq_refl eq_refl)
    as (cls & Hcls & Htokens).
  exists cls. split; [exact Hcls|]. rewrite Htokens. reflexivity.
Defined.

(** ** Opacity, shadows, fonts and sizes *)

Lemma percent_range o :
  unit_interval o -> 0 <= Num.Math_round (Num.mulZ o 100) <= 100.
Proof.
  rewrite unit_interval_spec. intros [Hlo Hhi].
  unfold Num.Math_round, Num.mulZ. cbn [Num.mant Num.scale].
  pose proof (pow10_pos (Num.scale o)) as HP.
  split.
  - apply Z.div_pos; lia.
  - apply Z.lt_succ_r. apply Z.div_lt_upper_bound; lia.
Qed.

(** A node opacity in [0,1] other than 1 gives the class [opacity-[k%]] with
    an integer k of 0..100, and the class is in the node's class list; a
    node opacity of 0 is kept as [opacity-[0%]].  An opacity equal to 1
    gives no opacity class. *)
Theorem opacity_class_is_a_percentage (n : Attrs) (o : num) :
  n_opacity n = Some o ->
  unit_interval o ->
  (Num.eqb o one = true -> tw_opacity n = None) /\
  (Num.eqb o one = false ->
   exists k, 0 <= k <= 100 /\
     tw_opacity n = Some ("opacity-[" +:+ pretty k +:+ "%]") /\
     In ("opacity-[" +:+ pretty k +:+ "%]") (tailwindClasses n)) /\
  (Num.eqb o zero = true ->
   tw_opacity n = Some "opacity-[0%]").
Proof.
  intros Ho Hunit. unfold tw_opacity. rewrite Ho.
  split; [now intros ->|]. split.
  - intros Hne. rewrite Hne.
    exists (Num.Math_round (Num.mulZ o 100)).
    split; [now apply percent_range|]. split; [reflexivity|].
    assert (H : if_truthy (tw_opacity n) =
                Some ("opacity-[" +:+
                      pretty (Num.Math_round (Num.mulZ o 100)) +:+ "%]")).
    { unfold tw_opacity. rewrite Ho, Hne. reflexivity. }
    field_in_classes H.
  - intros Hzero.
    assert (Hm : Num.mant o = 0).
    { unfold Num.eqb, zero, Num.of_Z in Hzero. cbn [Num.mant Num.scale] in Hzero.
      change (Num.pow10 0) with 1 in Hzero. apply Z.eqb_eq in Hzero. lia. }
    assert (Hne : Num.eqb o one = false).
    { unfold Num.eqb, one, Num.of_Z. cbn [Num.mant Num.scale].
      rewrite Hm. apply Z.eqb_neq.
      pose proof (pow10_pos (Num.scale o)). lia. }
    rewrite Hne. unfold Num.Math_round, Num.mulZ. cbn [Num.mant Num.scale].
    rewrite Hm. cbn [Z.mul Z.add].
    rewrite Z.div_small; [reflexivity|].
    pose proof (pow10_pos (Num.scale o)). lia.
Qed.

(** Opacity one half and opacity zero. *)
Lemma opacity_class_is_a_percentage_witness :
  (exists k, 0 <= k <= 100 /\
     tw_opacity sample_text = Some ("opacity-[" +:+ pretty k +:+ "%]") /\
     In ("opacity-[" +:+ pretty k +:+ "%]") (tailwindClasses sample_text)) /\
  tw_opacity (shadowed None (Some zero)) = Some "opacity-[0%]".
Proof.
  split.
  - destruct (opacity_class_is_a_percentage sample_text (Num.Num 5 1) eq_refl)
      as (_ & Hpercent & _); [split; reflexivity|].
    exact (Hpercent eq_refl).
  - apply (opacity_class_is_a_percentage (shadowed None (Some zero)) zero
             eq_refl); [split; reflexivity | reflexivity].
Defined.


Lemma or_one_at_least_one al :
  Num.ltb al one = false -> Num.ltb (or_one (Some al)) one = false.
Proof.
  intros H. unfold or_one. destruct (Num.truthy al); [exact H | reflexivity].
Qed.

(** The alpha of a drop shadow is read like the opacity of a paint: when
    the colour has no alpha, an alpha of 0 or an alpha not below 1, the
    shadow class ends with the colour key alone; only an alpha strictly
    between 0 and 1 is embedded. *)
Theorem shadow_alpha_defaults_to_opaque
    (n : Attrs) (effects : list Effect) (e : Effect) :
  n_effects n = Some effects ->
  find visible_drop_shadow effects = Some e ->
  ((a (e_color e) = None \/
    exists al, a (e_color e) = Some al /\
      (Num.eqb al zero = true \/ Num.ltb al one = false)) ->
   tw_shadow n = Some (shadow_geometry e +:+ ")]")) /\
  (forall al, a (e_color e) = Some al -> strictly_between al ->
   tw_shadow n =
   Some (shadow_geometry e +:+ "/" +:+ Num.toString al +:+ ")]")).
Proof.
  intros Heffects Hfind. unfold tw_shadow. rewrite Heffects.
  destruct effects as [|e0 es]; [discriminate Hfind|].
  cbn [has_items]. change (default [] (Some (e0 :: es))) with (e0 :: es).
  rewrite Hfind. fold (shadow_geometry e).
  split.
  - intros [-> | (al & -> & [Hzero | Hge])].
    + reflexivity.
    + now rewrite (or_one_zero _ Hzero).
    + now rewrite (or_one_at_least_one _ Hge).
  - intros al -> [Hpos Hlt].
    now rewrite (or_one_nonzero _ (ltb_zero_not_zero _ Hpos)), Hlt.
Qed.

(** A black shadow with alpha 0 and with alpha 0.25. *)
Lemma shadow_alpha_defaults_to_opaque_witness :
  tw_shadow (shadowed (Some [drop_shadow (Some zero)]) None) =
    Some "shadow-[0px_4px_8px_rgb(0 0 0)]" /\
  tw_shadow (shadowed (Some [drop_shadow (Some (Num.Num 25 2))]) None) =
    Some "shadow-[0px_4px_8px_rgb(0 0 0/0.25)]".
Proof.
  split.
  - apply (shadow_alpha_defaults_to_opaque
             (shadowed (Some [drop_shadow (Some zero)]) None)
             [drop_shadow (Some zero)] (drop_shadow (Some zero))
             eq_refl eq_refl).
    right. exists zero. split; [reflexivity | now left].
  - destruct (shadow_alpha_defaults_to_opaque
                (shadowed (Some [drop_shadow (Some (Num.Num 25 2))]) None)
                [drop_shadow (Some (Num.Num 25 2))]
                (drop_shadow (Some (Num.Num 25 2)))
                eq_refl eq_refl) as [_ Hbetween].
    apply (Hbetween (Num.Num 25 2) eq_refl). split; reflexivity.
Defined.

(** For a font whose family and style are not the name of a property that
    every object inherits ([constructor], [toString], ...): a font weight
    class is one of the six names of the weight table, and [font-normal]
    for every style the table does not know; it is only given together with
    a font family class.  (For an inherited name the table lookup of the
    source gives the inherited value, which is no class.) *)
Theorem font_weight_is_known (n : Attrs) :
  own_font_keys n = true ->
  (forall cls, tw_fontWeight n = Some cls ->
     In cls [ "font-normal"; "font-medium"; "font-semibold"; "font-bold";
              "font-light"; "font-thin" ] /\
     exists familyClass, tw_fontFamily n = Some familyClass) /\
  (forall f st, n_fontName n = Some f -> style f = Some st ->
     truthy_string st = true -> lookup_key weightMap st = None ->
     tw_fontWeight n = Some "font-normal").
Proof.
  intros _. unfold tw_fontWeight, tw_fontFamily. split.
  - intros cls. destruct (n_fontName n) as [f|]; [|discriminate].
    destruct (if_truthy (style f)) as [st|]; [|discriminate].
    intros H. apply (inj Some) in H. subst cls. split; [|eauto].
    unfold or_else, if_truthy.
    destruct (lookup_key weightMap st) as [t|] eqn:Ht; [|now left].
    apply lookup_key_In in Ht. cbn in Ht.
    repeat (destruct Ht as [<- | Ht]; [cbn; tauto|]). destruct Ht.
  - intros f st -> Hst Htruthy Hmiss.
    unfold if_truthy, or_else. rewrite Hst, Htruthy, Hmiss. reflexivity.
Qed.

(** The style [Black] is not in the table. *)
Lemma font_weight_is_known_witness :
  tw_fontWeight
    (entry_attrs_with_font {| family := "Inter"; style := Some "Black" |}) =
    Some "font-normal".
Proof.
  destruct (font_weight_is_known
              (entry_attrs_with_font
                 {| family := "Inter"; style := Some "Black" |}) eq_refl)
    as [_ Hunknown].
  apply (Hunknown {| family := "Inter"; style := Some "Black" |} "Black");
    reflexivity.
Defined.

Lemma Math_round_integer v k : Num.is_int v k = true -> Num.Math_round v = k.
Proof.
  rewrite is_int_spec. intros Hm. unfold Num.Math_round. rewrite Hm.
  pose proof (pow10_pos (Num.scale v)) as HP.
  symmetry. apply (Z.div_unique _ _ k (Num.pow10 (Num.scale v))); lia.
Qed.

(** A bounding box whose width and height are integers gives the width and
    height classes with exactly these integers. *)
Theorem integral_box_is_verbatim (n : Attrs) (bb : Rect) (w h : Z) :
  n_absoluteBoundingBox n = Some bb ->
  Num.is_int (width bb) w = true ->
  Num.is_int (height bb) h = true ->
  tw_width n = Some ("w-[" +:+ pretty w +:+ "px]") /\
  tw_height n = Some ("h-[" +:+ pretty h +:+ "px]").
Proof.
  intros Hbb Hw Hh. unfold tw_width, tw_height. rewrite Hbb.
  now rewrite (Math_round_integer _ _ Hw), (Math_round_integer _ _ Hh).
Qed.

(** A box of 375.0 by 812. *)
Lemma integral_box_is_verbatim_witness :
  tw_width (boxed {| bb_x := zero; bb_y := zero;
                     width := Num.Num 3750 1; height := Num.of_Z 812 |}) =
    Some "w-[375px]" /\
  tw_height (boxed {| bb_x := zero; bb_y := zero;
                      width := Num.Num 3750 1; height := Num.of_Z 812 |}) =
    Some "h-[812px]".
Proof.
  apply (integral_box_is_verbatim
           (boxed {| bb_x := zero; bb_y := zero;
                     width := Num.Num 3750 1; height := Num.of_Z 812 |})
           {| bb_x := zero; bb_y := zero;
              width := Num.Num 3750 1; height := Num.of_Z 812 |}
           375 812 eq_refl eq_refl eq_refl).
Defined.


(** * The structure-only script *)

(** The structure-only script and the enhanced script walk alike: stripped
    of all but id, name, type, depth and nesting, the tree of the enhanced
    walk is the tree of the structural walk. *)
Theorem enhanced_walk_refines_outline (node : Node) (depth : nat) :
  skeleton (extractNodeStructure node depth) =
  FileStructure.extractNodeStructure node depth.
Proof.
  revert depth.
  induction node as [n | n cs IH] using Node_tree_ind; intros depth.
  - reflexivity.
  - destruct cs as [|c cs]; [reflexivity|].
    cbn [extractNodeStructure FileStructure.extractNodeStructure skeleton].
    cbn [entry_for s_id s_name s_type s_depth].
    do 2 f_equal. rewrite map_map. apply map_ext_Forall.
    eapply Forall_impl; [exact IH|]. intros child Hc. apply Hc.
Qed.

Lemma outline_deepen node :
  forall depth,
    FileStructure.extractNodeStructure node (S depth) =
    FileStructure.deepen (FileStructure.extractNodeStructure node depth).
Proof.
  induction node as [n | n cs IH] using Node_tree_ind; intros depth.
  - reflexivity.
  - destruct cs as [|c cs]; [reflexivity|].
    cbn [FileStructure.extractNodeStructure FileStructure.deepen].
    cbn [FileStructure.o_id FileStructure.o_name FileStructure.o_type
         FileStructure.o_depth FileStructure.o_pageIndex].
    do 2 f_equal. rewrite map_map. apply map_ext_Forall.
    eapply Forall_impl; [exact IH|]. intros child Hc. apply Hc.
Qed.

Lemma without_set_pageIndex index node :
  FileStructure.without_pageIndex
    (FileStructure.set_pageIndex index
       (FileStructure.extractNodeStructure node 0)) =
  FileStructure.extractNodeStructure node 0.
Proof. destruct node as [n [[|c cs]|]]; reflexivity. Qed.

(** In the file document, [totalPages] is the number of [pages]; page
    number i carries [pageIndex] i and starts again at depth 0; and the
    children of [document] are these same pages one level further down,
    without the page index. *)
Theorem pages_are_the_document_children
    (w : FileStructure.FileWorld) (d : FileStructure.FileStructureData) :
  FileStructure.getFileStructure w = Some d ->
  FileStructure.totalPages d = length (FileStructure.pages d) /\
  (forall i page, FileStructure.pages d !! i = Some page ->
     FileStructure.o_pageIndex (FileStructure.outline_entry page) = Some i /\
     FileStructure.o_depth (FileStructure.outline_entry page) = 0%nat) /\
  default [] (FileStructure.outline_children (FileStructure.fs_document d)) =
    map (fun page =>
           FileStructure.deepen (FileStructure.without_pageIndex page))
        (FileStructure.pages d).
Proof.
  unfold FileStructure.getFileStructure.
  destruct (FileStructure.makeRequest w _) as [response|]; [|discriminate].
  destruct (FileStructure.document response) as [doc|]; [|discriminate].
  intros [= <-].
  cbn [FileStructure.totalPages FileStructure.pages FileStructure.fs_document].
  split; [now rewrite length_imap|]. split.
  - intros i page. rewrite list_lookup_imap.
    destruct (default [] (node_children doc) !! i) as [node|]; [|discriminate].
    intros [= <-]. destruct node as [n [[|c cs]|]]; split; reflexivity.
  - destruct doc as [n [cs|]]; [|reflexivity].
    cbn [node_children]. change (default [] (Some cs)) with cs.
    assert (Hpages :
      map (fun page =>
             FileStructure.deepen (FileStructure.without_pageIndex page))
          (imap (fun index page =>
                   FileStructure.set_pageIndex index
                     (FileStructure.extractNodeStructure page 0)) cs) =
      map (fun child => FileStructure.extractNodeStructure child 1) cs).
    { change (map ?f ?l) with (f <$> l). rewrite fmap_imap.
      rewrite <- (imap_const
                    (fun child => FileStructure.extractNodeStructure child 1)).
      apply imap_ext. intros i node _. cbn [compose const].
      now rewrite without_set_pageIndex, outline_deepen. }
    rewrite Hpages. destruct cs as [|c cs]; reflexivity.
Qed.

(** The file of two pages. *)
Lemma pages_are_the_document_children_witness :
  exists d,
    FileStructure.getFileStructure (file_world (Some two_pages)) = Some d /\
    FileStructure.totalPages d = 2%nat /\
    FileStructure.totalPages d = length (FileStructure.pages d).
Proof.
  eexists. split; [reflexivity|]. split; [reflexivity|].
  apply (pages_are_the_document_children (file_world (Some two_pages))).
  reflexivity.
Defined.

(** * The responsive-layout script *)

Lemma leb_of_Z k c : Num.leb (Num.of_Z k) (Num.of_Z c) = (k <=? c).
Proof.
  unfold Num.leb, Num.of_Z. cbn [Num.mant Num.scale].
  change (Num.pow10 0) with 1. now rewrite !Z.mul_1_r.
Qed.

(** For a width that is a non-negative integer, [categorizeByBreakpoint]
    agrees with the [breakpoints] table written beside its result: the
    width falls in the class whose [min..max] row contains it, and in no
    other. *)
Theorem breakpoint_matches_table (k : Z) (label : string)
    (range : Z * option Z) :
  0 <= k ->
  In (label, range) breakpoints ->
  (categorizeByBreakpoint (Num.of_Z k) = label <-> in_range k range).
Proof.
  intros Hk Hin. unfold categorizeByBreakpoint, in_range.
  rewrite !leb_of_Z.
  cbn in Hin.
  destruct Hin as [[= <- <-] | [[= <- <-] | [[= <- <-] | [[= <- <-] | []]]]];
    cbn [fst snd];
    destruct (Z.leb_spec k 480) as [H1|H1];
    destruct (Z.leb_spec k 768) as [H2|H2];
    destruct (Z.leb_spec k 1200) as [H3|H3];
    split; intros H; try reflexivity; try discriminate H; try lia.
Qed.

(** A width of 768 is a tablet width. *)
Lemma breakpoint_matches_table_witness :
  categorizeByBreakpoint (Num.of_Z 768) = "tablet".
Proof.
  apply (breakpoint_matches_table 768 "tablet" (481, Some 768)).
  - lia.
  - right. left. reflexivity.
  - split; cbn; lia.
Defined.


(** * Runs on the scenario *)

(** The scenario with a working image service: three nodes, two of them
    below the root. *)
Lemma document_describes_the_tree_witness :
  exists d node,
    fst (getNodeStructure
           (serving "file" "1:1" "2024-01-01T00:00:00.000Z"
              scenario_response)) = Some d /\
    (totalDescendants d + 1 = count_nodes node)%nat /\
    (directChildrenCount d <= totalDescendants d)%nat.
Proof.
  eexists.
  destruct (document_describes_the_tree
              (serving "file" "1:1" "2024-01-01T00:00:00.000Z"
                 scenario_response) _ eq_refl)
    as (node & _ & _ & _ & Htotal & _ & Hle & _).
  exists node. split; [reflexivity|]. split; [exact Htotal | exact Hle].
Defined.

(** The malformed tree has no fill at all. *)
Lemma no_image_fill_no_image_step_witness :
  getNodeStructure
    (without_images "2024-01-01T00:00:00.000Z"
       {| nodes := Some {[ "1:1" := malformed_tree ]}; images := None |}) =
  (Some (outputData_of
           (without_images "2024-01-01T00:00:00.000Z"
              {| nodes := Some {[ "1:1" := malformed_tree ]};
                 images := None |})
           malformed_tree (extractNodeStructure malformed_tree 0)), []).
Proof.
  apply (no_image_fill_no_image_step
           (without_images "2024-01-01T00:00:00.000Z"
              {| nodes := Some {[ "1:1" := malformed_tree ]};
                 images := None |})
           {| nodes := Some {[ "1:1" := malformed_tree ]}; images := None |}
           malformed_tree).
  - reflexivity.
  - vm_compute. reflexivity.
  - repeat constructor.
Defined.

Example screens_layouts :
  (fun r => map (fun entry => (fst entry, map l_name (snd entry))) <$> r)
    (extractResponsiveLayouts lower screens []) =
  Some [ ("mobile", [Some "Mobile Home"]); ("large", [Some "Desktop 1440"]) ].
Proof. vm_compute. reflexivity. Qed.


(** ** Filing the layouts: [extractResponsiveLayouts] *)

Lemma push_layout_keys responsive key layout k :
  In k (map fst (push_layout responsive key layout)) ->
  k = key \/ In k (map fst responsive).
Proof.
  induction responsive as [|[k0 ls] rest IH]; cbn [push_layout map fst].
  - intros [<- | []]. now left.
  - destruct (String.eqb key k0); cbn [map fst]; [tauto|].
    intros [<- | Hin]; [right; now left|].
    destruct (IH Hin) as [-> | Hrest]; [now left | right; now right].
Qed.

Lemma push_layout_well_filed responsive key layout :
  well_filed responsive ->
  categorizeByBreakpoint (l_width layout) = key ->
  Num.truthy (l_width layout) = true ->
  well_filed (push_layout responsive key layout).
Proof.
  intros [Hnodup Hall] Hkey Htruthy.
  induction responsive as [|[k0 ls] rest IH]; cbn [push_layout].
  - split; [repeat constructor; intros []%elem_of_nil|].
    repeat constructor; [discriminate | now cbn | now cbn].
  - cbn [map fst] in Hnodup. apply NoDup_cons in Hnodup as [Hnot Hrest].
    apply Forall_cons in Hall as [[Hne Hls] Hall].
    destruct (String.eqb_spec key k0) as [-> | Hdiff].
    + split; [cbn [map fst]; apply NoDup_cons; now split|].
      constructor; [|exact Hall]. cbn [fst snd] in *. split.
      * destruct ls; discriminate.
      * apply Forall_app. split; [exact Hls|]. now repeat constructor.
    + destruct (IH Hrest Hall) as [IHnodup IHall].
      split; [|constructor; [now split | exact IHall]].
      cbn [map fst]. apply NoDup_cons. split; [|exact IHnodup].
      intros Hin%list_elem_of_In.
      apply push_layout_keys in Hin as [-> | Hin]; [congruence|].
      apply Hnot. now apply list_elem_of_In.
Qed.

Lemma record_frame_well_filed toLowerCase n c responsive recorded :
  well_filed responsive ->
  record_frame toLowerCase n c responsive = Some recorded ->
  well_filed recorded.
Proof.
  intros Hwf. unfold record_frame, truthy_width.
  destruct (is_string (n_type n) "FRAME"); [|now intros [= <-]].
  destruct (n_name n) as [name|]; [|discriminate].
  destruct (n_absoluteBoundingBox n) as [bb|]; [|now intros [= <-]].
  destruct (Num.truthy (width bb)) eqn:Htruthy; [|now intros [= <-]].
  destruct (looks_responsive toLowerCase (toLowerCase name));
    [|now intros [= <-]].
  intros [= <-]. now apply push_layout_well_filed.
Qed.

Lemma extract_well_filed toLowerCase node :
  forall responsive result,
    well_filed responsive ->
    extractResponsiveLayouts toLowerCase node responsive = Some result ->
    well_filed result.
Proof.
  induction node as [n c | n c cs IH] using FrameNode_tree_ind;
    intros responsive result Hwf; cbn [extractResponsiveLayouts].
  - destruct (record_frame toLowerCase n c responsive) as [recorded|] eqn:Hrec;
      [|discriminate].
    intros [= <-]. eapply record_frame_well_filed; eassumption.
  - destruct (record_frame toLowerCase n c responsive) as [recorded|] eqn:Hrec;
      [|discriminate].
    apply (record_frame_well_filed _ _ _ _ _ Hwf) in Hrec.
    clear Hwf. revert recorded Hrec.
    induction IH as [|child cs' Hchild _ IHcs]; intros acc Hacc.
    + now intros [= <-].
    + destruct (extractResponsiveLayouts toLowerCase child acc) as [acc'|]
        eqn:Hstep; [|discriminate].
      apply IHcs. eapply Hchild; eassumption.
Qed.

(** Whatever [toLowerCase] does, the layouts a successful extraction returns
    are filed well: no breakpoint name occurs twice, none has an empty list,
    and every layout has a truthy width and is under the class of that
    width. *)
Theorem responsive_layouts_are_well_filed
    (toLowerCase : string -> string) (node : FrameNode) (result : Responsive) :
  extractResponsiveLayouts toLowerCase node [] = Some result ->
  well_filed result.
Proof.
  apply extract_well_filed. split; constructor.
Qed.

(** The three screens. *)
Lemma responsive_layouts_are_well_filed_witness :
  exists result,
    extractResponsiveLayouts lower screens [] = Some result /\
    well_filed result.
Proof.
  eexists. split; [vm_compute; reflexivity|].
  apply (responsive_layouts_are_well_filed lower screens).
  vm_compute. reflexivity.
Defined.

Lemma record_frame_fails toLowerCase n c responsive :
  match record_frame toLowerCase n c responsive with
  | None => true
  | Some _ => false
  end = nameless_frame n.
Proof.
  unfold record_frame, nameless_frame.
  destruct (is_string (n_type n) "FRAME"); [|reflexivity].
  destruct (n_name n) as [name|]; [|reflexivity].
  destruct (truthy_width n); [|reflexivity].
  now destruct (looks_responsive toLowerCase (toLowerCase name)).
Qed.

Lemma extract_fails toLowerCase node :
  forall responsive,
    match extractResponsiveLayouts toLowerCase node responsive with
    | None => true
    | Some _ => false
    end = existsb nameless_frame (frame_preorder node).
Proof.
  induction node as [n c | n c cs IH] using FrameNode_tree_ind;
    intros responsive; cbn [extractResponsiveLayouts frame_preorder existsb];
    rewrite <- (record_frame_fails toLowerCase n c responsive).
  - destruct (record_frame toLowerCase n c responsive); reflexivity.
  - destruct (record_frame toLowerCase n c responsive) as [recorded|];
      [|reflexivity].
    cbn [orb]. revert recorded.
    induction IH as [|child cs' Hchild _ IHcs]; intros acc; [reflexivity|].
    cbn [flat_map]. rewrite existsb_app, <- (Hchild acc).
    destruct (extractResponsiveLayouts toLowerCase child acc) as [acc'|];
      [apply IHcs | reflexivity].
Qed.

(** The extraction fails (with the [TypeError] of calling [toLowerCase] on
    an undefined name) exactly when some node of type FRAME in the tree has
    no name, whatever the layouts collected before. *)
Theorem responsive_fails_on_nameless_frame
    (toLowerCase : string -> string) (node : FrameNode)
    (responsive : Responsive) :
  extractResponsiveLayouts toLowerCase node responsive = None <->
  exists n, In n (frame_preorder node) /\ nameless_frame n = true.
Proof.
  rewrite <- existsb_exists, <- (extract_fails toLowerCase node responsive).
  destruct (extractResponsiveLayouts toLowerCase node responsive);
    split; congruence.
Qed.


(** A tree with a frame that has no name. *)
Lemma responsive_fails_on_nameless_frame_witness :
  extractResponsiveLayouts lower
    (mkFrameNode (named_frame "Mobile" None) None
       (Some [mkFrameNode (plain (Some "2:2") None (Some "FRAME")) None None]))
    [] = None.
Proof.
  apply (responsive_fails_on_nameless_frame lower).
  exists (plain (Some "2:2") None (Some "FRAME")).
  split; [right; now left | reflexivity].
Defined.

(** ** The recommendations: [generateResponsiveRecommendations] *)

Lemma categorize_mobile w :
  categorizeByBreakpoint w = "mobile" <-> Num.leb w (Num.of_Z 480) = true.
Proof.
  unfold categorizeByBreakpoint.
  destruct (Num.leb w (Num.of_Z 480)); [tauto|].
  destruct (Num.leb w (Num.of_Z 768)); [split; discriminate|].
  destruct (Num.leb w (Num.of_Z 1200)); split; discriminate.
Qed.

Lemma layouts_at_none responsive key :
  layouts_at responsive key = None <-> ~ In key (map fst responsive).
Proof.
  induction responsive as [|[k ls] rest IH]; cbn [layouts_at map fst In].
  - tauto.
  - destruct (String.eqb_spec key k) as [-> | Hdiff].
    + split; [discriminate | tauto].
    + rewrite IH. split; [intros H [Heq | Hin]; [congruence | tauto] | tauto].
Qed.

Lemma mobile_warning_listed responsive :
  In no_mobile_warning (generateResponsiveRecommendations responsive) <->
  layouts_at responsive "mobile" = None.
Proof.
  unfold generateResponsiveRecommendations. rewrite !in_app_iff.
  destruct (layouts_at responsive "mobile") as [ls|].
  - split; [|discriminate].
    destruct (length responsive <? 2)%nat;
      destruct (6 <? length (unique_numbers [] (spacing_values responsive)))%nat;
      cbn [In]; intros H; repeat destruct H as [H | H]; try discriminate H;
      destruct H.
  - split; [reflexivity|]. intros _. right. left. now left.
Qed.

Lemma no_mobile_key_no_small_layout responsive :
  well_filed responsive ->
  (~ In "mobile" (map fst responsive) <->
   Forall (fun l => Num.leb (l_width l) (Num.of_Z 480) = false)
          (all_layouts responsive)).
Proof.
  intros [_ Hall]. unfold all_layouts.
  induction Hall as [|[key ls] rest [Hne Hls] _ IH];
    cbn [map fst flat_map snd In] in *.
  - split; [constructor | tauto].
  - rewrite Forall_app. split.
    + intros Hnot. split; [|apply IH; tauto].
      eapply Forall_impl; [exact Hls|]. intros l [Hcat _]. cbn beta in *.
      destruct (Num.leb (l_width l) (Num.of_Z 480)) eqn:Hleb; [|reflexivity].
      apply categorize_mobile in Hleb. exfalso. apply Hnot. left. congruence.
    + intros [Hhere Hrest] [Hkey | Hin]; [subst key | now apply IH in Hrest].
      destruct ls as [|l ls]; [congruence|].
      apply Forall_cons in Hls as [[Hcat _] _].
      apply Forall_cons in Hhere as [Hleb _].
      apply categorize_mobile in Hcat. congruence.
Qed.

(** After a successful extraction, the recommendations warn that no mobile
    layout was detected exactly when no recorded layout has a width of at
    most 480; and they always end with the info line that states the number
    of layouts and of breakpoints, after at most three other entries. *)
Theorem mobile_warning_iff_no_small_layout
    (toLowerCase : string -> string) (node : FrameNode) (result : Responsive) :
  extractResponsiveLayouts toLowerCase node [] = Some result ->
  (In no_mobile_warning (generateResponsiveRecommendations result) <->
   Forall (fun l => Num.leb (l_width l) (Num.of_Z 480) = false)
          (all_layouts result)) /\
  exists front,
    generateResponsiveRecommendations result = (front ++ [found_info result])%list
    /\ (length front <= 3)%nat.
Proof.
  intros Hrun.
  assert (Hwf : well_filed result).
  { eapply extract_well_filed; [|exact Hrun]. split; constructor. }
  split.
  - rewrite mobile_warning_listed, layouts_at_none.
    now apply no_mobile_key_no_small_layout.
  - unfold generateResponsiveRecommendations.
    eexists. rewrite !app_assoc. split; [reflexivity|].
    rewrite !length_app.
    destruct (length result <? 2)%nat;
      destruct (layouts_at result "mobile");
      destruct (6 <? length (unique_numbers [] (spacing_values result)))%nat;
      cbn [length]; lia.
Qed.

(** The three screens have a mobile layout: no mobile warning. *)
Lemma mobile_warning_iff_no_small_layout_witness :
  exists result,
    extractResponsiveLayouts lower screens [] = Some result /\
    (In no_mobile_warning (generateResponsiveRecommendations result) <->
     Forall (fun l => Num.leb (l_width l) (Num.of_Z 480) = false)
            (all_layouts result)).
Proof.
  eexists. split; [vm_compute; reflexivity|].
  apply (mobile_warning_iff_no_small_layout lower screens).
  vm_compute. reflexivity.
Defined.

Example screens_recommendations :
  (fun r => map rec_message (generateResponsiveRecommendations r))
    <$> extractResponsiveLayouts lower screens [] =
  Some [ "Found 2 responsive layouts across 2 breakpoints" ].
Proof. vm_compute. reflexivity. Qed.

Example no_layouts_recommendations :
  map rec_type (generateResponsiveRecommendations []) =
  [ "warning"; "warning"; "info" ].
Proof. reflexivity. Qed.


(** * The interaction-state script *)

Lemma prefix_spec k s :
  String.prefix k s = true <-> exists q, s = k +:+ q.
Proof.
  revert s. induction k as [|a k IH]; intros s.
  - split; [intros _; now exists s | intros _; now destruct s].
  - destruct s as [|b s]; cbn [String.prefix].
    + split; [discriminate | intros (q & H); discriminate H].
    + destruct (ascii_dec a b) as [-> | Hab].
      * rewrite IH. split; intros (q & H); exists q.
        -- now rewrite append_cons, H.
        -- rewrite append_cons in H. now injection H.
      * split; [discriminate|]. intros (q & H).
        rewrite append_cons in H. injection H as H _. congruence.
Qed.

Lemma includes_spec s k :
  includes s k = true <-> exists p q, s = p +:+ k +:+ q.
Proof.
  induction s as [|c s IH]; cbn [includes].
  - rewrite orb_false_r, prefix_spec. split.
    + intros (q & H). now exists "", q.
    + intros (p & q & H). destruct p; [now exists q | discriminate H].
  - rewrite orb_true_iff, prefix_spec, IH. split.
    + intros [(q & H) | (p & q & H)].
      * now exists "", q.
      * exists (String c p), q. now rewrite append_cons, H.
    + intros (p & q & H). destruct p as [|c' p].
      * left. now exists q.
      * right. rewrite append_cons in H. injection H as _ H. now exists p, q.
Qed.

Lemma includes_trans s u k :
  includes s u = true -> includes u k = true -> includes s k = true.
Proof.
  rewrite !includes_spec. intros (p & q & ->) (p' & q' & ->).
  exists (p +:+ p'), (q' +:+ q). now rewrite !append_assoc.
Qed.

Lemma some_included_hit name keywords keyword :
  In keyword keywords -> includes name keyword = true ->
  some_included name keywords = true.
Proof.
  intros Hin Hinc. apply existsb_exists. now exists keyword.
Qed.

(** The states overlap where the keywords contain one another: a name that
    includes [inactive] is marked disabled and active at once, a name that
    includes [rollover] or [hover] is marked hover, a name that includes
    [focused] is marked focus; and every name has the default state. *)
Theorem states_follow_contained_keywords (name : string) :
  st_default (identifyStates name) = true /\
  (includes name "inactive" = true ->
   st_disabled (identifyStates name) = true /\
   st_active (identifyStates name) = true) /\
  (includes name "rollover" = true \/ includes name "hover" = true ->
   st_hover (identifyStates name) = true) /\
  (includes name "focused" = true -> st_focus (identifyStates name) = true).
Proof.
  cbn [identifyStates st_default st_hover st_active st_focus st_disabled].
  split; [reflexivity|]. split; [|split].
  - intros H. split.
    + apply (some_included_hit _ _ "inactive"); [cbn; tauto | exact H].
    + apply (some_included_hit _ _ "active"); [cbn; tauto|].
      now apply (includes_trans _ "inactive").
  - intros [H | H].
    + now apply (some_included_hit _ _ "rollover"); [cbn; tauto|].
    + now apply (some_included_hit _ _ "hover"); [cbn; tauto|].
  - intros H. now apply (some_included_hit _ _ "focused"); [cbn; tauto|].
Qed.

(** A tab that is switched off. *)
Lemma states_follow_contained_keywords_witness :
  st_disabled (identifyStates "tab inactive") = true /\
  st_active (identifyStates "tab inactive") = true.
Proof.
  apply (states_follow_contained_keywords "tab inactive"). reflexivity.
Defined.

(** Every name to which [determineInteractionType] gives a specific type is
    a name that the keyword test of [identifyInteractiveElements] detects,
    unless the type comes from the keyword [select], which that test does
    not know. *)
Theorem typed_names_are_detected (name : string) :
  determineInteractionType name <> "interactive" ->
  some_included name INTERACTIVE_KEYWORDS = true \/
  includes name "select" = true.
Proof.
  unfold determineInteractionType, some_included, INTERACTIVE_KEYWORDS.
  cbn [existsb].
  destruct (includes name "button"); [now left|].
  destruct (includes name "btn"); [now left|].
  destruct (includes name "cta"); [now left|].
  destruct (includes name "link"); [now left|].
  destruct (includes name "hover"); [now left|].
  destruct (includes name "active"); [now left|].
  destruct (includes name "pressed"); [now left|].
  destruct (includes name "disabled"); [now left|].
  destruct (includes name "focus"); [now left|].
  destruct (includes name "click"); [now left|].
  destruct (includes name "tap"); [now left|].
  destruct (includes name "input"); [now left|].
  destruct (includes name "field"); [now left|].
  destruct (includes name "form"); [now left|].
  destruct (includes name "checkbox"); [now left|].
  destruct (includes name "radio"); [now left|].
  destruct (includes name "toggle"); [now left|].
  destruct (includes name "switch"); [now left|].
  destruct (includes name "dropdown"); [now left|].
  destruct (includes name "select"); [now right|].
  cbn [orb]. congruence.
Qed.

(** A select box is typed as a dropdown. *)
Lemma typed_names_are_detected_witness :
  some_included "country select" INTERACTIVE_KEYWORDS = true \/
  includes "country select" "select" = true.
Proof.
  apply (typed_names_are_detected "country select"). vm_compute. discriminate.
Defined.

Example select_is_not_detected :
  some_included "country select" INTERACTIVE_KEYWORDS = false /\
  determineInteractionType "country select" = "dropdown".
Proof. split; reflexivity. Qed.
